(** * Cache manager, connection monitor, health check and logger of the CRM
      dashboard: a shallow embedding and its verified properties.

    The development follows the TypeScript sources:
    - [JsMap], [Cache]   : the cache manager (class [CacheManager]);
    - [Environment]      : [config/environment.ts];
    - [Health]           : the health check ([checkSystemHealth]);
    - [Logger]           : [utils/logger.ts] (class [Logger]);
    - [CacheOps]         : sequences of cache operations;
    - [JsDate]           : dates as the ISO-8601 strings the logger compares;
    - [LoggerApi]        : the logger's queries, retention sweep and helpers;
    - [App]              : the code that uses several singletons at once:
                           [utils/mockData.ts], [utils/errorHandler.ts], the
                           status panel's handlers, [resetHealthCheck] and
                           [clientService.getAll].

    Time ([Date.now()]) is an integer number of milliseconds, passed to every
    operation that reads the clock.  An [async] function is run to completion
    where one call is studied; where calls interleave ([App.task_step]) it
    is run task by task, from one [await] to the next. *)

From Stdlib Require Import ZArith Lia String.
From stdpp Require Import base tactics decidable option numbers strings pretty list.

Local Open Scope Z_scope.

(** ** An insertion-ordered map: the JavaScript [Map]

    [Map] iterates in insertion order and [getStats] exposes that order
    ([Array.from(this.cache.keys())]), so the store is an association list
    with at most one binding per key, kept in insertion order. *)
Module JsMap.
Abbreviation t K V := (list (K * V)) (only parsing).
Section Defs.
Context {K V : Type} `{EqDecision K}.
Local Abbreviation t := (list (K * V)) (only parsing).

Definition empty : t := [].

(** [map.get(k)] *)
Fixpoint get (k : K) (m : t) : option V :=
  match m with
  | [] => None
  | (k', v) :: m' => if decide (k' = k) then Some v else get k m'
  end.

(** [map.set(k, v)]: an existing key keeps its position, a new key goes last *)
Fixpoint set (k : K) (v : V) (m : t) : t :=
  match m with
  | [] => [(k, v)]
  | (k', v') :: m' =>
      if decide (k' = k) then (k, v) :: m' else (k', v') :: set k v m'
  end.

(** [map.delete(k)] *)
Definition delete (k : K) (m : t) : t := filter (λ p, p.1 ≠ k) m.

(** [map.size], [map.keys()], [map.entries()], [map.clear()] *)
Definition size (m : t) : nat := length m.
Definition keys (m : t) : list K := m.*1.
Definition entries (m : t) : list (K * V) := m.
Definition clear (m : t) : t := [].

(** Representation invariant: a key is bound at most once. *)
Definition wf (m : t) : Prop := NoDup (keys m).
End Defs.
End JsMap.

(** ** The cache manager *)
Module Cache.

(** [type CacheKey = 'dashboard' | 'clients' | 'deals' | 'activities' | 'notifications'] *)
Inductive CacheKey : Set :=
| dashboard | clients | deals | activities | notifications.

#[global] Instance CacheKey_eq_dec : EqDecision CacheKey.
Proof. solve_decision. Defined.

Section WithPayload.
(** the payload type ([data: any]) *)
Context {T : Type}.

Record CacheEntry : Type := mkEntry {
  data : T;
  timestamp : Z;               (* the expiry instant, [Date.now() + ttl] *)
  dependencies : list CacheKey
}.

(** the private field [cache] is the whole state of a [CacheManager] *)
Local Abbreviation store := (list (CacheKey * CacheEntry)) (only parsing).

Definition DEFAULT_TTL : Z := 5 * 60 * 1000.

(** [set(key, data, dependencies, ttl)] at clock [now] *)
Definition set (key : CacheKey) (d : T) (deps : list CacheKey) (ttl : Z)
    (now : Z) (cache : store) : store :=
  JsMap.set key {| data := d; timestamp := now + ttl; dependencies := deps |} cache.

(** the same call with the default arguments [dependencies = []] and
    [ttl = DEFAULT_TTL] *)
Definition set_default (key : CacheKey) (d : T) (now : Z) (cache : store) : store :=
  set key d [] DEFAULT_TTL now cache.

(** [get(key)]: [None] is the [null] result; the store after the call is
    returned too, since an expired entry is deleted by the read *)
Definition get (key : CacheKey) (now : Z) (cache : store) : option T * store :=
  match JsMap.get key cache with
  | None => (None, cache)
  | Some entry =>
      if now >? timestamp entry
      then (None, JsMap.delete key cache)
      else (Some (data entry), cache)
  end.

(** [entry.dependencies.includes(key)] *)
Definition includes (deps : list CacheKey) (key : CacheKey) : bool :=
  bool_decide (key ∈ deps).

(** [invalidate(key)]: delete the key, collect the keys of the remaining
    entries that list it as a dependency, delete those *)
Definition invalidate (key : CacheKey) (cache : store) : store :=
  let cache1 := JsMap.delete key cache in
  let keysToInvalidate :=
    (filter (λ p, includes (dependencies p.2) key = true) (JsMap.entries cache1)).*1 in
  foldl (λ c k, JsMap.delete k c) cache1 keysToInvalidate.

(** [invalidateAll()] *)
Definition invalidateAll (cache : store) : store := JsMap.clear cache.

(** [has(key)] *)
Definition has (key : CacheKey) (now : Z) (cache : store) : bool :=
  match JsMap.get key cache with
  | None => false
  | Some entry => now <=? timestamp entry
  end.

Record Stats : Type := mkStats { size : nat; keys : list CacheKey }.

(** [getStats()] *)
Definition getStats (cache : store) : Stats :=
  {| size := JsMap.size cache; keys := JsMap.keys cache |}.

(** [cleanup()] at clock [now] *)
Definition cleanup (now : Z) (cache : store) : store :=
  let expiredKeys :=
    (filter (λ p, now > timestamp p.2) (JsMap.entries cache)).*1 in
  foldl (λ c k, JsMap.delete k c) cache expiredKeys.

(** the exported helpers *)
Definition invalidateClientCache (cache : store) : store :=
  invalidate dashboard (invalidate clients cache).
Definition invalidateDealCache (cache : store) : store :=
  invalidate dashboard (invalidate deals cache).
Definition invalidateActivityCache (cache : store) : store :=
  invalidate dashboard (invalidate activities cache).
Definition invalidateNotificationCache (cache : store) : store :=
  invalidate dashboard (invalidate notifications cache).

(** A [set] call with all its arguments and the clock at which it runs;
    a run of such calls models "a sequence of set calls". *)
Record SetCall : Type := mkSetCall {
  sc_key : CacheKey; sc_data : T; sc_deps : list CacheKey;
  sc_ttl : Z; sc_now : Z
}.

Definition run_sets (calls : list SetCall) (cache : store) : store :=
  foldl (λ c s, set (sc_key s) (sc_data s) (sc_deps s) (sc_ttl s) (sc_now s) c)
        cache calls.
End WithPayload.
Arguments CacheEntry : clear implicits.
Arguments SetCall : clear implicits.
Abbreviation store T := (list (CacheKey * CacheEntry T)) (only parsing).

(** What the caller of [get] is handed.  [get] answers [null] for a miss and
    [entry.data] itself for a hit, so for a payload that may be [null]
    (here [None]) the two levels of the result fall together: the caller
    cannot tell a hit on a [null] payload from a miss. *)
Definition handed {D} (result : option (option D)) : option D :=
  match result with
  | Some payload => payload
  | None => None
  end.
End Cache.

(** ** Effects: state, a trace of external events, and exceptions

    The connection monitor, the health check and the logger mutate module
    state, talk to the outside world ([fetch], [console], [localStorage]) and
    use [try]/[catch].  A computation takes the state and yields an outcome
    (a value or a thrown error), the state it leaves, and the events it
    emitted, in order.  An [async] function is run to completion at the point
    where it is called; what the outside world answers is a parameter of the
    operation that asks. *)
Module Eff.
Inductive outcome (A : Type) : Type :=
| Returned (a : A)
| Thrown (err : string).
Arguments Returned {A} a.
Arguments Thrown {A} err.

Record result (E S A : Type) : Type := mkResult {
  out : outcome A;
  final : S;
  trace : list E
}.
Arguments mkResult {E S A} out final trace.
Arguments out {E S A} r.
Arguments final {E S A} r.
Arguments trace {E S A} r.

Definition t (E S A : Type) : Type := S → result E S A.

Section Ops.
Context {E S : Type}.

Definition ret {A} (a : A) : t E S A := λ s, mkResult (Returned a) s [].

Definition bind {A B} (f : A → t E S B) (m : t E S A) : t E S B := λ s,
  let r := m s in
  match out r with
  | Returned a =>
      let r' := f a (final r) in
      mkResult (out r') (final r') (trace r ++ trace r')
  | Thrown err => mkResult (Thrown err) (final r) (trace r)
  end.

(** [throw err] *)
Definition throw {A} (err : string) : t E S A := λ s, mkResult (Thrown err) s [].

(** an externally visible action *)
Definition emit (ev : E) : t E S unit := λ s, mkResult (Returned tt) s [ev].

Definition read : t E S S := λ s, mkResult (Returned s) s [].
Definition modify (f : S → S) : t E S unit := λ s, mkResult (Returned tt) (f s) [].

(** [try { m } catch (err) { h err }] *)
Definition try_catch {A} (m : t E S A) (h : string → t E S A) : t E S A := λ s,
  let r := m s in
  match out r with
  | Returned a => r
  | Thrown err =>
      let r' := h err (final r) in
      mkResult (out r') (final r') (trace r ++ trace r')
  end.

(** [try { m } finally { fin }], for a [fin] that does not throw *)
Definition try_finally {A} (m : t E S A) (fin : t E S unit) : t E S A := λ s,
  let r := m s in
  let r' := fin (final r) in
  mkResult (out r) (final r') (trace r ++ trace r').

(** Calling an [async] function without awaiting it: the caller goes on
    whatever the promise does; a rejection nobody handles is reported by
    the runtime, not thrown to the caller. *)
Definition spawn {A} (unhandled : string → E) (m : t E S A) : t E S unit := λ s,
  let r := m s in
  match out r with
  | Returned _ => mkResult (Returned tt) (final r) (trace r)
  | Thrown err => mkResult (Returned tt) (final r) (trace r ++ [unhandled err])
  end.
End Ops.

#[global] Instance eff_ret {E S} : MRet (t E S) := λ A, @ret E S A.
#[global] Instance eff_bind {E S} : MBind (t E S) := λ A B, @bind E S A B.
End Eff.

(** JavaScript truthiness of a string: every string but the empty one. *)
Definition truthy (s : string) : bool := negb (String.eqb s "").

(** [s.includes(sub)] *)
Definition str_includes (s sub : string) : bool :=
  match sub with
  | EmptyString => true
  | _ => match String.index 0 sub s with Some _ => true | None => false end
  end.

(** ** The environment configuration and the connection monitor *)
Module Environment.

Module Config.
Record EnvironmentConfig : Type := mk {
  supabaseUrl : string;
  supabaseAnonKey : string;
  isDevelopment : bool;
  isProduction : bool;
  enableMockData : bool;
  apiTimeout : Z;
  cacheTimeout : Z
}.
End Config.
Export Config (EnvironmentConfig).

Inductive ConnectionStatus : Set := unknown | connected | failed.

#[global] Instance ConnectionStatus_eq_dec : EqDecision ConnectionStatus.
Proof. solve_decision. Defined.

(** the module-level variables *)
Record State : Type := mkState {
  defaultConfig : EnvironmentConfig;
  supabaseConnectionStatus : ConnectionStatus;
  lastConnectionCheck : Z
}.

(** the state when the module is loaded, for the configuration read from
    the build environment ([enableMockData] starts false) *)
Definition initial (cfg : EnvironmentConfig) : State :=
  {| defaultConfig := cfg; supabaseConnectionStatus := unknown;
     lastConnectionCheck := 0 |}.

Definition CONNECTION_CHECK_INTERVAL : Z := 30000.

Inductive Event : Type :=
| FetchHead (url : string) (apikey : string)   (* the HEAD request *)
| ConsoleWarn (msg : string) (err : string).

(** what the network answers to the HEAD request: a response, with its
    [ok] flag, or a rejection (network error, or the 5 s timeout) *)
Inductive FetchResult : Type :=
| Response (ok : bool)
| Rejected (reason : string).

Abbreviation M := (Eff.t Event State).

Definition set_status (c : ConnectionStatus) : M unit :=
  Eff.modify (λ st, {| defaultConfig := defaultConfig st;
                       supabaseConnectionStatus := c;
                       lastConnectionCheck := lastConnectionCheck st |}).

Definition set_lastCheck (now : Z) : M unit :=
  Eff.modify (λ st, {| defaultConfig := defaultConfig st;
                       supabaseConnectionStatus := supabaseConnectionStatus st;
                       lastConnectionCheck := now |}).

(** [isSupabaseConfigured()] *)
Definition isSupabaseConfigured (cfg : EnvironmentConfig) : bool :=
  truthy (Config.supabaseUrl cfg) && truthy (Config.supabaseAnonKey cfg).

(** [await fetch(`${url}/rest/v1/`, { method: 'HEAD', ... })] *)
Definition fetch_head (net : FetchResult) (cfg : EnvironmentConfig) : M bool :=
  Eff.emit (FetchHead (Config.supabaseUrl cfg ++ "/rest/v1/")
                      (Config.supabaseAnonKey cfg)) ;;
  match net with
  | Response ok => mret ok
  | Rejected reason => Eff.throw reason
  end.

(** the guard of the cached fast path *)
Definition recently_checked (now : Z) (st : State) : bool :=
  (now - lastConnectionCheck st <? CONNECTION_CHECK_INTERVAL)
  && bool_decide (supabaseConnectionStatus st ≠ unknown).

(** [isSupabaseAvailable()], called at clock [now]; [net] is what the
    network answers if the request is made *)
Definition isSupabaseAvailable (now : Z) (net : FetchResult) : M bool :=
  st ← Eff.read;
  if recently_checked now st then
    mret (bool_decide (supabaseConnectionStatus st = connected))
  else if negb (isSupabaseConfigured (defaultConfig st)) then
    set_status failed ;;
    set_lastCheck now ;;
    mret false
  else
    Eff.try_catch
      (ok ← fetch_head net (defaultConfig st);
       set_status (if ok : bool then connected else failed))
      (λ err,
         Eff.emit (ConsoleWarn "Supabase connection test failed:" err) ;;
         set_status failed) ;;
    set_lastCheck now ;;
    st' ← Eff.read;
    mret (bool_decide (supabaseConnectionStatus st' = connected)).

(** [shouldUseMockData()] *)
Definition shouldUseMockData (now : Z) (net : FetchResult) : M bool :=
  st ← Eff.read;
  if Config.enableMockData (defaultConfig st) then mret true
  else if Config.isDevelopment (defaultConfig st) then
    isAvailable ← isSupabaseAvailable now net;
    mret (negb isAvailable)
  else mret false.

(** *** The availability check, task by task

    [isSupabaseAvailable] is [async].  When it sends the request it suspends
    at [await fetch]; other tasks of the event loop run; the rest of its body
    runs when the answer is there, on the module variables as they are
    then. *)

(** up to the [await]: the result, when the call returns without a request
    ([Some]), or the request sent ([None]) *)
Definition begin_check (now : Z) : M (option bool) :=
  st ← Eff.read;
  if recently_checked now st then
    mret (Some (bool_decide (supabaseConnectionStatus st = connected)))
  else if negb (isSupabaseConfigured (defaultConfig st)) then
    set_status failed ;;
    set_lastCheck now ;;
    mret (Some false)
  else
    Eff.emit (FetchHead (Config.supabaseUrl (defaultConfig st) ++ "/rest/v1/")
                        (Config.supabaseAnonKey (defaultConfig st))) ;;
    mret None.

(** from the [await] on, with the answer [net]; [now] is the clock the call
    read on entry *)
Definition resume_check (now : Z) (net : FetchResult) : M bool :=
  match net with
  | Response ok => set_status (if ok : bool then connected else failed)
  | Rejected reason =>
      Eff.emit (ConsoleWarn "Supabase connection test failed:" reason) ;;
      set_status failed
  end ;;
  set_lastCheck now ;;
  st' ← Eff.read;
  mret (bool_decide (supabaseConnectionStatus st' = connected)).

(** [shouldUseMockData()] up to its suspension, if any; what it does once
    [isSupabaseAvailable] has returned touches no module variable *)
Definition begin_decision (now : Z) : M (option bool) :=
  st ← Eff.read;
  if Config.enableMockData (defaultConfig st) then mret (Some true)
  else if Config.isDevelopment (defaultConfig st) then
    answer ← begin_check now;
    mret (negb <$> answer)
  else mret (Some false).

(** [enableMockData(enable)] ([enable] defaults to [true]) *)
Definition enableMockData (enable : bool) : M unit :=
  Eff.modify (λ st,
    let cfg := defaultConfig st in
    {| defaultConfig :=
         {| Config.supabaseUrl := Config.supabaseUrl cfg;
            Config.supabaseAnonKey := Config.supabaseAnonKey cfg;
            Config.isDevelopment := Config.isDevelopment cfg;
            Config.isProduction := Config.isProduction cfg;
            Config.enableMockData := enable;
            Config.apiTimeout := Config.apiTimeout cfg;
            Config.cacheTimeout := Config.cacheTimeout cfg |};
       supabaseConnectionStatus := unknown;
       lastConnectionCheck := 0 |}).

(** [resetConnectionStatus()] *)
Definition resetConnectionStatus : M unit :=
  Eff.modify (λ st, {| defaultConfig := defaultConfig st;
                       supabaseConnectionStatus := unknown;
                       lastConnectionCheck := 0 |}).

(** [getConnectionStatus()] *)
Definition getConnectionStatus : M (ConnectionStatus * Z * bool) :=
  st ← Eff.read;
  mret (supabaseConnectionStatus st, lastConnectionCheck st,
        isSupabaseConfigured (defaultConfig st)).

(** the status a completed request leaves: [response.ok ? 'connected' :
    'failed'], and ['failed'] on a rejection *)
Definition probed_status (net : FetchResult) : ConnectionStatus :=
  match net with Response true => connected | _ => failed end.

(** the events of a request: the HEAD request itself, and the warning of
    the [catch] block when it rejects *)
Definition probe_trace (cfg : EnvironmentConfig) (net : FetchResult) : list Event :=
  FetchHead (Config.supabaseUrl cfg ++ "/rest/v1/") (Config.supabaseAnonKey cfg)
  :: match net with
     | Response _ => []
     | Rejected err => [ConsoleWarn "Supabase connection test failed:" err]
     end.

(** the number of HEAD requests in a trace *)
Definition is_fetch (ev : Event) : bool :=
  match ev with FetchHead _ _ => true | ConsoleWarn _ _ => false end.
Definition fetches (tr : list Event) : nat := length (List.filter is_fetch tr).
End Environment.

(** ** The system health check *)
Module Health.

Inductive Status : Set := healthy | degraded | unhealthy.

#[global] Instance Status_eq_dec : EqDecision Status.
Proof. solve_decision. Defined.

Record HealthStatus : Type := mkHealthStatus {
  service : string;
  status : Status;
  lastCheck : Z;
  error : option string;
  responseTime : option Z
}.

Record SystemHealth : Type := mkSystemHealth {
  overall : Status;
  services : list HealthStatus;
  timestamp : Z
}.

(** the module-level variables *)
Record State : Type := mkState {
  lastHealthCheck : option SystemHealth;
  healthCheckInProgress : bool
}.

Definition initial : State :=
  {| lastHealthCheck := None; healthCheckInProgress := false |}.

Definition HEALTH_CHECK_CACHE_DURATION : Z := 30000.

Inductive Event : Type :=
| SelectCount (table : string)   (* the query sent to the data service *)
| Sleep (ms : Z).

(** what the client throws when it does not answer.  The [catch] block
    reads the [message] property of whatever it is: of [null] and
    [undefined] that read throws; of any other value it gives the message, a
    string as [HealthStatus.error] is, or nothing ([None]: the value has no
    [message], as a thrown string or number). *)
Inductive Thrown : Type :=
| ThrownNull
| ThrownUndefined
| ThrownObject (message : option string).

(** what the data service answers to the probe query *)
Inductive QueryResult : Type :=
| QueryData                          (* [{ data, error: null }] *)
| QueryError (message : string)      (* [{ error }] *)
| QueryThrows (thrown : Thrown).     (* the client throws *)

(** the client throws [null] or [undefined] *)
Definition throws_nullish (a : QueryResult) : bool :=
  match a with
  | QueryThrows ThrownNull | QueryThrows ThrownUndefined => true
  | _ => false
  end.

(** What a call of [checkSystemHealth] meets outside its own code: the
    clock readings, the answer of the data service, and what the other
    tasks of the event loop did to the module variables while this call was
    suspended in its 100 ms wait. *)
Record World : Type := mkWorld {
  now : Z;                 (* [Date.now()] on entry to [checkSystemHealth] *)
  startTime : Z;           (* [Date.now()] on entry to [checkSupabaseHealth] *)
  answered : Z;            (* [Date.now()] when the query has answered *)
  stamped : Z;             (* [Date.now()] when the record is built *)
  answer : QueryResult;
  meanwhile : State → State
}.

Abbreviation M := (Eff.t Event State).

(** [try { m } catch (error) { h error }] for a block that throws a value
    the handler inspects: [m] yields what it returns ([inr]) or what was
    thrown in it ([inl]); what the handler itself throws is not caught. *)
Definition try_catch_value {A} (m : M (Thrown + A)) (h : Thrown → M A) : M A :=
  r ← m;
  match r with
  | inl error => h error
  | inr a => mret a
  end.

(** the [TypeError] of reading a property of [null] or [undefined] *)
Definition cannot_read (what property : string) : string :=
  "TypeError: Cannot read properties of " +:+ what
  +:+ " (reading '" +:+ property +:+ "')".

(** the [try] block of [checkSupabaseHealth] from the point where the
    awaited query has settled *)
Definition probe_settled (w : World) : M (Thrown + HealthStatus) :=
  match answer w with
  | QueryThrows thrown => mret (inl thrown)
  | QueryError message =>
      let responseTime := answered w - startTime w in
      if str_includes message "relation" && str_includes message "does not exist"
      then mret (inr {| service := "supabase"; status := degraded;
                        lastCheck := stamped w;
                        error := Some "Database tables not configured";
                        responseTime := Some responseTime |})
      else mret (inr {| service := "supabase"; status := unhealthy;
                        lastCheck := stamped w;
                        error := Some message;
                        responseTime := Some responseTime |})
  | QueryData =>
      let responseTime := answered w - startTime w in
      mret (inr {| service := "supabase"; status := healthy;
                   lastCheck := stamped w;
                   error := None;
                   responseTime := Some responseTime |})
  end.

(** its [catch] block *)
Definition probe_failed (w : World) (error : Thrown) : M HealthStatus :=
  let responseTime := answered w - startTime w in
  match error with
  | ThrownNull => Eff.throw (cannot_read "null" "message")
  | ThrownUndefined => Eff.throw (cannot_read "undefined" "message")
  | ThrownObject message =>
      mret {| service := "supabase"; status := unhealthy;
              lastCheck := stamped w;
              error := Some (match message with
                             | Some text =>
                                 if truthy text then text
                                 else "Connection failed"
                             | None => "Connection failed"
                             end);
              responseTime := Some responseTime |}
  end.

(** [checkSupabaseHealth()] *)
Definition checkSupabaseHealth (w : World) : M HealthStatus :=
  try_catch_value
    (Eff.emit (SelectCount "clients") ;; probe_settled w)
    (probe_failed w).

(** The derivation of the overall status, lines 117-127 of the source:
    [[
      let overall = 'healthy';
      const unhealthyServices = services.filter(s => s.status === 'unhealthy');
      const degradedServices = services.filter(s => s.status === 'degraded');
      if (unhealthyServices.length > 0) overall = 'unhealthy';
      else if (degradedServices.length > 0) overall = 'degraded';
    ]] *)
Definition deriveOverall (services : list HealthStatus) : Status :=
  let unhealthyServices := filter (λ s, status s = unhealthy) services in
  let degradedServices := filter (λ s, status s = degraded) services in
  if (0 <? length unhealthyServices)%nat then unhealthy
  else if (0 <? length degradedServices)%nat then degraded
  else healthy.

Definition set_inProgress (b : bool) : M unit :=
  Eff.modify (λ st, {| lastHealthCheck := lastHealthCheck st;
                       healthCheckInProgress := b |}).

Definition set_lastHealthCheck (h : SystemHealth) : M unit :=
  Eff.modify (λ st, {| lastHealthCheck := Some h;
                       healthCheckInProgress := healthCheckInProgress st |}).

(** the [try] block once the probes have returned: derive the overall
    status, publish the snapshot, return it *)
Definition publish (w : World) (supabaseStatus : HealthStatus) : M SystemHealth :=
  let services := [supabaseStatus] in
  let systemHealth :=
    {| overall := deriveOverall services;
       services := services;
       timestamp := now w |} in
  set_lastHealthCheck systemHealth ;;
  mret systemHealth.

(** from [healthCheckInProgress = true] to the end: run the probes and
    publish the snapshot *)
Definition refresh (w : World) : M SystemHealth :=
  set_inProgress true ;;
  Eff.try_finally
    (supabaseStatus ← checkSupabaseHealth w;
     publish w supabaseStatus)
    (set_inProgress false).

(** the first guard: a recent snapshot that may be reused *)
Definition recent (forceRefresh : bool) (w : World) (st : State)
    : option SystemHealth :=
  match lastHealthCheck st with
  | Some h =>
      if negb forceRefresh && (now w - timestamp h <? HEALTH_CHECK_CACHE_DURATION)
      then Some h else None
  | None => None
  end.

(** [checkSystemHealth(forceRefresh)] *)
Definition checkSystemHealth (forceRefresh : bool) (w : World) : M SystemHealth :=
  st ← Eff.read;
  match recent forceRefresh w st with
  | Some h => mret h
  | None =>
      waited ←
        (if healthCheckInProgress st then
           Eff.emit (Sleep 100) ;;
           Eff.modify (meanwhile w) ;;
           st' ← Eff.read;
           mret (lastHealthCheck st')
         else mret None);
      match waited with
      | Some h => mret h
      | None => refresh w
      end
  end.

(** *** The health check, task by task

    [checkSystemHealth] is [async] too: it suspends in its 100 ms wait and on
    the probe query, and other tasks run in between. *)
Inductive Phase : Type :=
| Done (h : SystemHealth)     (* the call has returned [h] *)
| Waits                       (* suspended in the 100 ms wait *)
| Queries.                    (* suspended on the probe query *)

(** the flag is raised and the probe query sent *)
Definition send_probe : M Phase :=
  set_inProgress true ;;
  Eff.emit (SelectCount "clients") ;;
  mret Queries.

(** [checkSystemHealth(forceRefresh)] up to its first suspension *)
Definition start (forceRefresh : bool) (w : World) : M Phase :=
  st ← Eff.read;
  match recent forceRefresh w st with
  | Some h => mret (Done h)
  | None =>
      if healthCheckInProgress st then
        Eff.emit (Sleep 100) ;;
        mret Waits
      else send_probe
  end.

(** when the 100 ms are over *)
Definition wake : M Phase :=
  st ← Eff.read;
  match lastHealthCheck st with
  | Some h => mret (Done h)
  | None => send_probe
  end.

(** when the probe query has settled *)
Definition settle (w : World) : M SystemHealth :=
  Eff.try_finally
    (supabaseStatus ← try_catch_value (probe_settled w) (probe_failed w);
     publish w supabaseStatus)
    (set_inProgress false).

(** [getLastHealthCheck()] *)
Definition getLastHealthCheck : M (option SystemHealth) :=
  st ← Eff.read; mret (lastHealthCheck st).

(** [health.services.find(s => s.service === name)?.status === 'healthy'] *)
Definition service_is_healthy (name : string) (h : SystemHealth) : bool :=
  match List.find (λ s, String.eqb (service s) name) (services h) with
  | Some s => bool_decide (status s = healthy)
  | None => false
  end.

(** [isServiceHealthy(serviceName)] and [isSupabaseReady()] *)
Definition isServiceHealthy (serviceName : string) (w : World) : M bool :=
  health ← checkSystemHealth false w;
  mret (service_is_healthy serviceName health).
Definition isSupabaseReady (w : World) : M bool :=
  isServiceHealthy "supabase" w.

(** The severity order of the data model, [unhealthy > degraded > healthy],
    and the worst status of a list as the specification words it. *)
Definition severity (s : Status) : nat :=
  match s with healthy => 0 | degraded => 1 | unhealthy => 2 end.
Definition worse (a b : Status) : Status :=
  if (severity a <? severity b)%nat then b else a.
Definition worst_of (l : list Status) : Status := foldr worse healthy l.

(** a snapshot whose overall status is the one derived from its services *)
Definition consistent (h : SystemHealth) : Prop :=
  overall h = deriveOverall (services h).
End Health.

(** [list.slice(0, end)] for an integer [end]: a negative [end] counts from
    the end of the list. *)
Definition slice0 {A} (finish : Z) (l : list A) : list A :=
  let len := Z.of_nat (length l) in
  let final := if finish <? 0 then Z.max (len + finish) 0 else Z.min finish len in
  take (Z.to_nat final) l.

(** ** The logger *)
Module Logger.

(** [enum LogLevel { DEBUG = 0, INFO = 1, WARN = 2, ERROR = 3, CRITICAL = 4 }] *)
Inductive LogLevel : Set := DEBUG | INFO | WARN | ERROR | CRITICAL.

#[global] Instance LogLevel_eq_dec : EqDecision LogLevel.
Proof. solve_decision. Defined.

Definition levelNum (l : LogLevel) : Z :=
  match l with DEBUG => 0 | INFO => 1 | WARN => 2 | ERROR => 3 | CRITICAL => 4 end.

(** the reverse mapping [LogLevel[level]] *)
Definition levelName (l : LogLevel) : string :=
  match l with
  | DEBUG => "DEBUG" | INFO => "INFO" | WARN => "WARN"
  | ERROR => "ERROR" | CRITICAL => "CRITICAL"
  end.

Record LoggerConfig : Type := mkConfig {
  level : LogLevel;
  enableConsole : bool;
  enableStorage : bool;
  maxStorageEntries : Z;
  enableRemoteLogging : bool;
  remoteEndpoint : option string
}.

(** a JavaScript [Error], as far as the logger reads it *)
Record JsError : Type := mkError { err_message : string; err_stack : option string }.

Inductive ConsoleMethod : Set := c_debug | c_info | c_warn | c_error.

(** [window], when there is one *)
Record Window : Type := mkWindow { userAgent : string; href : string }.

(** What a logger call meets outside its own code: the clock, the random
    suffix of the entry id, the browser window if any, whether
    [localStorage.setItem] throws (quota), and whether the POST to the
    remote endpoint rejects. *)
Record World : Type := mkWorld {
  idClock : Z;             (* [Date.now()] read for the entry id *)
  clock : Z;               (* [new Date()] read for the entry timestamp *)
  nonce : string;
  window : option Window;
  setItemThrows : bool;
  fetchRejects : bool
}.

(** the same surroundings, except for the fate of the POST *)
Definition with_fetchRejects (b : bool) (w : World) : World :=
  {| idClock := idClock w; clock := clock w; nonce := nonce w;
     window := window w; setItemThrows := setItemThrows w;
     fetchRejects := b |}.

Section WithData.
(** the type of the structured [data] attached to an entry; an entry read
    back from storage is taken to be the entry that was written *)
Context {D : Type}.

Record LogEntry : Type := mkLogEntry {
  id : Z * string;           (* [`log_${Date.now()}_${random}`] *)
  timestamp : Z;             (* [new Date().toISOString()], as an instant *)
  entry_level : LogLevel;
  message : string;
  context : option string;
  data : option D;
  stack : option string;
  entry_userAgent : option string;
  url : option string
}.

(** the logger object, together with the [localStorage] item ['app_logs']
    it owns ([None]: no such item) *)
Record State : Type := mkState {
  config : LoggerConfig;
  sessionId : string;
  app_logs : option (list LogEntry)
}.

Inductive Event : Type :=
| Console (m : ConsoleMethod) (e : LogEntry)   (* the formatted line and [e.data] *)
| ConsoleStack (stack : string)                (* [console.error('Stack trace:', ...)] *)
| Warning (what : string) (err : string)       (* the logger's own [console.warn] *)
| SetItem (logs : list LogEntry)               (* [localStorage.setItem] succeeded *)
| RemoveItem
| FetchPost (endpoint : string) (e : LogEntry) (session : string)
| UnhandledRejection (err : string).

Local Abbreviation M := (Eff.t Event State).

Definition set_config (f : LoggerConfig → LoggerConfig) : M unit :=
  Eff.modify (λ st, {| config := f (config st); sessionId := sessionId st;
                       app_logs := app_logs st |}).

(** [shouldLog(level)] *)
Definition shouldLog (cfg : LoggerConfig) (lvl : LogLevel) : bool :=
  levelNum (level cfg) <=? levelNum lvl.

(** [createLogEntry(level, message, context, data, error)] *)
Definition createLogEntry (w : World) (lvl : LogLevel) (msg : string)
    (ctx : option string) (d : option D) (error : option JsError) : LogEntry :=
  {| id := (idClock w, nonce w);
     timestamp := clock w;
     entry_level := lvl;
     message := msg;
     context := ctx;
     data := d;
     stack := error ≫= err_stack;
     entry_userAgent := userAgent <$> window w;
     url := href <$> window w |}.

Definition consoleMethod (lvl : LogLevel) : ConsoleMethod :=
  match lvl with
  | DEBUG => c_debug
  | INFO => c_info
  | WARN => c_warn
  | ERROR | CRITICAL => c_error
  end.

(** [logToConsole(entry)] *)
Definition logToConsole (entry : LogEntry) : M unit :=
  st ← Eff.read;
  if negb (enableConsole (config st)) then mret tt
  else
    Eff.emit (Console (consoleMethod (entry_level entry)) entry) ;;
    match entry_level entry, stack entry with
    | (ERROR | CRITICAL), Some stk =>
        if truthy stk then Eff.emit (ConsoleStack stk) else mret tt
    | _, _ => mret tt
    end.

(** [localStorage.setItem(this.storageKey, JSON.stringify(logs))] *)
Definition setItem (w : World) (logs : list LogEntry) : M unit :=
  if setItemThrows w then Eff.throw "QuotaExceededError"
  else
    Eff.emit (SetItem logs) ;;
    Eff.modify (λ st, {| config := config st; sessionId := sessionId st;
                         app_logs := Some logs |}).

(** [getStoredLogs()] *)
Definition getStoredLogs (w : World) : M (list LogEntry) :=
  match window w with
  | None => mret []
  | Some _ =>
      Eff.try_catch
        (st ← Eff.read;
         mret (match app_logs st with Some logs => logs | None => [] end))
        (λ err, Eff.emit (Warning "Failed to retrieve stored logs:" err) ;;
                mret [])
  end.

(** [logToStorage(entry)] *)
Definition logToStorage (w : World) (entry : LogEntry) : M unit :=
  st ← Eff.read;
  if negb (enableStorage (config st)) || bool_decide (window w = None)
  then mret tt
  else
    Eff.try_catch
      (existingLogs ← getStoredLogs w;
       let updatedLogs :=
         slice0 (maxStorageEntries (config st)) (entry :: existingLogs) in
       setItem w updatedLogs)
      (λ err, Eff.emit (Warning "Failed to store log entry:" err)).

(** [await fetch(endpoint, { method: 'POST', body: ... })] *)
Definition fetch_post (w : World) (endpoint : string) (entry : LogEntry) : M unit :=
  st ← Eff.read;
  Eff.emit (FetchPost endpoint entry (sessionId st)) ;;
  if fetchRejects w then Eff.throw "TypeError: Failed to fetch" else mret tt.

(** [logToRemote(entry)] *)
Definition logToRemote (w : World) (entry : LogEntry) : M unit :=
  st ← Eff.read;
  match remoteEndpoint (config st) with
  | Some endpoint =>
      if negb (enableRemoteLogging (config st)) || negb (truthy endpoint)
      then mret tt
      else
        Eff.try_catch
          (fetch_post w endpoint entry)
          (λ err, Eff.emit (Warning "Failed to send log to remote endpoint:" err))
  | None => mret tt
  end.

(** [log(level, message, context, data, error)] *)
Definition log (w : World) (lvl : LogLevel) (msg : string)
    (ctx : option string) (d : option D) (error : option JsError) : M unit :=
  st ← Eff.read;
  if negb (shouldLog (config st) lvl) then mret tt
  else
    let entry := createLogEntry w lvl msg ctx d error in
    logToConsole entry ;;
    logToStorage w entry ;;
    if levelNum ERROR <=? levelNum lvl
    then Eff.spawn UnhandledRejection (logToRemote w entry)
    else mret tt.

(** the public methods, one per level *)
Definition debug w msg ctx d : M unit := log w DEBUG msg ctx d None.
Definition info w msg ctx d : M unit := log w INFO msg ctx d None.
Definition warn w msg ctx d : M unit := log w WARN msg ctx d None.
Definition error w msg ctx d err : M unit := log w ERROR msg ctx d err.
Definition critical w msg ctx d err : M unit := log w CRITICAL msg ctx d err.

(** [clearStoredLogs()] *)
Definition clearStoredLogs (w : World) : M unit :=
  match window w with
  | None => mret tt
  | Some _ =>
      Eff.emit RemoveItem ;;
      Eff.modify (λ st, {| config := config st; sessionId := sessionId st;
                           app_logs := None |})
  end.

(** [getLogsByLevel(level)], [getLogsByContext(context)] *)
Definition getLogsByLevel (w : World) (lvl : LogLevel) : M (list LogEntry) :=
  logs ← getStoredLogs w;
  mret (filter (λ e, entry_level e = lvl) logs).
Definition getLogsByContext (w : World) (ctx : string) : M (list LogEntry) :=
  logs ← getStoredLogs w;
  mret (filter (λ e, context e = Some ctx) logs).

(** [setLogLevel(level)], [enableRemoteLogging(endpoint)] (here
    [enableRemote]: the configuration field has the name) and
    [disableRemoteLogging()]; each logs the change at INFO under the new
    configuration.  [packed] is the object [{ endpoint }]. *)
Definition setLogLevel (w : World) (lvl : LogLevel) : M unit :=
  set_config (λ c, {| level := lvl; enableConsole := enableConsole c;
                      enableStorage := enableStorage c;
                      maxStorageEntries := maxStorageEntries c;
                      enableRemoteLogging := enableRemoteLogging c;
                      remoteEndpoint := remoteEndpoint c |}) ;;
  info w ("Log level changed to " ++ levelName lvl) (Some "config") None.

(** One call of [log] with everything it is given and meets; a list of
    them is a sequence of log calls, run one after the other. *)
Record LogCall : Type := mkLogCall {
  lc_world : World;
  lc_level : LogLevel;
  lc_message : string;
  lc_context : option string;
  lc_data : option D;
  lc_error : option JsError
}.

Definition call (c : LogCall) : M unit :=
  log (lc_world c) (lc_level c) (lc_message c) (lc_context c) (lc_data c)
      (lc_error c).

(** the entry that call builds *)
Definition entry_of (c : LogCall) : LogEntry :=
  createLogEntry (lc_world c) (lc_level c) (lc_message c) (lc_context c)
                 (lc_data c) (lc_error c).

Fixpoint run_logs (calls : list LogCall) : M unit :=
  match calls with
  | [] => mret tt
  | c :: rest => call c ;; run_logs rest
  end.

(** the persisted entries, as [getStoredLogs] reads them in a browser *)
Definition stored (st : State) : list LogEntry :=
  match app_logs st with Some logs => logs | None => [] end.

(** What each sink of [log] does for an entry, spelt out path by path;
    the lemmas [logToConsole_run], [logToStorage_run] and
    [logToRemote_run] prove that the methods do exactly this. *)
Definition console_lines (cfg : LoggerConfig) (entry : LogEntry) : list Event :=
  if enableConsole cfg then
    Console (consoleMethod (entry_level entry)) entry
    :: match entry_level entry, stack entry with
       | (ERROR | CRITICAL), Some stk =>
           if truthy stk then [ConsoleStack stk] else []
       | _, _ => []
       end
  else [].

Definition storage_enabled (cfg : LoggerConfig) (w : World) : bool :=
  enableStorage cfg && bool_decide (window w ≠ None).

Definition storage_lines (cfg : LoggerConfig) (w : World)
    (entry : LogEntry) (old : list LogEntry) : list Event :=
  if storage_enabled cfg w then
    if setItemThrows w
    then [Warning "Failed to store log entry:" "QuotaExceededError"]
    else [SetItem (slice0 (maxStorageEntries cfg) (entry :: old))]
  else [].

Definition storage_after (w : World) (entry : LogEntry) (st : State) : State :=
  if storage_enabled (config st) w && negb (setItemThrows w) then
    {| config := config st; sessionId := sessionId st;
       app_logs := Some (slice0 (maxStorageEntries (config st))
                                (entry :: stored st)) |}
  else st.

Definition remote_lines (cfg : LoggerConfig) (session : string) (w : World)
    (entry : LogEntry) : list Event :=
  match remoteEndpoint cfg with
  | Some endpoint =>
      if enableRemoteLogging cfg && truthy endpoint then
        FetchPost endpoint entry session
        :: (if fetchRejects w
            then [Warning "Failed to send log to remote endpoint:"
                          "TypeError: Failed to fetch"]
            else [])
      else []
  | None => []
  end.

(** the calls of a sequence all pass the level filter and all reach
    storage: made in a browser, and [setItem] accepts the write *)
Definition all_stored (cfg : LoggerConfig) (calls : list LogCall) : Prop :=
  ∀ c, c ∈ calls →
    levelNum (level cfg) ≤ levelNum (lc_level c) ∧
    window (lc_world c) ≠ None ∧
    setItemThrows (lc_world c) = false.

Definition is_post (ev : Event) : bool :=
  match ev with FetchPost _ _ _ => true | _ => false end.
Definition is_console (ev : Event) : bool :=
  match ev with Console _ _ | ConsoleStack _ => true | _ => false end.
Definition is_unhandled (ev : Event) : bool :=
  match ev with UnhandledRejection _ => true | _ => false end.
End WithData.
Arguments LogEntry : clear implicits.
Arguments State : clear implicits.
Arguments Event : clear implicits.
Arguments LogCall : clear implicits.
End Logger.

(** ** Sequences of cache operations

    Every public method of [CacheManager], and the four exported helpers, as
    one operation each; a run applies them in order, each at the clock
    reading it is made at. *)
Module CacheOps.
Section WithPayload.
Context {T : Type}.

Inductive Op : Type :=
| OpSet (key : Cache.CacheKey) (d : T) (deps : list Cache.CacheKey) (ttl : Z)
| OpGet (key : Cache.CacheKey)
| OpHas (key : Cache.CacheKey)
| OpInvalidate (key : Cache.CacheKey)
| OpInvalidateAll
| OpGetStats
| OpCleanup
| OpInvalidateClientCache
| OpInvalidateDealCache
| OpInvalidateActivityCache
| OpInvalidateNotificationCache.

(** the store an operation leaves, when made at clock [now] *)
Definition step (cache : Cache.store T) (timed : Z * Op) : Cache.store T :=
  let now := timed.1 in
  match timed.2 with
  | OpSet key d deps ttl => Cache.set key d deps ttl now cache
  | OpGet key => (Cache.get key now cache).2
  | OpHas _ | OpGetStats => cache
  | OpInvalidate key => Cache.invalidate key cache
  | OpInvalidateAll => Cache.invalidateAll cache
  | OpCleanup => Cache.cleanup now cache
  | OpInvalidateClientCache => Cache.invalidateClientCache cache
  | OpInvalidateDealCache => Cache.invalidateDealCache cache
  | OpInvalidateActivityCache => Cache.invalidateActivityCache cache
  | OpInvalidateNotificationCache => Cache.invalidateNotificationCache cache
  end.

Definition run (ops : list (Z * Op)) (cache : Cache.store T) : Cache.store T :=
  foldl step cache ops.

(** what a read at clock [now] observes of a key: the value [get] returns *)
Definition observe (key : Cache.CacheKey) (now : Z) (cache : Cache.store T)
    : option T :=
  (Cache.get key now cache).1.
(** a store without a resource: without the entry of [k], without the
    [dashboard] entry, and without the entries that list either as a
    dependency *)
Definition without_resource (k : Cache.CacheKey) (cache : Cache.store T)
    : Cache.store T :=
  filter (λ p, p.1 ≠ k ∧ p.1 ≠ Cache.dashboard ∧
               (k ∉ Cache.dependencies p.2) ∧
               (Cache.dashboard ∉ Cache.dependencies p.2)) cache.
End WithPayload.
Arguments Op : clear implicits.
End CacheOps.

(** ** JavaScript values handed around as [unknown]

    Errors are objects with optional fields; the structured [data] of a log
    entry is built from object literals. *)
Module Js.

(** an error object, as the code inspects it: [name], [code], [message],
    [details], [stack], and whether it is an [instanceof Error];
    [details] is a text (the data service) or the original error (an
    [AppError]) *)
Inductive ErrorObj : Type :=
| mkErrorObj (name code message : option string) (details : Details)
             (stack : option string) (isError : bool)
with Details : Type :=
| NoDetails
| TextDetails (text : string)
| CauseDetails (cause : option ErrorObj).

Definition name (e : ErrorObj) : option string :=
  let 'mkErrorObj n _ _ _ _ _ := e in n.
Definition code (e : ErrorObj) : option string :=
  let 'mkErrorObj _ c _ _ _ _ := e in c.
Definition message (e : ErrorObj) : option string :=
  let 'mkErrorObj _ _ m _ _ _ := e in m.
Definition details (e : ErrorObj) : Details :=
  let 'mkErrorObj _ _ _ d _ _ := e in d.
Definition stack (e : ErrorObj) : option string :=
  let 'mkErrorObj _ _ _ _ s _ := e in s.
Definition isError (e : ErrorObj) : bool :=
  let 'mkErrorObj _ _ _ _ _ b := e in b.

(** [new Error(message)] *)
Definition new_Error (msg : string) (stk : option string) : ErrorObj :=
  mkErrorObj (Some "Error") None (Some msg) NoDetails stk true.


(** [x || fallback] on an optional string: an absent or empty string gives
    the fallback *)
Definition or_else (x : option string) (fallback : string) : string :=
  match x with
  | Some s => if truthy s then s else fallback
  | None => fallback
  end.

(** the truthiness of an optional string: present and not empty *)
Definition opt_truthy (x : option string) : bool :=
  match x with Some s => truthy s | None => false end.

(** [x?.includes(sub)], as a condition: absent is false *)
Definition opt_includes (x : option string) (sub : string) : bool :=
  match x with Some s => str_includes s sub | None => false end.

(** [x === 'literal'] on an optional string *)
Definition opt_is (x : option string) (lit : string) : bool :=
  match x with Some s => String.eqb s lit | None => false end.

(** the values of log data *)
Inductive Value : Type :=
| VUndefined
| VNull
| VBool (b : bool)
| VNum (n : Z)
| VStr (s : string)
| VErr (e : option ErrorObj)
| VObj (fields : list Field)
with Field : Type :=
| field (key : string) (value : Value).

Definition VOptStr (x : option string) : Value :=
  match x with Some s => VStr s | None => VUndefined end.
End Js.

(** ** Dates as ISO-8601 strings

    The logger stamps an entry with [new Date().toISOString()] and later
    compares such strings with [>=].  An entry carries the instant (in
    milliseconds since the epoch) whose string it holds; this module says
    which instants have a string and how the strings of two instants
    compare. *)
Module JsDate.

(** a [Date] holds a time value within 8.64e15 ms of the epoch; beyond it
    the date is invalid and [toISOString] throws a [RangeError] *)
Definition MAX_TIME_VALUE : Z := 8640000000000000.
Definition is_valid (t : Z) : bool :=
  (- MAX_TIME_VALUE <=? t) && (t <=? MAX_TIME_VALUE).

Definition MS_PER_DAY : Z := 86400000.

(** the first instant of the year 0000 and the last instant of the year
    9999 *)
Definition YEAR_0000 : Z := -62167219200000.
Definition YEAR_9999_END : Z := 253402300799999.

(** the calendar year of an instant (UTC, proleptic Gregorian calendar):
    days are counted from 1 March 0000, in eras of 400 years *)
Definition year_of (t : Z) : Z :=
  let z := t / MS_PER_DAY + 719468 in
  let era := z / 146097 in
  let doe := z - era * 146097 in
  let yoe := (doe - doe / 1460 + doe / 36524 - doe / 146096) / 365 in
  let doy := doe - (365 * yoe + yoe / 4 - yoe / 100) in
  let mp := (5 * doy + 2) / 153 in
  yoe + era * 400 + (if mp <? 10 then 0 else 1).

(** [toISOString] writes [YYYY-MM-DDTHH:mm:ss.sssZ] for the years 0000 to
    9999, and a sign with six digits of the year's absolute value outside
    them: [+010000-01-01T00:00:00.000Z], [-000001-12-31T23:59:59.999Z].
    Strings compare by code unit, and ['+' < '-' < '0']: every string with
    a [+] is below every string with a [-], which is below every string that
    starts with a digit.  Among strings of one form the fields are of fixed
    width and run from the year down to the millisecond, so the later
    instant has the greater string, except that behind a [-] the year's
    digits grow as the years go back.  [iso_key t] is the form, the year's
    digits where they do not order as the instants, and the instant; the
    strings compare as their keys do, lexicographically. *)
Definition iso_key (t : Z) : Z * Z * Z :=
  if YEAR_9999_END <? t then (0, 0, t)
  else if t <? YEAR_0000 then (1, - year_of t, t)
  else (2, 0, t).

Definition key_leb (a b : Z * Z * Z) : bool :=
  let '(form1, year1, t1) := a in
  let '(form2, year2, t2) := b in
  (form1 <? form2)
  || ((form1 =? form2)
      && ((year1 <? year2) || ((year1 =? year2) && (t1 <=? t2)))).

(** [a >= b] on the ISO strings of the instants [a] and [b] *)
Definition iso_geb (a b : Z) : bool := key_leb (iso_key b) (iso_key a).
End JsDate.

(** ** The rest of the logger: queries, retention, helpers *)
Module LoggerApi.
Import Logger.

Section WithData.
Context {D : Type}.
Local Abbreviation M := (Eff.t (Event D) (State D)).

(** [new Date(t).toISOString()]: the string, as the instant it writes *)
Definition toISOString (t : Z) : M Z :=
  if JsDate.is_valid t then mret t
  else Eff.throw "RangeError: Invalid time value".

(** [getRecentLogs(minutes)] *)
Definition getRecentLogs (w : World) (minutes : Z) : M (list (LogEntry D)) :=
  cutoff ← toISOString (clock w - minutes * 60 * 1000);
  logs ← getStoredLogs w;
  mret (filter (λ e, JsDate.iso_geb (timestamp e) cutoff = true) logs).

Definition ONE_DAY : Z := 24 * 60 * 60 * 1000.

(** [cleanupOldLogs()] *)
Definition cleanupOldLogs (w : World) : M unit :=
  match window w with
  | None => mret tt
  | Some _ =>
      Eff.try_catch
        (logs ← getStoredLogs w;
         oneDayAgo ← toISOString (clock w - ONE_DAY);
         let recentLogs :=
           filter (λ e, JsDate.iso_geb (timestamp e) oneDayAgo = true) logs in
         if bool_decide (length recentLogs ≠ length logs)
         then setItem w recentLogs
         else mret tt)
        (λ err, Eff.emit (Warning "Failed to cleanup old logs:" err))
  end.

(** the constructor argument [Partial<LoggerConfig>] *)
Record PartialConfig : Type := mkPartial {
  p_level : option LogLevel;
  p_enableConsole : option bool;
  p_enableStorage : option bool;
  p_maxStorageEntries : option Z;
  p_enableRemoteLogging : option bool;
  p_remoteEndpoint : option string
}.

(** [{ level: INFO, enableConsole: true, enableStorage: true,
       maxStorageEntries: 1000, enableRemoteLogging: false, ...config }] *)
Definition merge_config (p : PartialConfig) : LoggerConfig :=
  {| level := default INFO (p_level p);
     enableConsole := default true (p_enableConsole p);
     enableStorage := default true (p_enableStorage p);
     maxStorageEntries := default 1000 (p_maxStorageEntries p);
     enableRemoteLogging := default false (p_enableRemoteLogging p);
     remoteEndpoint := p_remoteEndpoint p |}.

(** [generateSessionId()] *)
Definition generateSessionId (w : World) : string :=
  "session_" +:+ pretty (idClock w) +:+ "_" +:+ nonce w.

(** [new Logger(config)], in surroundings [w], over the [localStorage] item
    [item] found at that moment *)
Definition new_Logger (p : PartialConfig) (w : World)
    (item : option (list (LogEntry D))) : Eff.result (Event D) (State D) unit :=
  cleanupOldLogs w
    {| config := merge_config p; sessionId := generateSessionId w;
       app_logs := item |}.

(** [logUserAction(action, data)] *)
Definition logUserAction (w : World) (action : string) (d : option D) : M unit :=
  info w ("User action: " +:+ action) (Some "user") d.

(** [logError(error, context, data)] *)
Definition logError (w : World) (e : JsError) (ctx : option string)
    (d : option D) : M unit :=
  error w (err_message e) ctx d (Some e).
End WithData.


End LoggerApi.

(** ** Effects with error objects

    The services, the error handler and the mock-data helper throw and catch
    error objects, and each works on several module-level singletons at once.
    [Exc] is [Eff] with a thrown value of any type; [Exc.lift] runs a
    computation of one singleton inside the whole application. *)
Module Exc.
Inductive outcome (X A : Type) : Type :=
| Returned (a : A)
| Thrown (x : X).
Arguments Returned {X A} a.
Arguments Thrown {X A} x.

Record result (X E S A : Type) : Type := mkResult {
  out : outcome X A;
  final : S;
  trace : list E
}.
Arguments mkResult {X E S A} out final trace.
Arguments out {X E S A} r.
Arguments final {X E S A} r.
Arguments trace {X E S A} r.

Definition t (X E S A : Type) : Type := S → result X E S A.

Section Ops.
Context {X E S : Type}.

Definition ret {A} (a : A) : t X E S A := λ s, mkResult (Returned a) s [].

Definition bind {A B} (f : A → t X E S B) (m : t X E S A) : t X E S B := λ s,
  let r := m s in
  match out r with
  | Returned a =>
      let r' := f a (final r) in
      mkResult (out r') (final r') (trace r ++ trace r')
  | Thrown x => mkResult (Thrown x) (final r) (trace r)
  end.

Definition throw {A} (x : X) : t X E S A := λ s, mkResult (Thrown x) s [].
Definition emit (ev : E) : t X E S unit := λ s, mkResult (Returned tt) s [ev].
Definition read : t X E S S := λ s, mkResult (Returned s) s [].
Definition modify (f : S → S) : t X E S unit := λ s, mkResult (Returned tt) (f s) [].

(** [try { m } catch (x) { h x }] *)
Definition try_catch {A} (m : t X E S A) (h : X → t X E S A) : t X E S A := λ s,
  let r := m s in
  match out r with
  | Returned a => r
  | Thrown x =>
      let r' := h x (final r) in
      mkResult (out r') (final r') (trace r ++ trace r')
  end.

(** a computation of one component, run on its part [view s] of the state;
    its events are tagged by [inj], an error it throws becomes [as_error] *)
Definition lift {E' S' A} (view : S → S') (update : S' → S → S)
    (inj : E' → E) (as_error : string → X) (m : Eff.t E' S' A) : t X E S A := λ s,
  let r := m (view s) in
  mkResult
    (match Eff.out r with
     | Eff.Returned a => Returned a
     | Eff.Thrown err => Thrown (as_error err)
     end)
    (update (Eff.final r) s)
    (inj <$> Eff.trace r).
End Ops.

#[global] Instance exc_ret {X E S} : MRet (t X E S) := λ A, @ret X E S A.
#[global] Instance exc_bind {X E S} : MBind (t X E S) := λ A B, @bind X E S A B.
End Exc.

(** ** The application around the singletons

    The cache manager, the connection monitor, the health check and the
    logger are module-level singletons; the mock-data helper, the error
    handler, the system-status panel and the client service use several of
    them.  The application state holds the four; a component's operation is
    lifted with [Exc.lift]. *)
Module App.

(** [import.meta.env] as the code reads it *)
Record ImportMetaEnv : Type := mkEnv {
  VITE_SUPABASE_URL : option string;
  VITE_SUPABASE_ANON_KEY : option string;
  DEV : bool;
  PROD : bool
}.

(** the initial [defaultConfig] of [environment.ts] *)
Definition configFromEnv (env : ImportMetaEnv) : Environment.Config.EnvironmentConfig :=
  Environment.Config.mk
    (Js.or_else (VITE_SUPABASE_URL env) "")
    (Js.or_else (VITE_SUPABASE_ANON_KEY env) "")
    (DEV env) (PROD env) false 10000 (5 * 60 * 1000).

(** [shouldUseMockDataSync()] *)
Definition shouldUseMockDataSync (env : ImportMetaEnv) : bool :=
  let hasSupabaseConfig :=
    Js.opt_truthy (VITE_SUPABASE_URL env)
    && Js.opt_truthy (VITE_SUPABASE_ANON_KEY env) in
  DEV env && negb hasSupabaseConfig.

Section WithClient.
(** the type of a client row, and the fixture [mockClients] *)
Context {Client : Type}.
Variable mockClients : list Client.

Record State : Type := mkState {
  cache : Cache.store (list Client);
  env : Environment.State;
  health : Health.State;
  logger : Logger.State Js.Value
}.

Inductive Event : Type :=
| EnvEv (e : Environment.Event)
| HealthEv (e : Health.Event)
| LogEv (e : Logger.Event Js.Value)
| Sleep (ms : Z)                                  (* [simulateApiDelay] *)
| ConsoleWarn (msg : string) (err : option Js.ErrorObj)
| ToastError (msg : string)
| SetTimeoutRefresh (ms : Z)                      (* [setTimeout(() => refresh(), ms)] *)
| Select (table : string).                        (* a query to the data service *)

Local Abbreviation M := (Exc.t Js.ErrorObj Event State).

Definition as_error (msg : string) : Js.ErrorObj := Js.new_Error msg None.

Definition in_env {A} (m : Eff.t Environment.Event Environment.State A) : M A :=
  Exc.lift env (λ e s, mkState (cache s) e (health s) (logger s)) EnvEv as_error m.
Definition in_health {A} (m : Eff.t Health.Event Health.State A) : M A :=
  Exc.lift health (λ h s, mkState (cache s) (env s) h (logger s)) HealthEv as_error m.
Definition in_logger {A}
    (m : Eff.t (Logger.Event Js.Value) (Logger.State Js.Value) A) : M A :=
  Exc.lift logger (λ l s, mkState (cache s) (env s) (health s) l) LogEv as_error m.

(** [cacheManager.get(key)] and [cacheManager.set(key, data)] at clock [now] *)
Definition cache_get (key : Cache.CacheKey) (now : Z) : M (option (list Client)) :=
  s ← Exc.read;
  Exc.modify (λ s, mkState (Cache.get key now (cache s)).2 (env s) (health s) (logger s)) ;;
  mret (Cache.get key now (cache s)).1.
Definition cache_set (key : Cache.CacheKey) (d : list Client) (now : Z) : M unit :=
  Exc.modify (λ s, mkState (Cache.set_default key d now (cache s))
                           (env s) (health s) (logger s)).

(** *** mockData.ts *)

(** [simulateApiDelay(ms)] *)
Definition simulateApiDelay (ms : Z) : M unit := Exc.emit (Sleep ms).

(** [shouldUseMockData()], the wrapper of the configuration's function *)
Definition shouldUseMockData (now : Z) (net : Environment.FetchResult) : M bool :=
  in_env (Environment.shouldUseMockData now net).

(** the application state once [shouldUseMockData] has decided *)
Definition decided (now : Z) (net : Environment.FetchResult) (s : State) : State :=
  mkState (cache s)
          (Eff.final (Environment.shouldUseMockData now net (env s)))
          (health s) (logger s).

(** [getMockDataIfNeeded(mockData, realDataFetcher)] *)
Definition getMockDataIfNeeded {T} (now : Z) (net : Environment.FetchResult)
    (mockData : T) (realDataFetcher : M T) : M T :=
  useMock ← shouldUseMockData now net;
  if useMock : bool then
    simulateApiDelay 200 ;;
    mret mockData
  else
    Exc.try_catch realDataFetcher
      (λ error,
         Exc.emit (ConsoleWarn "Real data fetch failed, falling back to mock data:"
                               (Some error)) ;;
         simulateApiDelay 100 ;;
         mret mockData).

(** *** healthCheck: [resetHealthCheck()] *)
Definition resetHealthCheck : M unit :=
  Exc.modify (λ s, mkState (cache s) (env s) (Health.mkState None false) (logger s)) ;;
  in_env Environment.resetConnectionStatus.

(** *** SystemStatus.tsx *)

(** [handleToggleMockData()] *)
Definition handleToggleMockData : M unit :=
  connectionStatus ← in_env Environment.getConnectionStatus;
  let shouldEnable :=
    bool_decide (connectionStatus.1.1 ≠ Environment.connected) in
  in_env (Environment.enableMockData shouldEnable) ;;
  in_env Environment.resetConnectionStatus ;;
  Exc.emit (SetTimeoutRefresh 100).

(** [handleRetryConnection()]; [refresh] is [checkSystemHealth(true)], which
    is not awaited: the handler ends where that call first suspends *)
Definition handleRetryConnection (w : Health.World) : M Health.Phase :=
  in_env Environment.resetConnectionStatus ;;
  in_health (Health.start true w).

(** *** errorHandler.ts *)


(** [handleReadError(error, operation, fallbackValue)]; [None] is [null] *)
Definition handleReadError {T} (lw : Logger.World) (error : option Js.ErrorObj)
    (operation : string) (fallbackValue : option T) : M (option T) :=
  (if Js.opt_is (error ≫= Js.code) "PGRST116" then
     in_logger (Logger.debug lw ("Record not found in " +:+ operation)
       (Some "database")
       (Some (Js.VObj [Js.field "operation" (Js.VStr operation);
                       Js.field "code" (Js.VOptStr (error ≫= Js.code));
                       Js.field "message" (Js.VOptStr (error ≫= Js.message))])))
   else
     in_logger (Logger.warn lw ("Read operation failed: " +:+ operation)
       (Some "database")
       (Some (Js.VObj [Js.field "operation" (Js.VStr operation);
                       Js.field "error" (Js.VErr error);
                       Js.field "fallbackUsed"
                         (Js.VBool (bool_decide (is_Some fallbackValue)))])))) ;;
  mret fallbackValue.


(** [logPerformanceIssue(operation, duration, threshold)] *)
Definition logPerformanceIssue (lw : Logger.World) (operation : string)
    (duration threshold : Z) : M unit :=
  if threshold <? duration then
    in_logger (Logger.warn lw ("Performance issue detected: " +:+ operation)
      (Some "performance")
      (Some (Js.VObj [Js.field "operation" (Js.VStr operation);
                      Js.field "duration" (Js.VStr (pretty duration +:+ "ms"));
                      Js.field "threshold" (Js.VStr (pretty threshold +:+ "ms"));
                      Js.field "slowBy"
                        (Js.VStr (pretty (duration - threshold) +:+ "ms"))])))
  else mret tt.

(** [getRecentErrors(minutes)] and [clearErrorLogs()] *)
Definition getRecentErrors (lw : Logger.World) (minutes : Z)
    : M (list (Logger.LogEntry Js.Value)) :=
  logs ← in_logger (LoggerApi.getRecentLogs lw minutes);
  mret (filter (λ e, Logger.levelNum Logger.ERROR
                       ≤ Logger.levelNum (Logger.entry_level e)) logs).
Definition clearErrorLogs (lw : Logger.World) : M unit :=
  in_logger (Logger.clearStoredLogs lw).

(** *** clientService *)

(** [isTableMissingError(error)].  The last test calls [includes] on
    [error.details]: a text answers, a missing one is skipped, and an object
    in that place has no such method, which throws a [TypeError]. *)
Definition isTableMissingError (error : Js.ErrorObj) : M bool :=
  if Js.opt_is (Js.code error) "PGRST116" then mret true
  else if Js.opt_includes (Js.message error) "relation"
          && Js.opt_includes (Js.message error) "does not exist" then mret true
  else if Js.opt_is (Js.code error) "42P01" then mret true
  else match Js.details error with
       | Js.NoDetails => mret false
       | Js.TextDetails text => mret (str_includes text "does not exist")
       | Js.CauseDetails _ =>
           Exc.throw (Js.mkErrorObj (Some "TypeError") None
                        (Some "error.details.includes is not a function")
                        Js.NoDetails None true)
       end.

(** what the data service answers to [from('clients').select('*')] *)
Inductive QueryAnswer : Type :=
| QData (data : option (list Client))     (* [{ data, error: null }] *)
| QError (error : Js.ErrorObj)            (* [{ error }] *)
| QThrows (error : Js.ErrorObj).

(** what a call of [getAll] meets *)
Record GetAllWorld : Type := mkGetAllWorld {
  t_get : Z;                       (* the clock when the cache is read *)
  t_check : Z;                     (* the clock of the availability check *)
  net : Environment.FetchResult;   (* the answer to the availability request *)
  answer : QueryAnswer;            (* the answer to the query *)
  t_set : Z;                       (* the clock when the cache is written *)
  log_world : Logger.World
}.

(** the fetcher handed to [getMockDataIfNeeded] *)
Definition fetchClients (w : GetAllWorld) : M (list Client) :=
  Exc.emit (Select "clients") ;;
  match answer w with
  | QThrows error => Exc.throw error
  | QError error =>
      missing ← isTableMissingError error;
      if missing : bool then
        Exc.emit (ConsoleWarn "Clients table not configured yet. Using mock data."
                              None) ;;
        Exc.throw (Js.new_Error "Table not configured" None)
      else Exc.throw error
  | QData data => mret (default [] data)
  end.

(** [clientService.getAll()]; [None] is a [null] result *)
Definition getAll (w : GetAllWorld) : M (option (list Client)) :=
  Exc.try_catch
    (cachedClients ← cache_get Cache.clients (t_get w);
     match cachedClients with
     | Some cached => mret (Some cached)
     | None =>
         clients ← getMockDataIfNeeded (t_check w) (net w) mockClients
                     (fetchClients w);
         cache_set Cache.clients clients (t_set w) ;;
         mret (Some clients)
     end)
    (λ error,
       Exc.emit (ConsoleWarn "Client service error:" (Some error)) ;;
       handleReadError (log_world w) (Some error) "fetch clients"
                       (Some mockClients)).
(** *** Observations on application runs *)

(** an event that delivers a log entry to the remote endpoint *)
Definition is_remote (ev : Event) : bool :=
  match ev with LogEv e => Logger.is_post e | _ => false end.

(** the application with another logger state *)
Definition with_logger (l : Logger.State Js.Value) (s : State) : State :=
  mkState (cache s) (env s) (health s) l.

(** *** The status panel, task by task

    The handlers of the panel are synchronous; the decisions of the data
    hooks and the health checks are [async] and suspend at their [await]s.
    A session is the application state together with the calls that are
    suspended; a task is one handler, or the start of one [async] call, or
    the resumption of a suspended one.  Tasks run one at a time, in any
    order. *)
Inductive Suspended : Type :=
| Probing (now : Z)            (* [isSupabaseAvailable] at [await fetch];
                                  [now] is the clock it read on entry *)
| Sleeping (w : Health.World)  (* [checkSystemHealth] in its 100 ms wait *)
| Querying (w : Health.World). (* [checkSystemHealth] on the probe query *)

Record Session : Type := mkSession {
  app : State;
  suspended : list Suspended
}.

Inductive Task : Type :=
| Toggle                                     (* [handleToggleMockData] *)
| Retry (w : Health.World)                   (* [handleRetryConnection] *)
| ResetHealth                                (* [resetHealthCheck] *)
| Decide (now : Z)                           (* a call of [shouldUseMockData] *)
| Check (forceRefresh : bool) (w : Health.World)
                                             (* a call of [checkSystemHealth] *)
| Resume (i : nat) (net : Environment.FetchResult).
    (* the [i]-th suspended call goes on; [net] is the answer to its
       request, if it is an availability check *)

(** the call a health check leaves suspended *)
Definition health_suspends {X} (w : Health.World)
    (out : Exc.outcome X Health.Phase) : list Suspended :=
  match out with
  | Exc.Returned Health.Waits => [Sleeping w]
  | Exc.Returned Health.Queries => [Querying w]
  | _ => []
  end.

Definition task_step (ss : Session) (task : Task) : Session :=
  let s := app ss in
  match task with
  | Toggle => mkSession (Exc.final (handleToggleMockData s)) (suspended ss)
  | Retry w =>
      let r := handleRetryConnection w s in
      mkSession (Exc.final r) (suspended ss ++ health_suspends w (Exc.out r))
  | ResetHealth => mkSession (Exc.final (resetHealthCheck s)) (suspended ss)
  | Decide now =>
      let r := in_env (Environment.begin_decision now) s in
      mkSession (Exc.final r)
        (suspended ss ++ match Exc.out r with
                         | Exc.Returned None => [Probing now]
                         | _ => []
                         end)
  | Check forceRefresh w =>
      let r := in_health (Health.start forceRefresh w) s in
      mkSession (Exc.final r) (suspended ss ++ health_suspends w (Exc.out r))
  | Resume i net =>
      match suspended ss !! i with
      | Some (Probing now) =>
          mkSession (Exc.final (in_env (Environment.resume_check now net) s))
                    (delete i (suspended ss))
      | Some (Sleeping w) =>
          let r := in_health Health.wake s in
          mkSession (Exc.final r)
            (delete i (suspended ss) ++ health_suspends w (Exc.out r))
      | Some (Querying w) =>
          mkSession (Exc.final (in_health (Health.settle w) s))
                    (delete i (suspended ss))
      | None => ss
      end
  end.

Definition run_tasks (tasks : list Task) (ss : Session) : Session :=
  foldl task_step ss tasks.

(** a suspended availability check *)
Definition is_probing (c : Suspended) : bool :=
  match c with Probing _ => true | _ => false end.

(** mock data is forced *)
Definition forced (s : State) : bool :=
  Environment.Config.enableMockData (Environment.defaultConfig (env s)).

(** the connection status the panel reads *)
Definition status_of (s : State) : Environment.ConnectionStatus :=
  Environment.supabaseConnectionStatus (env s).
End WithClient.
Arguments State : clear implicits.
Arguments Session : clear implicits.
Arguments QueryAnswer : clear implicits.
Arguments GetAllWorld : clear implicits.
End App.

(** * The model on concrete inputs *)

Example slice0_cuts : slice0 2 [1; 2; 3] = [1; 2].
Proof. reflexivity. Qed.

Example slice0_short : slice0 5 [1; 2; 3] = [1; 2; 3].
Proof. reflexivity. Qed.

Example slice0_negative : slice0 (-1) [1; 2; 3] = [1; 2].
Proof. reflexivity. Qed.

Example str_includes_relation :
  str_includes "relation public.clients does not exist" "does not exist" = true.
Proof. reflexivity. Qed.

Example str_includes_other : str_includes "permission denied" "relation" = false.
Proof. reflexivity. Qed.

(** [Map.set] on a bound key keeps the key where it was *)
Example jsmap_set_keeps_position :
  JsMap.keys (JsMap.set 1%nat "b" (JsMap.set 2%nat "c" (JsMap.set 1%nat "a" JsMap.empty)))
  = [1%nat; 2%nat].
Proof. reflexivity. Qed.

Example deriveOverall_mixed :
  Health.deriveOverall
    [Health.mkHealthStatus "a" Health.healthy 0 None None;
     Health.mkHealthStatus "b" Health.unhealthy 0 None None;
     Health.mkHealthStatus "c" Health.degraded 0 None None]
  = Health.unhealthy.
Proof. reflexivity. Qed.

(** the data-service probe while the schema is missing *)
Example checkSupabaseHealth_missing_table :
  Eff.out (Health.checkSupabaseHealth
             (Health.mkWorld 1000 1000 1040 1041
                (Health.QueryError "relation public.clients does not exist") id)
             Health.initial)
  = Eff.Returned
      (Health.mkHealthStatus "supabase" Health.degraded 1041
         (Some "Database tables not configured") (Some 40)).
Proof. reflexivity. Qed.

(** the probe when the client throws [null]: the [catch] block throws *)
Example checkSupabaseHealth_null_rejection :
  Eff.out (Health.checkSupabaseHealth
             (Health.mkWorld 1000 1000 1040 1041
                (Health.QueryThrows Health.ThrownNull) id)
             Health.initial)
  = Eff.Thrown "TypeError: Cannot read properties of null (reading 'message')".
Proof. reflexivity. Qed.

(** calendar years: the epoch, the ends of the four-digit years, and the
    ends of the range of [Date] *)
Example year_of_epoch : JsDate.year_of 0 = 1970.
Proof. reflexivity. Qed.

Example year_of_0000 :
  JsDate.year_of JsDate.YEAR_0000 = 0 ∧
  JsDate.year_of (JsDate.YEAR_0000 - 1) = -1.
Proof. split; reflexivity. Qed.

Example year_of_9999 :
  JsDate.year_of JsDate.YEAR_9999_END = 9999 ∧
  JsDate.year_of (JsDate.YEAR_9999_END + 1) = 10000.
Proof. split; reflexivity. Qed.

Example year_of_range :
  JsDate.year_of JsDate.MAX_TIME_VALUE = 275760 ∧
  JsDate.year_of (- JsDate.MAX_TIME_VALUE) = -271821.
Proof. split; reflexivity. Qed.

(** ["2024-01-23T08:53:20.000Z" >= "1970-01-01T00:00:00.000Z"], but
    ["+010000-01-01T00:00:00.000Z" < "2024-01-23T08:53:20.000Z"] *)
Example iso_geb_four_digits :
  JsDate.iso_geb 1706000000000 0 = true ∧
  JsDate.iso_geb 253402300800000 1706000000000 = false.
Proof. split; reflexivity. Qed.

(** ["-000001-12-31T23:59:59.999Z" < "0000-01-01T00:00:00.000Z"], and
    ["-000002-12-31T23:59:59.999Z" >= "-000001-12-31T23:59:59.999Z"] *)
Example iso_geb_negative_years :
  JsDate.iso_geb (JsDate.YEAR_0000 - 1) JsDate.YEAR_0000 = false ∧
  JsDate.iso_geb (JsDate.YEAR_0000 - 1 - 365 * JsDate.MS_PER_DAY)
                 (JsDate.YEAR_0000 - 1) = true.
Proof. split; reflexivity. Qed.

(** [getRecentLogs(-5000000000)]: the cutoff lies beyond the year 9999, its
    string starts with [+], and an entry of 1970 passes the filter *)
Example getRecentLogs_cutoff_after_9999 :
  let e := Logger.mkLogEntry (1000, "x") 1000 Logger.INFO "m" None
             (None : option Z) None None None in
  let w := Logger.mkWorld 1706000000000 1706000000000 "abc"
             (Some (Logger.mkWindow "agent" "http://localhost/")) false false in
  Eff.out (LoggerApi.getRecentLogs w (-5000000000)
             (Logger.mkState (Logger.mkConfig Logger.INFO true true 1000 false None)
                             "s" (Some [e])))
  = Eff.Returned [e].
Proof. reflexivity. Qed.

(** * Properties of the cache manager *)

Section JsMapFacts.
Context {K V : Type} `{EqDecision K}.
Implicit Types (m : JsMap.t K V) (k : K) (v : V).

Lemma jsmap_get_set_eq k v m : JsMap.get k (JsMap.set k v m) = Some v.
Proof.
  induction m as [|[k' v'] m IH]; simpl.
  - by rewrite decide_True.
  - destruct (decide (k' = k)) as [->|Hne]; simpl.
    + by rewrite decide_True.
    + by rewrite decide_False.
Qed.

Lemma jsmap_get_set_ne k k' v m :
  k ≠ k' → JsMap.get k' (JsMap.set k v m) = JsMap.get k' m.
Proof.
  intros Hne. induction m as [|[k0 v0] m IH]; simpl.
  - by rewrite decide_False.
  - destruct (decide (k0 = k)) as [->|Hne0]; simpl.
    + by rewrite !decide_False.
    + destruct (decide (k0 = k')); [done | apply IH].
Qed.

Lemma jsmap_get_filter (P : K * V → Prop) `{∀ p, Decision (P p)} k m :
  (∀ v, P (k, v)) → JsMap.get k (filter P m) = JsMap.get k m.
Proof.
  intros HP. induction m as [|[k' v'] m IH]; [done|].
  rewrite filter_cons. simpl. destruct (decide (P (k', v'))) as [|Hn]; simpl.
  - by rewrite IH.
  - rewrite IH. destruct (decide (k' = k)) as [->|]; [|done].
    by destruct Hn.
Qed.

Lemma jsmap_get_filter_none (P : K * V → Prop) `{∀ p, Decision (P p)} k m :
  (∀ v, ¬ P (k, v)) → JsMap.get k (filter P m) = None.
Proof.
  intros HP. induction m as [|[k' v'] m IH]; [done|].
  rewrite filter_cons. destruct (decide (P (k', v'))) as [Hp|]; simpl; [|done].
  destruct (decide (k' = k)) as [->|]; [|done]. by destruct (HP v').
Qed.

Lemma jsmap_get_delete_eq k m : JsMap.get k (JsMap.delete k m) = None.
Proof. apply jsmap_get_filter_none. simpl. intros _ Hk. by apply Hk. Qed.

Lemma jsmap_get_delete_ne k k' m :
  k ≠ k' → JsMap.get k' (JsMap.delete k m) = JsMap.get k' m.
Proof. intros Hne. apply jsmap_get_filter. simpl. by intros _ ->. Qed.

Lemma jsmap_get_Some_elem k v m : JsMap.get k m = Some v → (k, v) ∈ m.
Proof.
  induction m as [|[k' v'] m IH]; simpl; [done|].
  destruct (decide (k' = k)) as [->|].
  - intros [= ->]. left.
  - intros Hg. right. by apply IH.
Qed.

Lemma jsmap_get_None_keys k m : JsMap.get k m = None ↔ k ∉ JsMap.keys m.
Proof.
  unfold JsMap.keys. induction m as [|[k' v'] m IH]; simpl.
  - split; [intros _; apply not_elem_of_nil | done].
  - rewrite not_elem_of_cons. destruct (decide (k' = k)) as [->|Hne].
    + split; [done | by intros [? _]].
    + rewrite IH. split; [by intros ? | by intros [_ ?]].
Qed.

Lemma jsmap_elem_get k v m : JsMap.wf m → (k, v) ∈ m → JsMap.get k m = Some v.
Proof.
  unfold JsMap.wf, JsMap.keys.
  induction m as [|[k' v'] m IH]; simpl; intros Hnd Hin.
  - by apply elem_of_nil in Hin.
  - apply NoDup_cons in Hnd as [Hfresh Hnd].
    apply elem_of_cons in Hin as [[= <- <-]|Hin].
    + by rewrite decide_True.
    + destruct (decide (k' = k)) as [->|]; [|by apply IH].
      destruct Hfresh. apply list_elem_of_fmap. by exists (k, v).
Qed.

Lemma jsmap_keys_set k v m :
  JsMap.keys (JsMap.set k v m) =
  if decide (k ∈ JsMap.keys m) then JsMap.keys m else JsMap.keys m ++ [k].
Proof.
  unfold JsMap.keys. induction m as [|[k' v'] m IH].
  - cbn [JsMap.set fmap list_fmap]. case_decide as Hin; [|done].
    by apply elem_of_nil in Hin.
  - cbn [JsMap.set]. destruct (decide (k' = k)) as [->|Hne].
    + rewrite !fmap_cons. cbn [fst]. rewrite decide_True; [done | left].
    + rewrite !fmap_cons. cbn [fst]. rewrite IH.
      destruct (decide (k ∈ m.*1)) as [Hin|Hnin].
      * rewrite decide_True; [done | by right].
      * rewrite decide_False; [done|].
        rewrite not_elem_of_cons. split; [congruence | done].
Qed.

Lemma jsmap_wf_empty : JsMap.wf (JsMap.empty : JsMap.t K V).
Proof. apply NoDup_nil_2. Qed.

Lemma jsmap_wf_set k v m : JsMap.wf m → JsMap.wf (JsMap.set k v m).
Proof.
  unfold JsMap.wf. rewrite jsmap_keys_set. intros Hnd.
  destruct (decide (k ∈ JsMap.keys m)); [done|].
  apply NoDup_app. split_and!; [done | | apply NoDup_singleton].
  intros x Hx ->%list_elem_of_singleton. done.
Qed.

Lemma jsmap_wf_filter (P : K * V → Prop) `{∀ p, Decision (P p)} m :
  JsMap.wf m → JsMap.wf (filter P m).
Proof.
  unfold JsMap.wf, JsMap.keys. induction m as [|[k v] m IH]; [done|].
  rewrite filter_cons. simpl. intros [Hfresh Hnd]%NoDup_cons.
  destruct (decide (P (k, v))); [|by apply IH].
  simpl. apply NoDup_cons. split; [|by apply IH].
  intros ([k' v'] & Hk & Hin)%list_elem_of_fmap. simpl in Hk. subst k'.
  apply list_elem_of_filter in Hin as [_ Hin].
  apply Hfresh, list_elem_of_fmap. by exists (k, v').
Qed.

Lemma jsmap_wf_delete k m : JsMap.wf m → JsMap.wf (JsMap.delete k m).
Proof. apply jsmap_wf_filter. Qed.

Lemma filter_all {A} (P : A → Prop) `{∀ x, Decision (P x)} (l : list A) :
  (∀ x, x ∈ l → P x) → filter P l = l.
Proof.
  induction l as [|x l IH]; intros HP; [done|].
  rewrite filter_cons_True by (apply HP; left).
  f_equal. apply IH. intros y Hy. apply HP. by right.
Qed.

(** Deleting a list of keys one after the other keeps exactly the bindings
    whose key is not in the list. *)
Lemma jsmap_foldl_delete (ks : list K) m :
  foldl (λ c k, JsMap.delete k c) m ks = filter (λ p, p.1 ∉ ks) m.
Proof.
  revert m. induction ks as [|k ks IH]; intros m; simpl.
  - symmetry. apply filter_all. intros p _. apply not_elem_of_nil.
  - rewrite IH. unfold JsMap.delete. rewrite list_filter_filter.
    apply list_filter_iff. intros p. rewrite not_elem_of_cons. tauto.
Qed.

Lemma filter_ext_elem {A} (P Q : A → Prop)
    `{∀ x, Decision (P x)} `{∀ x, Decision (Q x)} (l : list A) :
  (∀ x, x ∈ l → P x ↔ Q x) → filter P l = filter Q l.
Proof.
  induction l as [|x l IH]; intros HPQ; [done|].
  rewrite !filter_cons.
  rewrite IH by (intros y Hy; apply HPQ; by right).
  apply decide_ext, HPQ. left.
Qed.

(** The loop of [invalidate] and of [cleanup]: collect the keys of the
    bindings that satisfy a test, then delete those keys.  On a store
    without duplicate keys this removes exactly the bindings that satisfy
    the test. *)
Lemma jsmap_delete_matching (Q : K * V → Prop) `{∀ p, Decision (Q p)} m :
  JsMap.wf m →
  foldl (λ c k, JsMap.delete k c) m (filter Q (JsMap.entries m)).*1
  = filter (λ p, ¬ Q p) m.
Proof.
  intros Hwf. rewrite jsmap_foldl_delete. unfold JsMap.entries.
  apply filter_ext_elem. intros [k v] Hin. simpl. split.
  - intros Hnk HQ. apply Hnk, list_elem_of_fmap. exists (k, v).
    split; [done|]. by apply list_elem_of_filter.
  - intros HnQ ([k' v'] & Hk & Hin')%list_elem_of_fmap. simpl in Hk. subst k'.
    apply list_elem_of_filter in Hin' as [HQ Hin'].
    apply (jsmap_elem_get _ _ _ Hwf) in Hin, Hin'. congruence.
Qed.

Lemma jsmap_get_filter_None (P : K * V → Prop) `{∀ p, Decision (P p)} k m :
  JsMap.get k m = None → JsMap.get k (filter P m) = None.
Proof.
  induction m as [|[k' v'] m IH]; [done|].
  rewrite filter_cons. simpl. destruct (decide (k' = k)) as [->|Hne]; [done|].
  intros Hg. destruct (decide (P (k', v'))); simpl; [|by apply IH].
  rewrite decide_False by done. by apply IH.
Qed.

(** Lookup in a filtered store. *)
Lemma jsmap_get_filter_wf (P : K * V → Prop) `{∀ p, Decision (P p)} k m :
  JsMap.wf m →
  JsMap.get k (filter P m) =
  match JsMap.get k m with
  | Some v => if decide (P (k, v)) then Some v else None
  | None => None
  end.
Proof.
  unfold JsMap.wf, JsMap.keys.
  induction m as [|[k' v'] m IH]; [done|].
  rewrite fmap_cons. intros [Hfresh Hnd]%NoDup_cons. simpl in Hfresh.
  rewrite filter_cons. cbn [JsMap.get].
  destruct (decide (k' = k)) as [->|Hne].
  - destruct (decide (P (k, v'))); simpl.
    + by rewrite decide_True.
    + apply jsmap_get_filter_None. by apply jsmap_get_None_keys.
  - destruct (decide (P (k', v'))); simpl.
    + rewrite decide_False by done. by apply IH.
    + by apply IH.
Qed.
End JsMapFacts.

Section CacheFacts.
Context {T : Type}.
Implicit Types (cache : Cache.store T) (k key : Cache.CacheKey)
  (e : Cache.CacheEntry T).

Lemma includes_true deps key : Cache.includes deps key = true ↔ key ∈ deps.
Proof. unfold Cache.includes. apply bool_decide_eq_true. Qed.

Lemma wf_set key d deps ttl now cache :
  JsMap.wf cache → JsMap.wf (Cache.set key d deps ttl now cache).
Proof. apply jsmap_wf_set. Qed.

Lemma wf_run_sets calls cache :
  JsMap.wf cache → JsMap.wf (Cache.run_sets calls cache).
Proof.
  revert cache. induction calls as [|c calls IH]; intros cache Hwf; [done|].
  simpl. by apply IH, wf_set.
Qed.

(** [invalidate] as one filter over the store *)
Lemma invalidate_filter key cache :
  JsMap.wf cache →
  Cache.invalidate key cache
  = filter (λ p, p.1 ≠ key ∧ key ∉ Cache.dependencies p.2) cache.
Proof.
  intros Hwf. unfold Cache.invalidate.
  rewrite (jsmap_delete_matching
             (λ p, Cache.includes (Cache.dependencies p.2) key = true))
    by by apply jsmap_wf_delete.
  unfold JsMap.delete. rewrite list_filter_filter.
  apply list_filter_iff. intros [k e]. simpl. rewrite includes_true. tauto.
Qed.

Lemma wf_invalidate key cache :
  JsMap.wf cache → JsMap.wf (Cache.invalidate key cache).
Proof. intros Hwf. rewrite invalidate_filter by done. by apply jsmap_wf_filter. Qed.

Lemma invalidate_lookup key k cache :
  JsMap.wf cache →
  JsMap.get k (Cache.invalidate key cache) =
  match JsMap.get k cache with
  | Some e =>
      if decide (k ≠ key ∧ key ∉ Cache.dependencies e) then Some e else None
  | None => None
  end.
Proof.
  intros Hwf. rewrite invalidate_filter by done.
  by rewrite jsmap_get_filter_wf.
Qed.

(** [cleanup] as one filter over the store *)
Lemma cleanup_filter now cache :
  JsMap.wf cache →
  Cache.cleanup now cache = filter (λ p, now ≤ Cache.timestamp p.2) cache.
Proof.
  intros Hwf. unfold Cache.cleanup.
  rewrite (jsmap_delete_matching (λ p, now > Cache.timestamp p.2)) by done.
  apply list_filter_iff. intros [k e]. simpl. lia.
Qed.

Lemma wf_cleanup now cache : JsMap.wf cache → JsMap.wf (Cache.cleanup now cache).
Proof. intros Hwf. rewrite cleanup_filter by done. by apply jsmap_wf_filter. Qed.

Lemma wf_get key now cache :
  JsMap.wf cache → JsMap.wf (Cache.get key now cache).2.
Proof.
  intros Hwf. unfold Cache.get.
  destruct (JsMap.get key cache) as [e|]; [|done].
  destruct (now >? Cache.timestamp e); [by apply jsmap_wf_delete | done].
Qed.

Lemma get_absent key now cache :
  JsMap.get key cache = None → Cache.get key now cache = (None, cache).
Proof. unfold Cache.get. by intros ->. Qed.

Lemma get_live key now cache e :
  JsMap.get key cache = Some e → now ≤ Cache.timestamp e →
  Cache.get key now cache = (Some (Cache.data e), cache).
Proof.
  unfold Cache.get. intros -> Hle.
  destruct (Z.gtb_spec now (Cache.timestamp e)); [lia | done].
Qed.

Lemma get_expired key now cache e :
  JsMap.get key cache = Some e → Cache.timestamp e < now →
  Cache.get key now cache = (None, JsMap.delete key cache).
Proof.
  unfold Cache.get. intros -> Hlt.
  destruct (Z.gtb_spec now (Cache.timestamp e)); [done | lia].
Qed.
End CacheFacts.

Section CacheProperties.
Context {T : Type}.
Implicit Types (cache : Cache.store T) (k key : Cache.CacheKey)
  (e : Cache.CacheEntry T).

(** C1. Dependency invalidation is one level deep: after
    [set(A, a, [])], [set(B, b, [A])], [set(C, c, [B])] on distinct keys,
    [invalidate(A)] leaves A and B absent ([get] returns null for both, at
    any time), while [get(C)] still returns [c] as long as C's entry has not
    expired.  None of the three reads changes the store. *)
Theorem invalidation_is_one_level
    (A B C : Cache.CacheKey) (a b c : T)
    (ttlA ttlB ttlC tA tB tC : Z) (nowA nowB nowC : Z) cache0 :
  JsMap.wf cache0 →
  A ≠ B → B ≠ C → A ≠ C →
  nowC ≤ tC + ttlC →
  let built :=
    Cache.set C c [B] ttlC tC
      (Cache.set B b [A] ttlB tB (Cache.set A a [] ttlA tA cache0)) in
  let after := Cache.invalidate A built in
  Cache.get A nowA after = (None, after) ∧
  Cache.get B nowB after = (None, after) ∧
  Cache.get C nowC after = (Some c, after).
Proof.
  intros Hwf HAB HBC HAC Hlive built after.
  assert (Hwfb : JsMap.wf built) by by do 3 apply wf_set.
  assert (HgB : JsMap.get B built
                = Some (Cache.mkEntry b (tB + ttlB) [A])).
  { unfold built, Cache.set. rewrite jsmap_get_set_ne by done.
    apply jsmap_get_set_eq. }
  assert (HgC : JsMap.get C built
                = Some (Cache.mkEntry c (tC + ttlC) [B])).
  { unfold built, Cache.set. apply jsmap_get_set_eq. }
  split_and!.
  - apply get_absent. unfold after. rewrite invalidate_lookup by done.
    destruct (JsMap.get A built); [|done].
    rewrite decide_False; [done | by intros [? _]].
  - apply get_absent. unfold after. rewrite invalidate_lookup, HgB by done.
    rewrite decide_False; [done|]. simpl. intros [_ Hn]. apply Hn. left.
  - apply (get_live _ _ _ (Cache.mkEntry c (tC + ttlC) [B])); [|done].
    unfold after. rewrite invalidate_lookup, HgC by done.
    rewrite decide_True; [done|]. simpl. split; [done|].
    by intros ->%list_elem_of_singleton.
Qed.

(** C3. Cache TTL round trip: after [set(k, v, [], ttl)] with [ttl > 0],
    a [get(k)] at the same instant returns [v] (and [has(k)] is true);
    once the clock is strictly past the set time plus [ttl], [get(k)]
    returns null, evicts the entry, and any later [has(k)] is false. *)
Theorem cache_ttl_round_trip k (v : T) (ttl t : Z) cache0 :
  0 < ttl →
  let cache := Cache.set k v [] ttl t cache0 in
  Cache.get k t cache = (Some v, cache) ∧
  Cache.has k t cache = true ∧
  ∀ t', t + ttl < t' →
    Cache.get k t' cache = (None, JsMap.delete k cache) ∧
    ∀ t'', Cache.has k t'' (Cache.get k t' cache).2 = false.
Proof.
  intros Httl cache.
  assert (Hg : JsMap.get k cache = Some (Cache.mkEntry v (t + ttl) [])).
  { apply jsmap_get_set_eq. }
  split_and!.
  - apply (get_live _ _ _ _ Hg). simpl. lia.
  - unfold Cache.has. rewrite Hg. simpl. apply Z.leb_le. lia.
  - intros t' Hpast.
    assert (He : Cache.get k t' cache = (None, JsMap.delete k cache))
      by by apply (get_expired _ _ _ _ Hg).
    split; [done|]. intros t''. rewrite He. simpl.
    unfold Cache.has. by rewrite jsmap_get_delete_eq.
Qed.

(** C10. Invalidating an absent key still cascades: when no entry is stored
    under [k], [invalidate(k)] removes every entry whose dependency list
    contains [k] and leaves every other entry as it was, in the same order. *)
Theorem invalidate_absent_key_cascades k cache :
  JsMap.wf cache →
  JsMap.get k cache = None →
  let cache' := Cache.invalidate k cache in
  (∀ k' e, JsMap.get k' cache = Some e → k ∈ Cache.dependencies e →
           JsMap.get k' cache' = None) ∧
  (∀ k' e, JsMap.get k' cache = Some e → k ∉ Cache.dependencies e →
           JsMap.get k' cache' = Some e) ∧
  (∀ k', JsMap.get k' cache = None → JsMap.get k' cache' = None) ∧
  cache' = filter (λ p, k ∉ Cache.dependencies p.2) cache.
Proof.
  intros Hwf Habs cache'. split_and!.
  - intros k' e Hg Hdep. unfold cache'. rewrite invalidate_lookup, Hg by done.
    rewrite decide_False; [done | by intros [_ ?]].
  - intros k' e Hg Hdep. unfold cache'. rewrite invalidate_lookup, Hg by done.
    rewrite decide_True; [done|]. split; [|done]. intros ->. congruence.
  - intros k' Hg. unfold cache'. by rewrite invalidate_lookup, Hg.
  - unfold cache'. rewrite invalidate_filter by done.
    apply filter_ext_elem. intros [k' e] Hin. simpl.
    split; [by intros [_ ?]|]. intros Hdep. split; [|done]. intros ->.
    apply (jsmap_elem_get _ _ _ Hwf) in Hin. congruence.
Qed.

(** C2, as the code has it.  [getStats] reports the raw store; expired
    entries leave it when [cleanup] sweeps or when their key is read.  For
    every sequence of [set] calls (from the empty store) and every instant
    [now]: no expired entry is returned by [get] or [has]; and once
    [cleanup] has run at [now], [getStats] lists exactly the keys of the
    unexpired entries, in order, and its size counts exactly those, so an
    entry strictly past its expiry is neither listed nor counted. *)
Theorem cleanup_then_stats_only_live (calls : list (Cache.SetCall T)) (now : Z) :
  let cache := Cache.run_sets calls JsMap.empty in
  let stats := Cache.getStats (Cache.cleanup now cache) in
  let live := filter (λ p, now ≤ Cache.timestamp p.2) cache in
  Cache.keys stats = JsMap.keys live ∧
  Cache.size stats = length live ∧
  (∀ k e, JsMap.get k cache = Some e → Cache.timestamp e < now →
     (k ∉ Cache.keys stats) ∧
     fst (Cache.get k now cache) = None ∧ Cache.has k now cache = false) ∧
  (∀ k e, JsMap.get k cache = Some e → now ≤ Cache.timestamp e →
     k ∈ Cache.keys stats ∧
     JsMap.get k (Cache.cleanup now cache) = Some e).
Proof.
  intros cache stats live.
  assert (Hwf : JsMap.wf cache) by apply wf_run_sets, jsmap_wf_empty.
  assert (Hc : Cache.cleanup now cache = live) by by apply cleanup_filter.
  assert (Hl : ∀ k, JsMap.get k live =
                    match JsMap.get k cache with
                    | Some e => if decide (now ≤ Cache.timestamp e)
                                then Some e else None
                    | None => None
                    end).
  { intros k. unfold live. by rewrite jsmap_get_filter_wf. }
  unfold stats, Cache.getStats. rewrite Hc. simpl.
  split_and!; [done | done | |].
  - intros k e Hg Hexp. split_and!.
    + apply jsmap_get_None_keys. rewrite Hl, Hg.
      rewrite decide_False; [done | lia].
    + by rewrite (get_expired _ _ _ _ Hg).
    + unfold Cache.has. rewrite Hg. apply Z.leb_gt. lia.
  - intros k e Hg Hlive.
    assert (Hgl : JsMap.get k live = Some e).
    { rewrite Hl, Hg. by rewrite decide_True. }
    split; [|done].
    destruct (decide (k ∈ JsMap.keys live)) as [|Hn]; [done|].
    apply jsmap_get_None_keys in Hn. congruence.
Qed.

(** [invalidateAll] empties the store *)
Lemma invalidateAll_empties cache :
  Cache.size (Cache.getStats (Cache.invalidateAll cache)) = 0%nat.
Proof. done. Qed.

(** the end-to-end scenario: after [invalidateClientCache()], neither
    [clients] nor [dashboard] can be read *)
Lemma invalidateClientCache_clears cache now :
  JsMap.wf cache →
  let cache' := Cache.invalidateClientCache cache in
  fst (Cache.get Cache.clients now cache') = None ∧
  fst (Cache.get Cache.dashboard now cache') = None.
Proof.
  intros Hwf cache'. unfold cache', Cache.invalidateClientCache.
  assert (Hwf1 : JsMap.wf (Cache.invalidate Cache.clients cache))
    by by apply wf_invalidate.
  split.
  - rewrite get_absent; [done|].
    rewrite invalidate_lookup, invalidate_lookup by done.
    destruct (JsMap.get Cache.clients cache) as [e|]; [|done].
    rewrite decide_False by (by intros [? _]). done.
  - rewrite get_absent; [done|].
    rewrite invalidate_lookup by done.
    destruct (JsMap.get Cache.dashboard _) as [e|]; [|done].
    rewrite decide_False by (by intros [? _]). done.
Qed.
End CacheProperties.

(** C1 at a concrete input: clients, deals, dashboard on the empty store. *)
Lemma invalidation_is_one_level_witness :
  let built :=
    Cache.set Cache.dashboard 30 [Cache.deals] 300000 2
      (Cache.set Cache.deals 20 [Cache.clients] 300000 1
         (Cache.set Cache.clients 10 [] 300000 0 JsMap.empty)) in
  let after := Cache.invalidate Cache.clients built in
  Cache.get Cache.clients 5 after = (None, after) ∧
  Cache.get Cache.deals 5 after = (None, after) ∧
  Cache.get Cache.dashboard 5 after = (Some 30, after).
Proof.
  apply (invalidation_is_one_level Cache.clients Cache.deals Cache.dashboard
           10 20 30 300000 300000 300000 0 1 2 5 5 5 JsMap.empty).
  - apply NoDup_nil_2.
  - discriminate.
  - discriminate.
  - discriminate.
  - lia.
Defined.

(** C3 at a concrete input. *)
Lemma cache_ttl_round_trip_witness :
  let cache := Cache.set Cache.clients 7 [] 1000 50 JsMap.empty in
  Cache.get Cache.clients 50 cache = (Some 7, cache) ∧
  Cache.has Cache.clients 50 cache = true ∧
  ∀ t', 50 + 1000 < t' →
    Cache.get Cache.clients t' cache = (None, JsMap.delete Cache.clients cache) ∧
    ∀ t'', Cache.has Cache.clients t'' (Cache.get Cache.clients t' cache).2 = false.
Proof.
  apply (cache_ttl_round_trip Cache.clients 7 1000 50 JsMap.empty). lia.
Defined.

(** C10 at a concrete input: [deals] is absent, [dashboard] depends on it. *)
Lemma invalidate_absent_key_cascades_witness :
  let cache :=
    [(Cache.clients, Cache.mkEntry 1 100 []);
     (Cache.dashboard, Cache.mkEntry 2 100 [Cache.clients; Cache.deals])] in
  Cache.invalidate Cache.deals cache = [(Cache.clients, Cache.mkEntry 1 100 [])].
Proof.
  intros cache.
  destruct (invalidate_absent_key_cascades Cache.deals cache)
    as (_ & _ & _ & ->).
  - unfold JsMap.wf. compute_done.
  - reflexivity.
  - reflexivity.
Defined.

(** C2 as the specification words it fails: an entry set at time 0 with a TTL of one
    millisecond and never read is still listed and counted by [getStats] at
    time 2, strictly past its expiry. *)
Lemma stats_report_expired_entry :
  let cache := Cache.run_sets [Cache.mkSetCall Cache.clients 7 [] 1 0] JsMap.empty in
  let now := 2 in
  ∃ e, JsMap.get Cache.clients cache = Some e ∧
       Cache.timestamp e < now ∧
       Cache.clients ∈ Cache.keys (Cache.getStats cache) ∧
       Cache.size (Cache.getStats cache) = 1%nat.
Proof.
  eexists. split_and!; [reflexivity | reflexivity | left | reflexivity].
Qed.

(** * Running effectful code *)

Section EffFacts.
Context {E S : Type}.
Implicit Types (s : S).

Lemma result_eta {A} (r : Eff.result E S A) :
  Eff.mkResult (Eff.out r) (Eff.final r) (Eff.trace r) = r.
Proof. by destruct r. Qed.

Lemma run_ret {A} (a : A) s :
  (mret a : Eff.t E S A) s = Eff.mkResult (Eff.Returned a) s [].
Proof. done. Qed.

Lemma run_bind {A B} (m : Eff.t E S A) (f : A → Eff.t E S B) s :
  (m ≫= f) s =
  match Eff.out (m s) with
  | Eff.Returned a =>
      Eff.mkResult (Eff.out (f a (Eff.final (m s))))
                   (Eff.final (f a (Eff.final (m s))))
                   (Eff.trace (m s) ++ Eff.trace (f a (Eff.final (m s))))
  | Eff.Thrown err => Eff.mkResult (Eff.Thrown err) (Eff.final (m s)) (Eff.trace (m s))
  end.
Proof. done. Qed.

Lemma run_bind_read {B} (f : S → Eff.t E S B) s : (Eff.read ≫= f) s = f s s.
Proof. rewrite run_bind. cbn. apply result_eta. Qed.

Lemma run_bind_ret {A B} (a : A) (f : A → Eff.t E S B) s : (mret a ≫= f) s = f a s.
Proof. rewrite run_bind. cbn. apply result_eta. Qed.

Lemma run_bind_modify {B} (g : S → S) (f : unit → Eff.t E S B) s :
  (Eff.modify g ≫= f) s = f tt (g s).
Proof. rewrite run_bind. cbn. apply result_eta. Qed.

Lemma run_bind_emit {B} (ev : E) (f : unit → Eff.t E S B) s :
  (Eff.emit ev ≫= f) s =
  Eff.mkResult (Eff.out (f tt s)) (Eff.final (f tt s)) (ev :: Eff.trace (f tt s)).
Proof. by rewrite run_bind. Qed.

Lemma run_bind_throw {A B} (err : string) (f : A → Eff.t E S B) s :
  (Eff.throw err ≫= f) s = Eff.mkResult (Eff.Thrown err) s [].
Proof. by rewrite run_bind. Qed.

(** a bind whose first part is known to return *)
Lemma run_bind_returned {A B} (m : Eff.t E S A) (f : A → Eff.t E S B) s a s1 tr :
  m s = Eff.mkResult (Eff.Returned a) s1 tr →
  (m ≫= f) s =
  Eff.mkResult (Eff.out (f a s1)) (Eff.final (f a s1)) (tr ++ Eff.trace (f a s1)).
Proof. intros Hm. rewrite run_bind, Hm. done. Qed.

Lemma run_bind_thrown {A B} (m : Eff.t E S A) (f : A → Eff.t E S B) s err s1 tr :
  m s = Eff.mkResult (Eff.Thrown err) s1 tr →
  (m ≫= f) s = Eff.mkResult (Eff.Thrown err) s1 tr.
Proof. intros Hm. rewrite run_bind, Hm. done. Qed.
End EffFacts.

(** rewriting with the equations of the primitive effects *)
Ltac eff_step :=
  first [ rewrite run_bind_read | rewrite run_bind_ret | rewrite run_bind_modify
        | rewrite run_bind_emit | rewrite run_bind_throw | rewrite run_ret ].
Ltac eff_run := repeat eff_step; cbn [Eff.out Eff.final Eff.trace].

(** unfolding the primitive effects altogether, for equations between two
    computations *)
Ltac eff_unfold :=
  cbv [mbind mret Eff.eff_bind Eff.eff_ret Eff.bind Eff.ret Eff.read Eff.emit
       Eff.modify Eff.throw Eff.try_catch Eff.try_finally
       Eff.out Eff.final Eff.trace].

(** * Properties of the connection monitor *)

Section EnvironmentFacts.
Import Environment.
Implicit Types (st : State) (now : Z) (net : FetchResult).

(** The three paths of [isSupabaseAvailable]. *)
Lemma isSupabaseAvailable_cached now net st :
  recently_checked now st = true →
  isSupabaseAvailable now net st
  = Eff.mkResult
      (Eff.Returned (bool_decide (supabaseConnectionStatus st = connected))) st [].
Proof.
  intros Hrc. unfold isSupabaseAvailable. eff_run. by rewrite Hrc.
Qed.

Lemma isSupabaseAvailable_unconfigured now net st :
  recently_checked now st = false →
  isSupabaseConfigured (defaultConfig st) = false →
  isSupabaseAvailable now net st
  = Eff.mkResult (Eff.Returned false)
      (mkState (defaultConfig st) failed now) [].
Proof.
  intros Hrc Hcfg. unfold isSupabaseAvailable. eff_run.
  rewrite Hrc, Hcfg. cbn [negb]. unfold set_status, set_lastCheck. by eff_run.
Qed.

Lemma isSupabaseAvailable_probe now net st :
  recently_checked now st = false →
  isSupabaseConfigured (defaultConfig st) = true →
  isSupabaseAvailable now net st
  = Eff.mkResult
      (Eff.Returned (bool_decide (probed_status net = connected)))
      (mkState (defaultConfig st) (probed_status net) now)
      (probe_trace (defaultConfig st) net).
Proof.
  intros Hrc Hcfg. unfold isSupabaseAvailable. eff_run.
  rewrite Hrc, Hcfg. cbn [negb].
  by destruct net as [[]|err].
Qed.
End EnvironmentFacts.

Section EnvironmentProperties.
Import Environment.
Implicit Types (st : State) (now : Z) (net : FetchResult).

Lemma fetches_probe_trace cfg net : fetches (probe_trace cfg net) = 1%nat.
Proof. by destruct net. Qed.

(** whatever path a call takes, it cannot leave the status unknown unless it
    answered from the cache *)
Lemma isSupabaseAvailable_refreshes now net st :
  recently_checked now st = false →
  let r := isSupabaseAvailable now net st in
  lastConnectionCheck (Eff.final r) = now ∧
  supabaseConnectionStatus (Eff.final r) ≠ unknown ∧
  defaultConfig (Eff.final r) = defaultConfig st ∧
  (fetches (Eff.trace r) ≤ 1)%nat.
Proof.
  intros Hrc r. unfold r.
  destruct (isSupabaseConfigured (defaultConfig st)) eqn:Hcfg.
  - rewrite isSupabaseAvailable_probe by done. cbn [Eff.final Eff.trace].
    rewrite fetches_probe_trace. split_and!; [done | | done | done].
    by destruct net as [[]|].
  - rewrite isSupabaseAvailable_unconfigured by done.
    cbn. split_and!; [done | done | done | lia].
Qed.

(** C4. Availability-check cooldown.
    A completed call never leaves the status unknown.
    (a) Of two calls made one after the other less than
    [CONNECTION_CHECK_INTERVAL] apart, at most one sends a request.  The
    second answers from the cache (it returns the cached state, sends nothing
    and changes nothing) when the first one re-evaluated the connection, and
    also when both fall in the window of the same earlier check.
    (b) A call made once the interval since the last check has elapsed
    re-evaluates the connection whatever the cached status was: it stamps
    the check with the current time and leaves a known status; when the
    service is configured this is exactly one HEAD request, whose answer
    decides the result; when it is not configured the status goes to
    [failed] with no request. *)
Theorem availability_cooldown st now1 net1 now2 net2 :
  let r1 := isSupabaseAvailable now1 net1 st in
  let r2 := isSupabaseAvailable now2 net2 (Eff.final r1) in
  let second_cached :=
    r2 = Eff.mkResult
           (Eff.Returned
              (bool_decide (supabaseConnectionStatus (Eff.final r1) = connected)))
           (Eff.final r1) [] in
  supabaseConnectionStatus (Eff.final r1) ≠ unknown ∧
  (now2 - now1 < CONNECTION_CHECK_INTERVAL →
     (fetches (Eff.trace r1) + fetches (Eff.trace r2) ≤ 1)%nat ∧
     (recently_checked now1 st = false → second_cached)) ∧
  (recently_checked now1 st = true →
   now2 - lastConnectionCheck st < CONNECTION_CHECK_INTERVAL →
     second_cached ∧ Eff.trace r1 = []) ∧
  (CONNECTION_CHECK_INTERVAL ≤ now1 - lastConnectionCheck st →
     recently_checked now1 st = false ∧
     lastConnectionCheck (Eff.final r1) = now1 ∧
     Eff.out r1 =
       Eff.Returned (bool_decide (supabaseConnectionStatus (Eff.final r1) = connected)) ∧
     (isSupabaseConfigured (defaultConfig st) = true →
        fetches (Eff.trace r1) = 1%nat ∧
        supabaseConnectionStatus (Eff.final r1) = probed_status net1) ∧
     (isSupabaseConfigured (defaultConfig st) = false →
        Eff.trace r1 = [] ∧ supabaseConnectionStatus (Eff.final r1) = failed)).
Proof.
  intros r1 r2 second_cached.
  assert (Hknown : supabaseConnectionStatus (Eff.final r1) ≠ unknown).
  { destruct (recently_checked now1 st) eqn:Hrc1.
    - unfold r1. rewrite isSupabaseAvailable_cached by done. cbn [Eff.final].
      unfold recently_checked in Hrc1.
      apply andb_prop in Hrc1 as [_ Hk]. by apply bool_decide_eq_true in Hk.
    - by destruct (isSupabaseAvailable_refreshes now1 net1 st Hrc1) as (_ & ? & _). }
  assert (Hcached : ∀ st', st' = Eff.final r1 →
            now2 - lastConnectionCheck st' < CONNECTION_CHECK_INTERVAL →
            second_cached).
  { intros st' -> Hwin. unfold second_cached, r2.
    apply isSupabaseAvailable_cached. unfold recently_checked.
    apply andb_true_intro. split.
    - by apply Z.ltb_lt.
    - by apply bool_decide_eq_true. }
  split_and!; [done | | |].
  - intros Hwin.
    destruct (recently_checked now1 st) eqn:Hrc1.
    + (* the first call answered from the cache *)
      assert (Hr1 : r1 = Eff.mkResult
                (Eff.Returned (bool_decide (supabaseConnectionStatus st = connected)))
                st []) by by apply isSupabaseAvailable_cached.
      split; [|done]. unfold r2. rewrite Hr1. cbn [Eff.final Eff.trace].
      change (fetches []) with 0%nat.
      destruct (recently_checked now2 st) eqn:Hrc2.
      * rewrite isSupabaseAvailable_cached by done. cbn. lia.
      * destruct (isSupabaseAvailable_refreshes now2 net2 st Hrc2)
          as (_ & _ & _ & Hle). lia.
    + (* the first call re-evaluated: the second is within the window *)
      destruct (isSupabaseAvailable_refreshes now1 net1 st Hrc1)
        as (Hlast & _ & _ & Hle). fold r1 in Hlast, Hle.
      assert (Hsecond : second_cached).
      { apply (Hcached (Eff.final r1)); [done|]. rewrite Hlast. lia. }
      split; [|done]. unfold second_cached in Hsecond. rewrite Hsecond.
      cbn [Eff.trace]. change (fetches []) with 0%nat. lia.
  - intros Hrc1 Hwin.
    assert (Hr1 : r1 = Eff.mkResult
              (Eff.Returned (bool_decide (supabaseConnectionStatus st = connected)))
              st []) by by apply isSupabaseAvailable_cached.
    split; [|by rewrite Hr1].
    apply (Hcached st); [by rewrite Hr1 | done].
  - intros Helapsed.
    assert (Hrc : recently_checked now1 st = false).
    { unfold recently_checked. apply andb_false_intro1, Z.ltb_ge. lia. }
    split; [done|]. unfold r1.
    destruct (isSupabaseConfigured (defaultConfig st)) eqn:Hcfg.
    + rewrite isSupabaseAvailable_probe by done. cbn [Eff.final Eff.trace Eff.out].
      cbn [lastConnectionCheck supabaseConnectionStatus].
      rewrite fetches_probe_trace.
      split_and!; [done | done | done | done].
    + rewrite isSupabaseAvailable_unconfigured by done.
      cbn [Eff.final Eff.trace Eff.out lastConnectionCheck supabaseConnectionStatus].
      split_and!; [done | done | done | done].
Qed.

(** C5. Fallback decision.  When the force flag [enableMockData] is set,
    [shouldUseMockData] returns true, whatever the state; when it is not set
    and the development posture is off, it returns false, whatever the
    connection status and whatever the network would answer.  In both cases
    nothing is sent and the state is unchanged.  After [enableMockData(true)]
    the flag is set, so the answer is true. *)
Theorem fallback_decision now net st :
  let r := shouldUseMockData now net st in
  (Config.enableMockData (defaultConfig st) = true →
     r = Eff.mkResult (Eff.Returned true) st []) ∧
  (Config.enableMockData (defaultConfig st) = false →
   Config.isDevelopment (defaultConfig st) = false →
     r = Eff.mkResult (Eff.Returned false) st []) ∧
  Eff.out (shouldUseMockData now net (Eff.final (enableMockData true st)))
    = Eff.Returned true.
Proof.
  intros r. unfold r, shouldUseMockData. split_and!.
  - intros Hflag. eff_run. by rewrite Hflag.
  - intros Hflag Hdev. eff_run. by rewrite Hflag, Hdev.
  - by eff_run.
Qed.
End EnvironmentProperties.

(** C4 at a concrete input: a configured service, first asked at time 100000
    with no earlier check, asked again 10 s later; then asked 40 s after a
    check that had found the service connected. *)
Lemma availability_cooldown_witness :
  let cfg := Environment.Config.mk "https://x.supabase.co" "key" false true false
               10000 300000 in
  let st := Environment.initial cfg in
  let r1 := Environment.isSupabaseAvailable 100000 (Environment.Response true) st in
  let r2 := Environment.isSupabaseAvailable 110000 (Environment.Rejected "down")
              (Eff.final r1) in
  (Environment.fetches (Eff.trace r1) + Environment.fetches (Eff.trace r2) ≤ 1)%nat ∧
  r2 = Eff.mkResult (Eff.Returned true) (Eff.final r1) [] ∧
  Environment.fetches (Eff.trace r1) = 1%nat.
Proof.
  intros cfg st r1 r2.
  destruct (availability_cooldown st 100000 (Environment.Response true)
              110000 (Environment.Rejected "down")) as (_ & Hclose & _ & Hfar).
  destruct Hclose as [Hone Hcached]; [vm_compute; reflexivity|].
  destruct Hfar as (_ & _ & _ & Hprobe & _); [vm_compute; discriminate|].
  destruct Hprobe as [Hn _]; [reflexivity|].
  split_and!; [exact Hone | apply Hcached; reflexivity | exact Hn].
Defined.

(** C5 at a concrete input: production posture, service not configured. *)
Lemma fallback_decision_witness :
  let cfg := Environment.Config.mk "" "" false true false 10000 300000 in
  let st := Environment.mkState cfg Environment.failed 0 in
  Environment.shouldUseMockData 5 (Environment.Rejected "unreachable") st
  = Eff.mkResult (Eff.Returned false) st [].
Proof.
  intros cfg st.
  destruct (fallback_decision 5 (Environment.Rejected "unreachable") st)
    as (_ & Hprod & _).
  apply Hprod; reflexivity.
Defined.

(** * Properties of the health check *)

Section HealthFacts.
Import Health.

Lemma some_match {A} (P : A → Prop) `{∀ x, Decision (P x)} (l : list A) :
  (0 <? length (filter P l))%nat = true ↔ ∃ x, x ∈ l ∧ P x.
Proof.
  rewrite Nat.ltb_lt. split.
  - destruct (filter P l) as [|x l'] eqn:Hf; simpl; [lia|]. intros _.
    assert (Hx : x ∈ filter P l) by (rewrite Hf; left).
    apply list_elem_of_filter in Hx as [? ?]. by exists x.
  - intros (x & Hin & HP).
    assert (Hx : x ∈ filter P l) by by apply list_elem_of_filter.
    destruct (filter P l); [by apply elem_of_nil in Hx | simpl; lia].
Qed.

Lemma none_match {A} (P : A → Prop) `{∀ x, Decision (P x)} (l : list A) :
  (0 <? length (filter P l))%nat = false ↔ ∀ x, x ∈ l → ¬ P x.
Proof.
  rewrite <- not_true_iff_false, some_match. split.
  - intros Hn x Hin HP. apply Hn. by exists x.
  - intros Hall (x & Hin & HP). by apply (Hall x).
Qed.

Lemma deriveOverall_cons s services :
  deriveOverall (s :: services) = worse (status s) (deriveOverall services).
Proof.
  unfold deriveOverall. rewrite !filter_cons.
  destruct (status s) eqn:Hs; simpl;
    repeat (case_decide; try discriminate); simpl;
    repeat (destruct (0 <? length _)%nat); done.
Qed.

(** the probe changes no module variable and sends one query, whatever
    comes back *)
Lemma checkSupabaseHealth_effects w st :
  Eff.final (checkSupabaseHealth w st) = st ∧
  Eff.trace (checkSupabaseHealth w st) = [SelectCount "clients"].
Proof.
  unfold checkSupabaseHealth, try_catch_value, probe_settled, probe_failed.
  eff_run.
  destruct (answer w) as [|message|[| |message]]; eff_run; try done.
  destruct (_ && _); by eff_run.
Qed.

Lemma checkSupabaseHealth_returns w st :
  throws_nullish (answer w) = false →
  ∃ s, checkSupabaseHealth w st
       = Eff.mkResult (Eff.Returned s) st [SelectCount "clients"].
Proof.
  intros Hans. unfold checkSupabaseHealth, try_catch_value, probe_settled, probe_failed.
  eff_run.
  destruct (answer w) as [|message|[| |message]]; try discriminate; eff_run.
  - by eexists.
  - destruct (_ && _); eff_run; by eexists.
  - by eexists.
Qed.

Lemma checkSupabaseHealth_throws w st :
  throws_nullish (answer w) = true →
  ∃ err, checkSupabaseHealth w st
         = Eff.mkResult (Eff.Thrown err) st [SelectCount "clients"].
Proof.
  intros Hans. unfold checkSupabaseHealth, try_catch_value, probe_settled, probe_failed.
  eff_run.
  destruct (answer w) as [|message|[| |message]]; try discriminate; eff_run;
    by eexists.
Qed.

(** the status of the record, by the answer *)
Lemma checkSupabaseHealth_status w st s :
  Eff.out (checkSupabaseHealth w st) = Eff.Returned s →
  service s = "supabase" ∧
  (status s = healthy ↔ answer w = QueryData) ∧
  (status s = degraded ↔
     ∃ message, answer w = QueryError message ∧
                str_includes message "relation" = true ∧
                str_includes message "does not exist" = true).
Proof.
  unfold checkSupabaseHealth, try_catch_value, probe_settled, probe_failed.
  eff_run.
  destruct (answer w) as [|message|[| |message]] eqn:Hans; eff_run;
    try discriminate.
  - intros [= <-]. cbn [service status].
    split_and!; try done. split; [done | by intros (? & ? & _)].
  - destruct (str_includes message "relation") eqn:H1;
      destruct (str_includes message "does not exist") eqn:H2;
      cbn [andb]; eff_run; intros [= <-]; cbn [service status];
      split_and!; try done;
      try (split; [done | intros (m & [= <-] & ? & ?); congruence]).
    split; [|done]. intros _. by exists message.
  - intros [= <-]. cbn [service status].
    split_and!; try done. split; [done | by intros (? & ? & _)].
Qed.

(** the refresh path publishes and returns a consistent snapshot *)
Lemma refresh_returns w st :
  throws_nullish (answer w) = false →
  ∃ s,
    Eff.out (checkSupabaseHealth w (mkState (lastHealthCheck st) true))
      = Eff.Returned s ∧
    refresh w st
    = Eff.mkResult
        (Eff.Returned (mkSystemHealth (deriveOverall [s]) [s] (now w)))
        (mkState (Some (mkSystemHealth (deriveOverall [s]) [s] (now w))) false)
        [SelectCount "clients"].
Proof.
  intros Hans. unfold refresh, set_inProgress. eff_run. unfold Eff.try_finally.
  set (st1 := {| lastHealthCheck := lastHealthCheck st;
                 healthCheckInProgress := true |}).
  destruct (checkSupabaseHealth_returns w st1 Hans) as [s Hs].
  exists s. split; [by rewrite Hs|].
  rewrite (run_bind_returned _ _ _ _ _ _ Hs).
  unfold publish, set_lastHealthCheck. by eff_run.
Qed.

(** when the probe rejects, so does the refresh: nothing is published, and
    the [finally] block clears the in-flight flag *)
Lemma refresh_throws w st :
  throws_nullish (answer w) = true →
  ∃ err,
    refresh w st
    = Eff.mkResult (Eff.Thrown err) (mkState (lastHealthCheck st) false)
                   [SelectCount "clients"].
Proof.
  intros Hans. unfold refresh, set_inProgress. eff_run. unfold Eff.try_finally.
  set (st1 := {| lastHealthCheck := lastHealthCheck st;
                 healthCheckInProgress := true |}).
  destruct (checkSupabaseHealth_throws w st1 Hans) as [err Hs].
  exists err. rewrite (run_bind_thrown _ _ _ _ _ _ Hs). done.
Qed.

Lemma refresh_trace w st : Eff.trace (refresh w st) = [SelectCount "clients"].
Proof.
  destruct (throws_nullish (answer w)) eqn:Hans.
  - by destruct (refresh_throws w st Hans) as [err ->].
  - by destruct (refresh_returns w st Hans) as (s & _ & ->).
Qed.

Lemma deriveOverall_single s : deriveOverall [s] = status s.
Proof. rewrite deriveOverall_cons. by destruct (status s). Qed.

Lemma checkSystemHealth_refreshes force w st :
  recent force w st = None →
  healthCheckInProgress st = false →
  checkSystemHealth force w st = refresh w st.
Proof.
  intros Hrecent Hprog. unfold checkSystemHealth. eff_run.
  rewrite Hrecent, Hprog. by eff_run.
Qed.

Lemma recent_forced w st : recent true w st = None.
Proof. unfold recent. by destruct (lastHealthCheck st). Qed.

(** a call that finds a check in flight and no reusable snapshot waits and
    looks again *)
Lemma checkSystemHealth_waits force w st :
  recent force w st = None →
  healthCheckInProgress st = true →
  checkSystemHealth force w st =
  match lastHealthCheck (meanwhile w st) with
  | Some h => Eff.mkResult (Eff.Returned h) (meanwhile w st) [Sleep 100]
  | None =>
      Eff.mkResult (Eff.out (refresh w (meanwhile w st)))
                   (Eff.final (refresh w (meanwhile w st)))
                   (Sleep 100 :: Eff.trace (refresh w (meanwhile w st)))
  end.
Proof.
  intros Hrecent Hprog. unfold checkSystemHealth. eff_run.
  rewrite Hrecent, Hprog.
  match goal with
  | |- context [(?wait ≫= ?k) st] => set (waiting := wait); set (next := k)
  end.
  assert (Hwait : waiting st
            = Eff.mkResult (Eff.Returned (lastHealthCheck (meanwhile w st)))
                           (meanwhile w st) [Sleep 100])
    by (unfold waiting; by eff_run).
  rewrite (run_bind_returned waiting next _ _ _ _ Hwait). unfold next.
  destruct (lastHealthCheck (meanwhile w st)); by eff_run.
Qed.
End HealthFacts.

Section HealthProperties.
Import Health.

(** C6. The overall status is the worst of the service statuses.  For every
    list of per-service records the derivation of [checkSystemHealth] gives
    [unhealthy] if some service is unhealthy, else [degraded] if some service
    is degraded, else [healthy]; this is the maximum of the statuses in the
    order [healthy < degraded < unhealthy].

    [checkSystemHealth] applies it to the records it has gathered.  A call
    that refreshes (no reusable snapshot, no check in flight) and whose probe
    returns a record [s] returns and publishes the snapshot whose services
    are [[s]], stamped with its entry time, and whose overall status is the
    one the rule gives for that list: [healthy] when the data service
    answered without error, [degraded] when it reported a missing relation,
    [unhealthy] for every other answer.  A snapshot that is reused instead
    (the cached one, or the one other tasks published during the wait) is
    returned as it is, so it carries the status derived from its services
    whenever it was produced the same way; and when the probe itself rejects
    (the client threw [null] or [undefined]) no snapshot is produced at
    all. *)
Theorem overall_is_worst_of (services : list HealthStatus) :
  let overall := deriveOverall services in
  ((∃ s, s ∈ services ∧ status s = unhealthy) → overall = unhealthy) ∧
  ((∀ s, s ∈ services → status s ≠ unhealthy) →
   (∃ s, s ∈ services ∧ status s = degraded) → overall = degraded) ∧
  ((∀ s, s ∈ services → status s ≠ unhealthy) →
   (∀ s, s ∈ services → status s ≠ degraded) → overall = healthy) ∧
  overall = worst_of (status <$> services) ∧
  (∀ forceRefresh w st,
     recent forceRefresh w st = None →
     healthCheckInProgress st = false →
     throws_nullish (answer w) = false →
     ∃ s h,
       Eff.out (checkSupabaseHealth w (mkState (lastHealthCheck st) true))
         = Eff.Returned s ∧
       checkSystemHealth forceRefresh w st
         = Eff.mkResult (Eff.Returned h) (mkState (Some h) false)
                        [SelectCount "clients"] ∧
       Health.services h = [s] ∧
       timestamp h = now w ∧
       Health.overall h = worst_of (status <$> Health.services h) ∧
       (Health.overall h = healthy ↔ answer w = QueryData) ∧
       (Health.overall h = degraded ↔
          ∃ message, answer w = QueryError message ∧
                     str_includes message "relation" = true ∧
                     str_includes message "does not exist" = true)) ∧
  (∀ forceRefresh w st,
     (∀ h, lastHealthCheck st = Some h → consistent h) →
     (∀ h, lastHealthCheck (meanwhile w st) = Some h → consistent h) →
     let r := checkSystemHealth forceRefresh w st in
     (∀ h, Eff.out r = Eff.Returned h → consistent h) ∧
     (∀ h, lastHealthCheck (Eff.final r) = Some h → consistent h) ∧
     ((∃ h, Eff.out r = Eff.Returned h) ∨
      (throws_nullish (answer w) = true ∧ ∃ err, Eff.out r = Eff.Thrown err))).
Proof.
  intros overall.
  assert (Hworst : ∀ l, deriveOverall l = worst_of (status <$> l)).
  { induction l as [|s l IH]; [done|].
    rewrite deriveOverall_cons, fmap_cons. simpl. by rewrite IH. }
  split_and!.
  - intros Hex. unfold overall, deriveOverall.
    by rewrite (proj2 (some_match (λ s, status s = unhealthy) services) Hex).
  - intros Hnone Hex. unfold overall, deriveOverall.
    rewrite (proj2 (none_match (λ s, status s = unhealthy) services) Hnone).
    by rewrite (proj2 (some_match (λ s, status s = degraded) services) Hex).
  - intros Hnone Hnone'. unfold overall, deriveOverall.
    rewrite (proj2 (none_match (λ s, status s = unhealthy) services) Hnone).
    by rewrite (proj2 (none_match (λ s, status s = degraded) services) Hnone').
  - apply Hworst.
  - intros forceRefresh w st Hrecent Hprog Hans.
    rewrite checkSystemHealth_refreshes by done.
    destruct (refresh_returns w st Hans) as (s & Hs & Hrun).
    destruct (checkSupabaseHealth_status w _ s Hs) as (_ & Hhealthy & Hdegraded).
    exists s, (mkSystemHealth (deriveOverall [s]) [s] (now w)).
    cbn [Health.services Health.overall timestamp].
    split_and!; try done.
    + by rewrite deriveOverall_single.
    + by rewrite deriveOverall_single.
  - intros forceRefresh w st Hcached Hpublished r. unfold r. clear r.
    assert (Hfresh : ∀ st0,
              (∀ h, lastHealthCheck st0 = Some h → consistent h) →
              (∀ h, Eff.out (refresh w st0) = Eff.Returned h → consistent h) ∧
              (∀ h, lastHealthCheck (Eff.final (refresh w st0)) = Some h →
                    consistent h) ∧
              ((∃ h, Eff.out (refresh w st0) = Eff.Returned h) ∨
               (throws_nullish (answer w) = true ∧
                ∃ err, Eff.out (refresh w st0) = Eff.Thrown err))).
    { intros st0 Hst0. destruct (throws_nullish (answer w)) eqn:Hans.
      - destruct (refresh_throws w st0 Hans) as [err ->].
        cbn [Eff.out Eff.final lastHealthCheck].
        split_and!; [done | done | right; eauto].
      - destruct (refresh_returns w st0 Hans) as (s & _ & ->).
        cbn [Eff.out Eff.final lastHealthCheck].
        split_and!; [by intros h [= <-] | by intros h [= <-] | left; eauto]. }
    destruct (recent forceRefresh w st) as [h|] eqn:Hrecent.
    { unfold checkSystemHealth. eff_run. rewrite Hrecent. eff_run.
      assert (Hh : consistent h).
      { apply Hcached. unfold recent in Hrecent.
        destruct (lastHealthCheck st) as [h0|]; [|done].
        destruct (_ && _); by simplify_eq. }
      split_and!; [by intros h' [= <-] | done | left; eauto]. }
    destruct (healthCheckInProgress st) eqn:Hprog.
    + (* another refresh is in flight: wait, then look again *)
      rewrite checkSystemHealth_waits by done.
      destruct (lastHealthCheck (meanwhile w st)) as [h|] eqn:Hseen.
      * cbn [Eff.out Eff.final].
        split_and!; [intros h' [= <-]; by apply Hpublished | | left; eauto].
        intros h' Hh'. rewrite Hseen in Hh'. by apply Hpublished.
      * cbn [Eff.out Eff.final]. apply Hfresh. intros h. rewrite Hseen. done.
    + rewrite checkSystemHealth_refreshes by done. by apply Hfresh.
Qed.
End HealthProperties.

(** C6 at a concrete input: a list with a degraded and a healthy record, and
    a forced check on a fresh module while the data service reports a missing
    table, which gives a degraded system. *)
Lemma overall_is_worst_of_witness :
  let up := Health.mkHealthStatus "auth" Health.healthy 1041 None (Some 12) in
  let limping :=
    Health.mkHealthStatus "supabase" Health.degraded 1041
      (Some "Database tables not configured") (Some 40) in
  let w := Health.mkWorld 1000 1000 1040 1041
             (Health.QueryError "relation public.clients does not exist") id in
  Health.deriveOverall [up; limping] = Health.degraded ∧
  ∃ h, Eff.out (Health.checkSystemHealth true w Health.initial) = Eff.Returned h ∧
       Health.services h = [limping] ∧
       Health.overall h = Health.degraded.
Proof.
  intros up limping w.
  destruct (overall_is_worst_of [up; limping])
    as (_ & Hdegraded & _ & _ & Hcheck & _).
  split.
  - apply Hdegraded.
    + intros s Hs. apply elem_of_cons in Hs as [->|Hs]; [discriminate|].
      apply elem_of_cons in Hs as [->|Hs]; [discriminate|].
      by apply elem_of_nil in Hs.
    + exists limping. split; [|reflexivity]. right. left.
  - destruct (Hcheck true w Health.initial) as (s & h & Hs & Hrun & Hsv & _ & _ & _ & Hdeg);
      [reflexivity | reflexivity | reflexivity |].
    exists h. rewrite Hrun. split; [reflexivity|]. split.
    + rewrite Hsv. f_equal. vm_compute in Hs. by injection Hs as <-.
    + apply Hdeg. eexists. split; [reflexivity|]. split; reflexivity.
Defined.

(** * Properties of the logger *)

Section ListFacts.
Context {A : Type}.
Implicit Types (l k : list A).

Lemma slice0_nonneg (cap : Z) l : 0 ≤ cap → slice0 cap l = take (Z.to_nat cap) l.
Proof.
  intros Hcap. unfold slice0.
  destruct (Z.ltb_spec cap 0) as [|_]; [lia|].
  destruct (Z.le_gt_cases cap (Z.of_nat (length l))).
  - by rewrite Z.min_l.
  - rewrite Z.min_r by lia. rewrite Nat2Z.id.
    rewrite !take_ge; [done | lia | lia].
Qed.

Lemma take_app_take n l k : take n (l ++ take n k) = take n (l ++ k).
Proof.
  rewrite !take_app, take_take. do 2 f_equal. lia.
Qed.
End ListFacts.

Section LoggerFacts.
Import Logger.
Context {D : Type}.
Implicit Types (st : State D) (w : World) (entry : LogEntry D)
  (lvl : LogLevel).

Lemma logToConsole_run entry st :
  logToConsole entry st
  = Eff.mkResult (Eff.Returned tt) st (console_lines (config st) entry).
Proof.
  unfold logToConsole, console_lines. eff_run.
  destruct (enableConsole (config st)); cbn [negb]; eff_run; [|done].
  destruct (entry_level entry), (stack entry) as [stk|]; try done;
    destruct (truthy stk); done.
Qed.

Lemma getStoredLogs_run w st :
  getStoredLogs w st
  = Eff.mkResult
      (Eff.Returned (if bool_decide (window w ≠ None) then stored st else []))
      st [].
Proof.
  unfold getStoredLogs. destruct (window w) as [win|]; [|done].
  unfold Eff.try_catch. by eff_run.
Qed.

Lemma logToStorage_run w entry st :
  logToStorage w entry st
  = Eff.mkResult (Eff.Returned tt) (storage_after w entry st)
      (storage_lines (config st) w entry (stored st)).
Proof.
  unfold logToStorage, storage_after, storage_lines, storage_enabled. eff_run.
  destruct (enableStorage (config st)); cbn [negb orb andb]; [|done].
  destruct (window w) as [win|] eqn:Hw; cbn; [|done].
  unfold Eff.try_catch.
  rewrite (run_bind_returned _ _ _ _ _ _ (getStoredLogs_run w st)).
  rewrite Hw. cbn. unfold setItem.
  destruct (setItemThrows w); cbn; [done|]. by eff_run.
Qed.

Lemma logToRemote_run w entry st :
  logToRemote w entry st
  = Eff.mkResult (Eff.Returned tt) st
      (remote_lines (config st) (sessionId st) w entry).
Proof.
  unfold logToRemote, remote_lines. eff_run.
  destruct (remoteEndpoint (config st)) as [endpoint|]; [|done].
  destruct (enableRemoteLogging (config st)); cbn [negb orb andb]; [|done].
  destruct (truthy endpoint); cbn [negb]; [|done].
  unfold Eff.try_catch, fetch_post. eff_run.
  destruct (fetchRejects w); by eff_run.
Qed.

Lemma storage_after_config w entry st :
  config (storage_after w entry st) = config st ∧
  sessionId (storage_after w entry st) = sessionId st.
Proof. unfold storage_after. by destruct (_ && _). Qed.

(** the whole of [log], path by path *)
Lemma log_run w lvl msg ctx d err st :
  log w lvl msg ctx d err st =
  if shouldLog (config st) lvl then
    let entry := createLogEntry w lvl msg ctx d err in
    Eff.mkResult (Eff.Returned tt) (storage_after w entry st)
      (console_lines (config st) entry
       ++ storage_lines (config st) w entry (stored st)
       ++ (if levelNum ERROR <=? levelNum lvl
           then remote_lines (config st) (sessionId st) w entry else []))
  else Eff.mkResult (Eff.Returned tt) st [].
Proof.
  unfold log. eff_run.
  destruct (shouldLog (config st) lvl); cbn [negb]; eff_run; [|done].
  set (entry := createLogEntry w lvl msg ctx d err).
  rewrite (run_bind_returned _ _ _ _ _ _ (logToConsole_run entry st)).
  rewrite (run_bind_returned _ _ _ _ _ _ (logToStorage_run w entry st)).
  destruct (storage_after_config w entry st) as [Hc Hs].
  destruct (levelNum ERROR <=? levelNum lvl).
  - unfold Eff.spawn. rewrite logToRemote_run, Hc, Hs. done.
  - eff_run. by rewrite app_nil_r.
Qed.

Lemma log_returns w lvl msg ctx d err st :
  Eff.out (log w lvl msg ctx d err st) = Eff.Returned tt.
Proof. rewrite log_run. by destruct (shouldLog _ _). Qed.

Lemma log_config w lvl msg ctx d err st :
  config (Eff.final (log w lvl msg ctx d err st)) = config st.
Proof.
  rewrite log_run. destruct (shouldLog _ _); [|done].
  apply storage_after_config.
Qed.

(** a call that passes the level filter, in a browser whose storage accepts
    the write, stores the entry in front and cuts the list at the cap *)
Lemma log_stores w lvl msg ctx d err st :
  shouldLog (config st) lvl = true →
  enableStorage (config st) = true →
  window w ≠ None →
  setItemThrows w = false →
  stored (Eff.final (log w lvl msg ctx d err st))
  = slice0 (maxStorageEntries (config st))
           (createLogEntry w lvl msg ctx d err :: stored st).
Proof.
  intros Hlvl Hen Hw Hset. rewrite log_run, Hlvl. cbn [Eff.final].
  unfold storage_after, storage_enabled.
  rewrite Hen, Hset, bool_decide_eq_true_2 by done. done.
Qed.

Lemma run_logs_cons (c : LogCall D) calls st :
  run_logs (c :: calls) st
  = Eff.mkResult (Eff.out (run_logs calls (Eff.final (call c st))))
                 (Eff.final (run_logs calls (Eff.final (call c st))))
                 (Eff.trace (call c st)
                  ++ Eff.trace (run_logs calls (Eff.final (call c st)))).
Proof.
  cbn [run_logs]. rewrite run_bind. unfold call at 1. by rewrite log_returns.
Qed.

Lemma run_logs_returns (calls : list (LogCall D)) st :
  Eff.out (run_logs calls st) = Eff.Returned tt.
Proof.
  revert st. induction calls as [|c calls IH]; intros st; [done|].
  rewrite run_logs_cons. apply IH.
Qed.

Lemma run_logs_config (calls : list (LogCall D)) st :
  config (Eff.final (run_logs calls st)) = config st.
Proof.
  revert st. induction calls as [|c calls IH]; intros st; [done|].
  rewrite run_logs_cons. cbn [Eff.final]. rewrite IH. apply log_config.
Qed.

Lemma run_logs_stored (calls : list (LogCall D)) st :
  enableStorage (config st) = true →
  0 ≤ maxStorageEntries (config st) →
  all_stored (config st) calls →
  calls ≠ [] →
  stored (Eff.final (run_logs calls st))
  = take (Z.to_nat (maxStorageEntries (config st)))
         (reverse (entry_of <$> calls) ++ stored st).
Proof.
  revert st. induction calls as [|c calls IH]; intros st Hen Hcap Hall Hne; [done|].
  rewrite run_logs_cons. cbn [Eff.final].
  destruct (Hall c) as (Hlvl & Hw & Hset); [left|].
  assert (Hstep : stored (Eff.final (call c st))
            = take (Z.to_nat (maxStorageEntries (config st)))
                   (entry_of c :: stored st)).
  { unfold call. rewrite log_stores; try done.
    - by apply slice0_nonneg.
    - by apply Z.leb_le. }
  assert (Hcfg : config (Eff.final (call c st)) = config st)
    by apply log_config.
  destruct calls as [|c' calls'].
  - cbn [run_logs]. rewrite run_ret. cbn [Eff.final]. by rewrite Hstep.
  - rewrite IH; rewrite ?Hcfg; try done.
    + rewrite Hstep, take_app_take. f_equal.
      rewrite (fmap_cons entry_of c), reverse_cons, <- app_assoc. done.
    + intros c0 Hin. apply Hall. by right.
Qed.
End LoggerFacts.

Section LoggerProperties.
Import Logger.
Context {D : Type}.
Implicit Types (st : State D) (w : World) (lvl : LogLevel).

(** C7. Logger bounded storage.  With storage enabled and a cap
    [maxStorageEntries >= 0], after more than [maxStorageEntries] log calls
    in a row, each at or above the threshold and each reaching storage,
    exactly [maxStorageEntries] entries are persisted: the entries of the
    last [maxStorageEntries] calls, newest first; whatever was stored
    before, and the entries of the earlier calls, are gone.  No call
    throws. *)
Theorem logger_bounded_storage (calls : list (LogCall D)) st :
  let cap := maxStorageEntries (config st) in
  let entries := entry_of <$> calls in
  enableStorage (config st) = true →
  0 ≤ cap →
  all_stored (config st) calls →
  cap < Z.of_nat (length calls) →
  let r := run_logs calls st in
  Eff.out r = Eff.Returned tt ∧
  stored (Eff.final r) = take (Z.to_nat cap) (reverse entries) ∧
  stored (Eff.final r)
    = reverse (drop (length entries - Z.to_nat cap) entries) ∧
  Z.of_nat (length (stored (Eff.final r))) = cap.
Proof.
  intros cap entries Hen Hcap Hall Hmore r.
  assert (Hlen : (Z.to_nat cap ≤ length (reverse entries))%nat).
  { rewrite length_reverse. unfold entries. rewrite length_fmap. lia. }
  assert (Hst : stored (Eff.final r) = take (Z.to_nat cap) (reverse entries)).
  { unfold r. rewrite run_logs_stored; try done.
    - by apply take_app_le.
    - intros ->. simpl in Hmore. lia. }
  split_and!.
  - apply run_logs_returns.
  - done.
  - by rewrite Hst, take_reverse.
  - rewrite Hst, length_take_le by done. lia.
Qed.

(** C8. Logger level filter.  With console and storage enabled, in a
    browser whose storage accepts the write: a call whose level is strictly
    below the threshold does nothing at all (no event, state unchanged); a
    call at or above it prints the entry on the console and writes it to
    storage, in front of the stored entries (cut at the cap).  So a call is
    a no-op exactly when its level is strictly below the threshold; with the
    threshold at WARN, DEBUG and INFO calls are no-ops and WARN, ERROR and
    CRITICAL calls produce both. *)
Theorem logger_level_filter w lvl msg ctx d err st :
  let cfg := config st in
  let r := log w lvl msg ctx d err st in
  let entry := createLogEntry w lvl msg ctx d err in
  let no_op := r = Eff.mkResult (Eff.Returned tt) st [] in
  let produced :=
    Console (consoleMethod lvl) entry ∈ Eff.trace r ∧
    SetItem (slice0 (maxStorageEntries cfg) (entry :: stored st)) ∈ Eff.trace r ∧
    stored (Eff.final r) = slice0 (maxStorageEntries cfg) (entry :: stored st) ∧
    (1 ≤ maxStorageEntries cfg → head (stored (Eff.final r)) = Some entry) in
  enableConsole cfg = true →
  enableStorage cfg = true →
  window w ≠ None →
  setItemThrows w = false →
  (levelNum lvl < levelNum (level cfg) → no_op) ∧
  (levelNum (level cfg) ≤ levelNum lvl → produced) ∧
  (no_op ↔ levelNum lvl < levelNum (level cfg)) ∧
  (level cfg = WARN →
     ((lvl = DEBUG ∨ lvl = INFO) → no_op) ∧
     ((lvl = WARN ∨ lvl = ERROR ∨ lvl = CRITICAL) → produced)).
Proof.
  intros cfg r entry no_op produced Hcon Hsto Hw Hset.
  assert (Hbelow : levelNum lvl < levelNum (level cfg) → no_op).
  { intros Hlt. unfold no_op, r. rewrite log_run.
    unfold shouldLog. fold cfg.
    destruct (Z.leb_spec (levelNum (level cfg)) (levelNum lvl)); [lia | done]. }
  assert (Habove : levelNum (level cfg) ≤ levelNum lvl → produced).
  { intros Hle.
    assert (Hlog : shouldLog cfg lvl = true) by by apply Z.leb_le.
    assert (Hstored : stored (Eff.final r)
              = slice0 (maxStorageEntries cfg) (entry :: stored st))
      by by apply log_stores.
    unfold produced. split_and!.
    - unfold r. rewrite log_run. fold cfg entry. rewrite Hlog.
      cbn [Eff.trace]. apply elem_of_app. left.
      unfold console_lines. rewrite Hcon. left.
    - unfold r. rewrite log_run. fold cfg entry. rewrite Hlog.
      cbn [Eff.trace]. apply elem_of_app. right. apply elem_of_app. left.
      unfold storage_lines, storage_enabled.
      rewrite Hsto, Hset, bool_decide_eq_true_2 by done. left.
    - done.
    - intros Hcap. rewrite Hstored, slice0_nonneg by lia.
      destruct (Z.to_nat (maxStorageEntries cfg)) eqn:Hn; [lia | done]. }
  split_and!; [done | done | | ].
  - split; [|done]. intros Hnoop.
    destruct (Z.lt_ge_cases (levelNum lvl) (levelNum (level cfg))) as [|Hle]; [done|].
    destruct (Habove Hle) as (Hin & _). unfold no_op in Hnoop.
    rewrite Hnoop in Hin. by apply elem_of_nil in Hin.
  - intros Hwarn. split.
    + intros [-> | ->]; apply Hbelow; by rewrite Hwarn.
    + intros [-> | [-> | ->]]; apply Habove; by rewrite Hwarn.
Qed.

(** C9. Remote delivery.  A log call never throws and never leaves an
    unhandled rejection, whatever the network does; what it returns and the
    state it leaves do not depend on whether the POST fails.  A call below
    ERROR sends nothing to the remote endpoint.  With remote logging enabled
    and a non-empty endpoint configured, a call at ERROR or CRITICAL that
    passes the threshold sends exactly one POST, and if that POST fails the
    failure ends as one console warning of the logger. *)
Theorem remote_delivery_only_for_errors w lvl msg ctx d err st :
  let cfg := config st in
  let r := log w lvl msg ctx d err st in
  let entry := createLogEntry w lvl msg ctx d err in
  Eff.out r = Eff.Returned tt ∧
  (∀ ev, ev ∈ Eff.trace r → is_unhandled ev = false) ∧
  (∀ b, Eff.out (log (with_fetchRejects b w) lvl msg ctx d err st) = Eff.out r ∧
        Eff.final (log (with_fetchRejects b w) lvl msg ctx d err st) = Eff.final r) ∧
  (levelNum lvl < levelNum ERROR → ∀ ev, ev ∈ Eff.trace r → is_post ev = false) ∧
  (∀ endpoint,
     enableRemoteLogging cfg = true →
     remoteEndpoint cfg = Some endpoint →
     truthy endpoint = true →
     levelNum (level cfg) ≤ levelNum lvl →
     levelNum ERROR ≤ levelNum lvl →
     List.filter is_post (Eff.trace r) = [FetchPost endpoint entry (sessionId st)] ∧
     Eff.final r = storage_after w entry st ∧
     (fetchRejects w = true →
        Warning "Failed to send log to remote endpoint:"
                "TypeError: Failed to fetch" ∈ Eff.trace r)).
Proof.
  intros cfg r entry.
  assert (Hcon : ∀ ev, ev ∈ console_lines cfg entry →
                       is_post ev = false ∧ is_unhandled ev = false).
  { intros ev. unfold console_lines.
    destruct (enableConsole cfg); [|by intros ?%elem_of_nil].
    intros [->|Hin]%elem_of_cons; [done|].
    destruct (entry_level entry), (stack entry) as [stk|];
      try (by apply elem_of_nil in Hin);
      (destruct (truthy stk); [|by apply elem_of_nil in Hin]);
      by apply list_elem_of_singleton in Hin as ->. }
  assert (Hsto : ∀ ev, ev ∈ storage_lines cfg w entry (stored st) →
                       is_post ev = false ∧ is_unhandled ev = false).
  { intros ev. unfold storage_lines.
    destruct (storage_enabled cfg w); [|by intros ?%elem_of_nil].
    destruct (setItemThrows w); by intros ->%list_elem_of_singleton. }
  assert (Hrem : ∀ ev, ev ∈ remote_lines cfg (sessionId st) w entry →
                       is_unhandled ev = false).
  { intros ev. unfold remote_lines.
    destruct (remoteEndpoint cfg) as [endpoint|]; [|by intros ?%elem_of_nil].
    destruct (_ && _); [|by intros ?%elem_of_nil].
    intros [->|Hin]%elem_of_cons; [done|].
    destruct (fetchRejects w); [|by apply elem_of_nil in Hin].
    by apply list_elem_of_singleton in Hin as ->. }
  assert (Hfilter : ∀ l : list (Event D),
            (∀ ev, ev ∈ l → is_post ev = false) → List.filter is_post l = []).
  { induction l as [|ev l IH]; intros Hl; [done|]. simpl.
    rewrite (Hl ev) by left. apply IH. intros ev' Hin. apply Hl. by right. }
  split_and!.
  - apply log_returns.
  - intros ev. unfold r. rewrite log_run. fold cfg entry.
    destruct (shouldLog cfg lvl); cbn [Eff.trace]; [|by intros ?%elem_of_nil].
    intros [Hin|[Hin|Hin]%elem_of_app]%elem_of_app.
    + by apply Hcon.
    + by apply Hsto.
    + destruct (levelNum ERROR <=? levelNum lvl); [by apply Hrem|].
      by apply elem_of_nil in Hin.
  - intros b. unfold r. rewrite !log_run. fold cfg.
    destruct (shouldLog cfg lvl); done.
  - intros Hlow ev. unfold r. rewrite log_run. fold cfg entry.
    destruct (shouldLog cfg lvl); cbn [Eff.trace]; [|by intros ?%elem_of_nil].
    destruct (Z.leb_spec (levelNum ERROR) (levelNum lvl)); [lia|].
    rewrite app_nil_r.
    intros [Hin|Hin]%elem_of_app; [by apply Hcon | by apply Hsto].
  - intros endpoint Hen Hep Htruthy Hlvl Herr.
    assert (Hlog : shouldLog cfg lvl = true) by by apply Z.leb_le.
    unfold r. rewrite log_run. fold cfg entry. rewrite Hlog.
    cbn [Eff.trace Eff.final].
    destruct (Z.leb_spec (levelNum ERROR) (levelNum lvl)); [|lia].
    unfold remote_lines at 1 2. rewrite Hep, Hen, Htruthy. cbn [andb].
    split_and!.
    + rewrite !List.filter_app.
      rewrite (Hfilter (console_lines cfg entry)) by (intros; by apply Hcon).
      rewrite (Hfilter (storage_lines _ _ _ _)) by (intros; by apply Hsto).
      simpl. by destruct (fetchRejects w).
    + done.
    + intros ->. apply elem_of_app. right. apply elem_of_app. right.
      right. left.
Qed.
End LoggerProperties.

(** C2 as the code has it, at a concrete input: two entries, one expired at
    the time of the sweep. *)
Lemma cleanup_then_stats_only_live_witness :
  let calls := [Cache.mkSetCall Cache.clients 7 [] 1 0;
                Cache.mkSetCall Cache.deals 8 [] 1000 0] in
  let cache := Cache.run_sets calls JsMap.empty in
  Cache.keys (Cache.getStats (Cache.cleanup 2 cache)) = [Cache.deals] ∧
  Cache.size (Cache.getStats (Cache.cleanup 2 cache)) = 1%nat ∧
  Cache.clients ∉ Cache.keys (Cache.getStats (Cache.cleanup 2 cache)).
Proof.
  intros calls cache.
  destruct (cleanup_then_stats_only_live calls 2) as (Hkeys & Hsize & Hexp & _).
  split_and!.
  - exact Hkeys.
  - exact Hsize.
  - apply (Hexp Cache.clients (Cache.mkEntry 7 1 [])); [reflexivity | simpl; lia].
Defined.

(** C7 at a concrete input: a cap of two entries, three INFO calls. *)
Lemma logger_bounded_storage_witness :
  let cfg := Logger.mkConfig Logger.INFO true true 2 false None in
  let st := Logger.mkState cfg "session_1" (None : option (list (Logger.LogEntry Z))) in
  let w t := Logger.mkWorld t t "abc" (Some (Logger.mkWindow "agent" "http://localhost/"))
               false false in
  let c1 := Logger.mkLogCall (w 1) Logger.INFO "first" None (Some 1) None in
  let c2 := Logger.mkLogCall (w 2) Logger.WARN "second" None (Some 2) None in
  let c3 := Logger.mkLogCall (w 3) Logger.ERROR "third" None (Some 3) None in
  Logger.stored (Eff.final (Logger.run_logs [c1; c2; c3] st))
  = [Logger.entry_of c3; Logger.entry_of c2].
Proof.
  intros cfg st w c1 c2 c3.
  destruct (logger_bounded_storage [c1; c2; c3] st) as (_ & Htake & _ & _).
  - reflexivity.
  - simpl. lia.
  - intros c Hin.
    apply elem_of_cons in Hin as [->|Hin]; [by vm_compute|].
    apply elem_of_cons in Hin as [->|Hin]; [by vm_compute|].
    apply list_elem_of_singleton in Hin as ->. by vm_compute.
  - simpl. lia.
  - exact Htake.
Defined.

(** C8 at a concrete input: threshold WARN; an INFO call is a no-op, an ERROR
    call is printed and stored. *)
Lemma logger_level_filter_witness :
  let cfg := Logger.mkConfig Logger.WARN true true 1000 false None in
  let st := Logger.mkState cfg "session_1" (None : option (list (Logger.LogEntry Z))) in
  let w := Logger.mkWorld 5 5 "abc" (Some (Logger.mkWindow "agent" "http://localhost/"))
             false false in
  Logger.log w Logger.INFO "quiet" None None None st
    = Eff.mkResult (Eff.Returned tt) st [] ∧
  Logger.stored (Eff.final (Logger.log w Logger.ERROR "loud" None None None st))
    = [Logger.createLogEntry w Logger.ERROR "loud" None None None].
Proof.
  intros cfg st w. split.
  - destruct (logger_level_filter w Logger.INFO "quiet" None None None st)
      as (Hbelow & _); [reflexivity | reflexivity | discriminate | reflexivity |].
    apply Hbelow. simpl. lia.
  - destruct (logger_level_filter w Logger.ERROR "loud" None None None st)
      as (_ & Habove & _); [reflexivity | reflexivity | discriminate | reflexivity |].
    destruct Habove as (_ & _ & Hstored & _); [simpl; lia|].
    exact Hstored.
Defined.

(** C9 at a concrete input: remote logging enabled, the POST fails; the call
    returns, one POST was attempted, and the failure is a console warning. *)
Lemma remote_delivery_only_for_errors_witness :
  let cfg := Logger.mkConfig Logger.INFO false false 1000 true
               (Some "https://logs.example/ingest") in
  let st := Logger.mkState cfg "session_1" (None : option (list (Logger.LogEntry Z))) in
  let w := Logger.mkWorld 5 5 "abc" None false true in
  let r := Logger.log w Logger.CRITICAL "boom" (Some "api") None None st in
  let entry := Logger.createLogEntry w Logger.CRITICAL "boom" (Some "api") None None in
  Eff.out r = Eff.Returned tt ∧
  Eff.trace r = [Logger.FetchPost "https://logs.example/ingest" entry "session_1";
                 Logger.Warning "Failed to send log to remote endpoint:"
                                "TypeError: Failed to fetch"].
Proof.
  intros cfg st w r entry.
  destruct (remote_delivery_only_for_errors w Logger.CRITICAL "boom" (Some "api")
              None None st) as (Hout & _ & _ & _ & _).
  split; [exact Hout | reflexivity].
Defined.


(** * Further properties of the cache manager *)

Section CacheMore.
Context {T : Type}.
Implicit Types (cache : Cache.store T) (k key : Cache.CacheKey)
  (e : Cache.CacheEntry T).

Lemma observe_lookup key now cache :
  CacheOps.observe key now cache =
  match JsMap.get key cache with
  | Some e => if decide (now ≤ Cache.timestamp e) then Some (Cache.data e) else None
  | None => None
  end.
Proof.
  unfold CacheOps.observe, Cache.get.
  destruct (JsMap.get key cache) as [e|]; [|done].
  destruct (Z.gtb_spec now (Cache.timestamp e)).
  - rewrite decide_False by lia. done.
  - rewrite decide_True by lia. done.
Qed.

(** X1. The expiry bound is inclusive, for every TTL: after
    [set(k, v, deps, ttl)] at time [t], a read at time [now] returns [v]
    exactly when [now <= t + ttl].  An entry is still served at its expiry
    instant; with [ttl = 0] it is served only at the instant it was set;
    with a negative [ttl] it is never served. *)
Theorem get_after_set_iff k (v : T) deps ttl t now cache :
  let c := Cache.set k v deps ttl t cache in
  (now ≤ t + ttl →
     Cache.get k now c = (Some v, c) ∧ Cache.has k now c = true) ∧
  (t + ttl < now →
     Cache.get k now c = (None, JsMap.delete k c) ∧ Cache.has k now c = false) ∧
  (CacheOps.observe k now c = Some v ↔ now ≤ t + ttl).
Proof.
  intros c.
  assert (Hg : JsMap.get k c = Some (Cache.mkEntry v (t + ttl) deps))
    by apply jsmap_get_set_eq.
  split_and!.
  - intros Hle. split.
    + by apply (get_live _ _ _ _ Hg).
    + unfold Cache.has. rewrite Hg. by apply Z.leb_le.
  - intros Hlt. split.
    + by apply (get_expired _ _ _ _ Hg).
    + unfold Cache.has. rewrite Hg. by apply Z.leb_gt.
  - rewrite observe_lookup, Hg. simpl. case_decide; naive_solver.
Qed.

Lemma jsmap_size_set {K V} `{EqDecision K} (k : K) (v : V) (m : JsMap.t K V) :
  JsMap.size (JsMap.set k v m) =
  if decide (k ∈ JsMap.keys m) then JsMap.size m else S (JsMap.size m).
Proof.
  assert (Hlen : ∀ m' : JsMap.t K V, JsMap.size m' = length (JsMap.keys m')).
  { intros m'. unfold JsMap.size, JsMap.keys. by rewrite length_fmap. }
  rewrite !Hlen, jsmap_keys_set. case_decide; [done|].
  rewrite length_app. simpl. lia.
Qed.

(** X3. [set] touches one key only.  Reading any other key gives what it gave
    before; overwriting a key that is bound keeps the number of entries and
    the order of the keys; setting a new key adds one entry, last. *)
Theorem set_touches_one_key k (v : T) deps ttl t cache :
  let c := Cache.set k v deps ttl t cache in
  (∀ k' now, k' ≠ k →
     CacheOps.observe k' now c = CacheOps.observe k' now cache ∧
     Cache.has k' now c = Cache.has k' now cache) ∧
  (k ∈ Cache.keys (Cache.getStats cache) →
     Cache.keys (Cache.getStats c) = Cache.keys (Cache.getStats cache) ∧
     Cache.size (Cache.getStats c) = Cache.size (Cache.getStats cache)) ∧
  (k ∉ Cache.keys (Cache.getStats cache) →
     Cache.keys (Cache.getStats c) = Cache.keys (Cache.getStats cache) ++ [k] ∧
     Cache.size (Cache.getStats c) = S (Cache.size (Cache.getStats cache))).
Proof.
  intros c. unfold Cache.getStats. cbn [Cache.keys Cache.size]. split_and!.
  - intros k' now Hne. rewrite !observe_lookup. unfold Cache.has, c, Cache.set.
    by rewrite jsmap_get_set_ne.
  - intros Hin. unfold c, Cache.set.
    rewrite jsmap_keys_set, jsmap_size_set. by rewrite !decide_True.
  - intros Hnin. unfold c, Cache.set.
    rewrite jsmap_keys_set, jsmap_size_set. by rewrite !decide_False.
Qed.
End CacheMore.

(** X2. [has] against [get].  [has(k)] is true exactly when [get(k)] at that
    time finds an unexpired entry and returns its payload.  Since [get]
    returns the payload itself and answers [null] for a miss, a result of
    [get(k)] other than [null] implies [has(k)]; the converse fails exactly
    for a payload that is [null]: then [has(k)] is true while the caller of
    [get(k)] is handed [null], as for a miss. *)
Theorem has_iff_live_entry {D} (key : Cache.CacheKey) (now : Z)
    (c : Cache.store (option D)) :
  (Cache.has key now c = true ↔
     ∃ entry, JsMap.get key c = Some entry ∧ now ≤ Cache.timestamp entry ∧
          Cache.get key now c = (Some (Cache.data entry), c)) ∧
  (Cache.has key now c = false ↔ CacheOps.observe key now c = None) ∧
  (Cache.handed (CacheOps.observe key now c) ≠ None → Cache.has key now c = true) ∧
  (Cache.has key now c = true ∧ Cache.handed (CacheOps.observe key now c) = None ↔
     ∃ entry, JsMap.get key c = Some entry ∧ now ≤ Cache.timestamp entry ∧
          Cache.data entry = None).
Proof.
  rewrite observe_lookup. unfold Cache.has, Cache.get.
  destruct (JsMap.get key c) as [e|].
  - destruct (Z.gtb_spec now (Cache.timestamp e)).
    + rewrite decide_False by lia.
      rewrite (proj2 (Z.leb_gt _ _)) by lia. cbn [Cache.handed].
      split_and!; [| done | done |].
      * split; [done|]. intros (e' & [= <-] & ? & _). lia.
      * split; [by intros [? _]|]. intros (e' & [= <-] & ? & _). lia.
    + rewrite decide_True by lia.
      rewrite (proj2 (Z.leb_le _ _)) by lia. cbn [Cache.handed].
      split_and!; [| done | done |].
      * split; [|done]. intros _. by exists e.
      * split.
        -- intros [_ Hnull]. by exists e.
        -- by intros (e' & [= <-] & _ & ->).
  - cbn [Cache.handed]. split_and!; [| done | done |].
    + split; [done | by intros (? & ? & _)].
    + split; [by intros [? _] | by intros (? & ? & _)].
Qed.

(** X1 at a concrete input: read at the expiry instant, and one millisecond
    later. *)
Lemma get_after_set_iff_witness :
  let c := Cache.set Cache.deals 9 [] 1000 50 JsMap.empty in
  Cache.get Cache.deals 1050 c = (Some 9, c) ∧
  Cache.get Cache.deals 1051 c = (None, JsMap.delete Cache.deals c).
Proof.
  intros c.
  destruct (get_after_set_iff Cache.deals 9 [] 1000 50 1050 JsMap.empty)
    as (Hlive & _ & _).
  destruct (get_after_set_iff Cache.deals 9 [] 1000 50 1051 JsMap.empty)
    as (_ & Hdead & _).
  split.
  - apply Hlive. lia.
  - apply Hdead. lia.
Defined.

(** X2 at a concrete input: a [null] payload is there for [has], and [get]
    hands out [null]. *)
Lemma has_iff_live_entry_witness :
  let c := Cache.set Cache.deals (None : option Z) [] 1000 0 JsMap.empty in
  Cache.has Cache.deals 7 c = true ∧
  Cache.handed (CacheOps.observe Cache.deals 7 c) = None.
Proof.
  intros c.
  destruct (has_iff_live_entry Cache.deals 7 c) as (_ & _ & _ & Hnull).
  apply Hnull.
  exists (Cache.mkEntry None 1000 []). split_and!; [reflexivity | simpl; lia | reflexivity].
Defined.

(** X3 at a concrete input: overwriting [clients] in a store of two. *)
Lemma set_touches_one_key_witness :
  let cache := Cache.set Cache.deals 2 [] 10 0 (Cache.set Cache.clients 1 [] 10 0 JsMap.empty) in
  Cache.keys (Cache.getStats (Cache.set Cache.clients 3 [] 10 5 cache))
  = [Cache.clients; Cache.deals].
Proof.
  intros cache.
  destruct (set_touches_one_key Cache.clients 3 [] 10 5 cache) as (_ & Hold & _).
  destruct Hold as [Hkeys _]; [by compute_done|].
  exact Hkeys.
Defined.

Section CacheInvariants.
Context {T : Type}.
Implicit Types (cache : Cache.store T) (k key : Cache.CacheKey)
  (e : Cache.CacheEntry T).

Lemma wf_step cache (timed : Z * CacheOps.Op T) :
  JsMap.wf cache → JsMap.wf (CacheOps.step cache timed).
Proof.
  intros Hwf. destruct timed as [now op]. unfold CacheOps.step. simpl.
  destruct op; try done.
  - by apply wf_set.
  - by apply wf_get.
  - by apply wf_invalidate.
  - apply jsmap_wf_empty.
  - by apply wf_cleanup.
  - by do 2 apply wf_invalidate.
  - by do 2 apply wf_invalidate.
  - by do 2 apply wf_invalidate.
  - by do 2 apply wf_invalidate.
Qed.

Lemma wf_run ops cache : JsMap.wf cache → JsMap.wf (CacheOps.run ops cache).
Proof.
  revert cache. induction ops as [|op ops IH]; intros cache Hwf; [done|].
  simpl. by apply IH, wf_step.
Qed.

Lemma all_keys key :
  key ∈ [Cache.dashboard; Cache.clients; Cache.deals; Cache.activities;
         Cache.notifications].
Proof. destruct key; compute_done. Qed.

(** X4. Whatever sequence of operations is applied to a new cache manager,
    [getStats()] never lists a key twice, its [size] is the number of keys it
    lists, and that number is at most five, the number of cache keys. *)
Theorem stats_never_exceed_keyspace (ops : list (Z * CacheOps.Op T)) :
  let stats := Cache.getStats (CacheOps.run ops JsMap.empty) in
  NoDup (Cache.keys stats) ∧
  Cache.size stats = length (Cache.keys stats) ∧
  (Cache.size stats ≤ 5)%nat.
Proof.
  intros stats.
  assert (Hwf : JsMap.wf (CacheOps.run ops (JsMap.empty : Cache.store T)))
    by apply wf_run, jsmap_wf_empty.
  assert (Hsize : Cache.size stats = length (Cache.keys stats)).
  { unfold stats, Cache.getStats, JsMap.size, JsMap.keys. simpl.
    by rewrite length_fmap. }
  split_and!; [done | done |].
  rewrite Hsize.
  change 5%nat with (length [Cache.dashboard; Cache.clients; Cache.deals;
                             Cache.activities; Cache.notifications]).
  apply submseteq_length, NoDup_submseteq; [done|].
  intros key _. apply all_keys.
Qed.

(** X5. Invalidation is idempotent and the order of two invalidations does
    not matter: [invalidate(k)] twice is [invalidate(k)] once, and
    [invalidate(a); invalidate(b)] leaves the store [invalidate(b);
    invalidate(a)] leaves. *)
Theorem invalidate_idempotent_commutes a b cache :
  JsMap.wf cache →
  Cache.invalidate a (Cache.invalidate a cache) = Cache.invalidate a cache ∧
  Cache.invalidate a (Cache.invalidate b cache)
  = Cache.invalidate b (Cache.invalidate a cache).
Proof.
  intros Hwf.
  rewrite !(invalidate_filter _ (Cache.invalidate _ _)) by by apply wf_invalidate.
  rewrite !(invalidate_filter _ cache) by done.
  rewrite !list_filter_filter. split; apply list_filter_iff; intros [k e]; tauto.
Qed.

Lemma invalidate_then_dashboard k cache :
  JsMap.wf cache →
  Cache.invalidate Cache.dashboard (Cache.invalidate k cache)
  = CacheOps.without_resource k cache.
Proof.
  intros Hwf. unfold CacheOps.without_resource.
  rewrite (invalidate_filter _ (Cache.invalidate _ _)) by by apply wf_invalidate.
  rewrite (invalidate_filter _ cache) by done.
  rewrite list_filter_filter. apply list_filter_iff. intros [k' e]. tauto.
Qed.

(** X6. The four helpers [invalidateClientCache], [invalidateDealCache],
    [invalidateActivityCache] and [invalidateNotificationCache] remove the
    entry of their resource, the [dashboard] entry, and every entry that
    lists either as a dependency; every other entry stays, in order.  After
    the helper neither the resource nor [dashboard] can be read, and an entry
    that is unrelated to both reads as before. *)
Theorem invalidate_helpers cache :
  JsMap.wf cache →
  Cache.invalidateClientCache cache = CacheOps.without_resource Cache.clients cache ∧
  Cache.invalidateDealCache cache = CacheOps.without_resource Cache.deals cache ∧
  Cache.invalidateActivityCache cache = CacheOps.without_resource Cache.activities cache ∧
  Cache.invalidateNotificationCache cache
    = CacheOps.without_resource Cache.notifications cache ∧
  ∀ k now,
    CacheOps.observe k now (CacheOps.without_resource k cache) = None ∧
    CacheOps.observe Cache.dashboard now (CacheOps.without_resource k cache) = None ∧
    ∀ k' e, JsMap.get k' cache = Some e →
            k' ≠ k → k' ≠ Cache.dashboard →
            k ∉ Cache.dependencies e → Cache.dashboard ∉ Cache.dependencies e →
            CacheOps.observe k' now (CacheOps.without_resource k cache)
            = CacheOps.observe k' now cache.
Proof.
  intros Hwf.
  split_and!; try by apply invalidate_then_dashboard.
  intros k now.
  assert (Hl : ∀ k', JsMap.get k' (CacheOps.without_resource k cache) =
            match JsMap.get k' cache with
            | Some e =>
                if decide (k' ≠ k ∧ k' ≠ Cache.dashboard ∧
                           (k ∉ Cache.dependencies e) ∧
                           (Cache.dashboard ∉ Cache.dependencies e))
                then Some e else None
            | None => None
            end).
  { intros k'. unfold CacheOps.without_resource. by rewrite jsmap_get_filter_wf. }
  split_and!.
  - rewrite observe_lookup, Hl.
    destruct (JsMap.get k cache); [|done].
    rewrite decide_False; [done | by intros [? _]].
  - rewrite observe_lookup, Hl.
    destruct (JsMap.get Cache.dashboard cache); [|done].
    rewrite decide_False; [done | by intros (_ & ? & _)].
  - intros k' e Hg ? ? ? ?. rewrite !observe_lookup, Hl, Hg.
    by rewrite decide_True.
Qed.

(** X7. [cleanup()] cannot be noticed through reads: for a sweep at time
    [now] and any later (or equal) time [t], [get] and [has] of every key
    give after the sweep what they gave before.  Two sweeps amount to one
    sweep at the later time, so sweeping twice at one time changes nothing
    more. *)
Theorem cleanup_is_unobservable now cache :
  JsMap.wf cache →
  (∀ k t, now ≤ t →
     CacheOps.observe k t (Cache.cleanup now cache) = CacheOps.observe k t cache ∧
     Cache.has k t (Cache.cleanup now cache) = Cache.has k t cache) ∧
  (∀ now', Cache.cleanup now' (Cache.cleanup now cache)
           = Cache.cleanup (Z.max now now') cache) ∧
  Cache.cleanup now (Cache.cleanup now cache) = Cache.cleanup now cache.
Proof.
  intros Hwf.
  assert (Htwice : ∀ now', Cache.cleanup now' (Cache.cleanup now cache)
                           = Cache.cleanup (Z.max now now') cache).
  { intros now'.
    rewrite (cleanup_filter now' (Cache.cleanup _ _)) by by apply wf_cleanup.
    rewrite !(cleanup_filter _ cache) by done.
    rewrite list_filter_filter. apply list_filter_iff. intros [k e]. simpl. lia. }
  split_and!; [| done | by rewrite Htwice, Z.max_id].
  intros k t Hle.
  assert (Hl : JsMap.get k (Cache.cleanup now cache) =
            match JsMap.get k cache with
            | Some e => if decide (now ≤ Cache.timestamp e) then Some e else None
            | None => None
            end).
  { rewrite cleanup_filter by done. by rewrite jsmap_get_filter_wf. }
  rewrite !observe_lookup. unfold Cache.has. rewrite Hl.
  destruct (JsMap.get k cache) as [e|]; [|done].
  destruct (decide (now ≤ Cache.timestamp e)); [done|].
  rewrite decide_False by lia. split; [done|]. symmetry. apply Z.leb_gt. lia.
Qed.

(** X8. The eviction done by [get] cannot be noticed either: after
    [get(k)] at time [now], every read of any key at a later (or equal) time
    gives what it would have given without that [get]; and [get] never adds
    an entry. *)
Theorem get_eviction_is_unobservable k now cache :
  let after := (Cache.get k now cache).2 in
  (∀ k' t, now ≤ t →
     CacheOps.observe k' t after = CacheOps.observe k' t cache ∧
     Cache.has k' t after = Cache.has k' t cache) ∧
  (Cache.size (Cache.getStats after) ≤ Cache.size (Cache.getStats cache))%nat.
Proof.
  intros after. unfold after, Cache.get.
  destruct (JsMap.get k cache) as [e|] eqn:Hg; [|by split].
  destruct (Z.gtb_spec now (Cache.timestamp e)) as [Hexp|]; [|by split].
  cbn [snd]. split.
  - intros k' t Hle. rewrite !observe_lookup. unfold Cache.has.
    destruct (decide (k = k')) as [<-|Hne].
    + rewrite jsmap_get_delete_eq, Hg. rewrite decide_False by lia.
      split; [done|]. symmetry. apply Z.leb_gt. lia.
    + by rewrite jsmap_get_delete_ne.
  - unfold Cache.getStats, JsMap.size, JsMap.delete. simpl. apply length_filter.
Qed.
End CacheInvariants.

(** X5 at a concrete input. *)
Lemma invalidate_idempotent_commutes_witness :
  let cache := Cache.set Cache.dashboard 3 [Cache.clients; Cache.deals] 10 0
                 (Cache.set Cache.clients 1 [] 10 0 JsMap.empty) in
  Cache.invalidate Cache.clients (Cache.invalidate Cache.deals cache)
  = Cache.invalidate Cache.deals (Cache.invalidate Cache.clients cache).
Proof.
  intros cache.
  destruct (invalidate_idempotent_commutes Cache.clients Cache.deals cache)
    as [_ Hcomm]; [by compute_done | exact Hcomm].
Defined.

(** X6 at a concrete input: [activities] is unrelated to clients and
    dashboard and survives [invalidateClientCache]. *)
Lemma invalidate_helpers_witness :
  let cache := Cache.set Cache.activities 4 [Cache.deals] 10 0
                 (Cache.set Cache.dashboard 3 [Cache.clients] 10 0
                    (Cache.set Cache.clients 1 [] 10 0 JsMap.empty)) in
  Cache.invalidateClientCache cache
  = [(Cache.activities, Cache.mkEntry 4 10 [Cache.deals])].
Proof.
  intros cache.
  destruct (invalidate_helpers cache) as (-> & _); [by compute_done|].
  reflexivity.
Defined.

(** X7 at a concrete input. *)
Lemma cleanup_is_unobservable_witness :
  let cache := Cache.set Cache.deals 2 [] 100 0
                 (Cache.set Cache.clients 1 [] 1 0 JsMap.empty) in
  CacheOps.observe Cache.deals 50 (Cache.cleanup 50 cache) = Some 2 ∧
  CacheOps.observe Cache.clients 50 (Cache.cleanup 50 cache) = None.
Proof.
  intros cache.
  destruct (cleanup_is_unobservable 50 cache) as (Hsame & _ & _);
    [by compute_done|].
  destruct (Hsame Cache.deals 50) as [-> _]; [lia|].
  destruct (Hsame Cache.clients 50) as [-> _]; [lia|].
  split; reflexivity.
Defined.

(** X8 at a concrete input. *)
Lemma get_eviction_is_unobservable_witness :
  let cache := Cache.set Cache.clients 1 [] 1 0 JsMap.empty in
  CacheOps.observe Cache.clients 9 (Cache.get Cache.clients 5 cache).2 = None.
Proof.
  intros cache.
  destruct (get_eviction_is_unobservable Cache.clients 5 cache) as [Hsame _].
  destruct (Hsame Cache.clients 9) as [-> _]; [lia | reflexivity].
Defined.

(** * Further properties of the connection monitor *)

Section EnvironmentMore.
Import Environment.
Implicit Types (st : State) (now : Z) (net : FetchResult).

Lemma isSupabaseAvailable_out now net st :
  Eff.out (isSupabaseAvailable now net st)
  = Eff.Returned
      (bool_decide (supabaseConnectionStatus
                      (Eff.final (isSupabaseAvailable now net st)) = connected)).
Proof.
  destruct (recently_checked now st) eqn:Hrc.
  - by rewrite isSupabaseAvailable_cached.
  - destruct (isSupabaseConfigured (defaultConfig st)) eqn:Hcfg.
    + by rewrite isSupabaseAvailable_probe.
    + by rewrite isSupabaseAvailable_unconfigured.
Qed.

(** X9. [isSupabaseAvailable] always returns (it never throws), its answer
    is true exactly when the status it leaves is [connected], it sends at
    most one request, and it never changes the configuration. *)
Theorem isSupabaseAvailable_answer now net st :
  let r := isSupabaseAvailable now net st in
  Eff.out r
    = Eff.Returned (bool_decide (supabaseConnectionStatus (Eff.final r) = connected)) ∧
  defaultConfig (Eff.final r) = defaultConfig st ∧
  (fetches (Eff.trace r) ≤ 1)%nat.
Proof.
  intros r. unfold r.
  destruct (recently_checked now st) eqn:Hrc.
  - rewrite isSupabaseAvailable_cached by done. cbn. split_and!; [done | done | lia].
  - destruct (isSupabaseConfigured (defaultConfig st)) eqn:Hcfg.
    + rewrite isSupabaseAvailable_probe by done. cbn [Eff.out Eff.final Eff.trace].
      rewrite fetches_probe_trace. done.
    + rewrite isSupabaseAvailable_unconfigured by done. cbn.
      split_and!; [done | done | lia].
Qed.

(** X10. Without a configured service no request is ever sent: when the URL
    or the key is empty, [isSupabaseAvailable] emits nothing at all, at any
    time and whatever the network would answer; and unless the state already
    claimed [connected], it answers false and leaves a status other than
    [connected], so from the initial state every call answers false. *)
Theorem unconfigured_never_fetches now net st :
  isSupabaseConfigured (defaultConfig st) = false →
  let r := isSupabaseAvailable now net st in
  Eff.trace r = [] ∧
  (supabaseConnectionStatus st ≠ connected →
     Eff.out r = Eff.Returned false ∧
     supabaseConnectionStatus (Eff.final r) ≠ connected ∧
     isSupabaseConfigured (defaultConfig (Eff.final r)) = false).
Proof.
  intros Hcfg r. unfold r.
  destruct (recently_checked now st) eqn:Hrc.
  - rewrite isSupabaseAvailable_cached by done. cbn. split; [done|].
    intros Hnc. by rewrite bool_decide_eq_false_2.
  - rewrite isSupabaseAvailable_unconfigured by done. cbn. done.
Qed.

(** X11. [resetConnectionStatus()] and [enableMockData(b)] discard the
    cooldown: the next [isSupabaseAvailable], at whatever time it is made,
    re-evaluates the connection; it stamps the check with its own time and,
    when the service is configured, sends exactly one request whose answer
    decides the result. *)
Theorem reset_discards_cooldown now net st (b : bool) :
  let after_reset := Eff.final (resetConnectionStatus st) in
  let after_flag := Eff.final (enableMockData b st) in
  (∀ st', st' = after_reset ∨ st' = after_flag →
     let r := isSupabaseAvailable now net st' in
     recently_checked now st' = false ∧
     lastConnectionCheck (Eff.final r) = now ∧
     (isSupabaseConfigured (defaultConfig st) = true →
        fetches (Eff.trace r) = 1%nat ∧
        Eff.out r = Eff.Returned (bool_decide (probed_status net = connected)))) ∧
  Config.enableMockData (defaultConfig after_flag) = b ∧
  defaultConfig after_reset = defaultConfig st.
Proof.
  intros after_reset after_flag. split_and!; [|done|done].
  intros st' Hst' r.
  assert (Hrc : recently_checked now st' = false).
  { unfold recently_checked. apply andb_false_intro2.
    destruct Hst' as [-> | ->]; done. }
  assert (Hcfg : isSupabaseConfigured (defaultConfig st')
                 = isSupabaseConfigured (defaultConfig st))
    by (destruct Hst' as [-> | ->]; done).
  split; [done|]. unfold r.
  destruct (isSupabaseConfigured (defaultConfig st)) eqn:Hc.
  - rewrite isSupabaseAvailable_probe by done. cbn [Eff.out Eff.final Eff.trace].
    rewrite fetches_probe_trace. done.
  - rewrite isSupabaseAvailable_unconfigured by done. cbn. split; [done|].
    intros [=].
Qed.

(** X12. In the development posture with the force flag unset,
    [shouldUseMockData] is the negation of [isSupabaseAvailable]: it makes
    the same check, with the same events and the same final state, and
    answers the opposite. *)
Theorem dev_posture_negates_availability now net st :
  Config.enableMockData (defaultConfig st) = false →
  Config.isDevelopment (defaultConfig st) = true →
  let r := shouldUseMockData now net st in
  let a := isSupabaseAvailable now net st in
  Eff.out r
    = Eff.Returned (negb (bool_decide (supabaseConnectionStatus (Eff.final a) = connected))) ∧
  Eff.final r = Eff.final a ∧
  Eff.trace r = Eff.trace a.
Proof.
  intros Hflag Hdev r a. unfold r, shouldUseMockData. eff_run.
  rewrite Hflag, Hdev.
  pose proof (isSupabaseAvailable_out now net st) as Hout.
  fold a in Hout. rewrite run_bind. fold a. rewrite Hout. eff_run.
  by rewrite app_nil_r.
Qed.
(** The availability check and the decision, run to completion, are their
    first task followed at once by the resumption with the network's
    answer. *)
Lemma isSupabaseAvailable_by_tasks now net st :
  isSupabaseAvailable now net st =
  (answer ← begin_check now;
   match answer with
   | Some available => mret available
   | None => resume_check now net
   end) st.
Proof.
  unfold isSupabaseAvailable, begin_check, resume_check, fetch_head,
    set_status, set_lastCheck.
  eff_unfold.
  destruct (recently_checked now st); [done|].
  destruct (isSupabaseConfigured (defaultConfig st)); cbn [negb]; [|done].
  destruct net as [ok|reason]; cbn; done.
Qed.

Lemma shouldUseMockData_by_tasks now net st :
  shouldUseMockData now net st =
  (answer ← begin_decision now;
   match answer with
   | Some useMock => mret useMock
   | None => available ← resume_check now net; mret (negb available)
   end) st.
Proof.
  unfold shouldUseMockData, begin_decision, isSupabaseAvailable, begin_check,
    resume_check, fetch_head, set_status, set_lastCheck.
  eff_unfold.
  destruct (Config.enableMockData (defaultConfig st)); [done|].
  destruct (Config.isDevelopment (defaultConfig st)); [|done].
  destruct (recently_checked now st); [done|].
  destruct (isSupabaseConfigured (defaultConfig st)); cbn [negb]; [|done].
  destruct net as [ok|reason]; cbn; done.
Qed.
End EnvironmentMore.

(** X10 at a concrete input: no key configured, development posture. *)
Lemma unconfigured_never_fetches_witness :
  let cfg := Environment.Config.mk "https://x.supabase.co" "" true false false
               10000 300000 in
  let r := Environment.isSupabaseAvailable 70000 (Environment.Response true)
             (Environment.initial cfg) in
  Eff.trace r = [] ∧ Eff.out r = Eff.Returned false.
Proof.
  intros cfg r.
  destruct (unconfigured_never_fetches 70000 (Environment.Response true)
              (Environment.initial cfg)) as [Htrace Hrest]; [reflexivity|].
  destruct Hrest as (Hout & _ & _); [discriminate|].
  split; [exact Htrace | exact Hout].
Defined.

(** X11 at a concrete input: a connected state checked one second ago is
    probed again right after a reset. *)
Lemma reset_discards_cooldown_witness :
  let cfg := Environment.Config.mk "https://x.supabase.co" "key" true false false
               10000 300000 in
  let st := Environment.mkState cfg Environment.connected 99000 in
  let st' := Eff.final (Environment.resetConnectionStatus st) in
  Environment.fetches
    (Eff.trace (Environment.isSupabaseAvailable 100000 (Environment.Rejected "down") st'))
  = 1%nat.
Proof.
  intros cfg st st'.
  destruct (reset_discards_cooldown 100000 (Environment.Rejected "down") st true)
    as (Hnext & _ & _).
  destruct (Hnext st') as (_ & _ & Hprobe); [by left|].
  destruct Hprobe as [Hn _]; [reflexivity | exact Hn].
Defined.

(** X12 at a concrete input: development posture, the service unreachable. *)
Lemma dev_posture_negates_availability_witness :
  let cfg := Environment.Config.mk "https://x.supabase.co" "key" true false false
               10000 300000 in
  Eff.out (Environment.shouldUseMockData 100000 (Environment.Rejected "down")
             (Environment.initial cfg))
  = Eff.Returned true.
Proof.
  intros cfg.
  destruct (dev_posture_negates_availability 100000 (Environment.Rejected "down")
              (Environment.initial cfg)) as (Hout & _ & _);
    [reflexivity | reflexivity |].
  exact Hout.
Defined.

(** * Further properties of the health check *)

Section HealthMore.
Import Health.
Implicit Types (w : World) (st : State).

(** X13. The data-service probe makes exactly one query and changes no
    module variable, whatever the service does.  When the client throws
    [null] or [undefined], the [catch] block's read of [error.message] throws
    in turn and the probe rejects.  In every other case (data, an error, any
    other thrown value) it returns a record: [healthy] exactly when the query
    answered without error; [degraded] exactly when the answer is an error
    whose message contains both "relation" and "does not exist"; [unhealthy]
    otherwise.  The record carries an error text exactly when it is not
    healthy, and the response time is the time between the start and the
    answer. *)
Theorem checkSupabaseHealth_classifies w st :
  let r := checkSupabaseHealth w st in
  Eff.final r = st ∧
  Eff.trace r = [SelectCount "clients"] ∧
  (throws_nullish (answer w) = true → ∃ err, Eff.out r = Eff.Thrown err) ∧
  (throws_nullish (answer w) = false →
     ∃ s,
       Eff.out r = Eff.Returned s ∧
       service s = "supabase" ∧
       lastCheck s = stamped w ∧
       responseTime s = Some (answered w - startTime w) ∧
       (status s = healthy ↔ answer w = QueryData) ∧
       (status s = degraded ↔
          ∃ message, answer w = QueryError message ∧
                     str_includes message "relation" = true ∧
                     str_includes message "does not exist" = true) ∧
       (error s = None ↔ status s = healthy)).
Proof.
  intros r. unfold r. clear r.
  destruct (checkSupabaseHealth_effects w st) as [Hfinal Htrace].
  split_and!; [done | done | |].
  - intros Hans. destruct (checkSupabaseHealth_throws w st Hans) as [err ->].
    by exists err.
  - intros Hans.
    destruct (checkSupabaseHealth_returns w st Hans) as [s Hs].
    assert (Hout : Eff.out (checkSupabaseHealth w st) = Eff.Returned s)
      by by rewrite Hs.
    destruct (checkSupabaseHealth_status w st s Hout) as (Hname & Hhealthy & Hdegraded).
    exists s. split_and!; try done.
    + revert Hout. unfold checkSupabaseHealth, try_catch_value, probe_settled, probe_failed.
  eff_run.
      destruct (answer w) as [|message|[| |message]]; try discriminate; eff_run.
      * by intros [= <-].
      * destruct (_ && _); eff_run; by intros [= <-].
      * by intros [= <-].
    + revert Hout. unfold checkSupabaseHealth, try_catch_value, probe_settled, probe_failed.
  eff_run.
      destruct (answer w) as [|message|[| |message]]; try discriminate; eff_run.
      * by intros [= <-].
      * destruct (_ && _); eff_run; by intros [= <-].
      * by intros [= <-].
    + revert Hout. unfold checkSupabaseHealth, try_catch_value, probe_settled, probe_failed.
  eff_run.
      destruct (answer w) as [|message|[| |message]]; try discriminate; eff_run.
      * by intros [= <-].
      * destruct (_ && _); eff_run; by intros [= <-].
      * by intros [= <-].
Qed.

(** X14. The health snapshot is reused for 30 seconds.  A forced check on a
    module with no check in flight makes one query; when its probe returns a
    record it publishes a snapshot stamped with its entry time, and a later
    unforced check less than [HEALTH_CHECK_CACHE_DURATION] after that stamp
    returns that very snapshot, makes no query and changes nothing; from 30
    seconds on, and whenever it is forced, the check queries again.  When the
    probe rejects instead (the client threw [null] or [undefined]) the check
    rejects and publishes nothing. *)
Theorem health_snapshot_reuse w1 w2 st :
  healthCheckInProgress st = false →
  let r1 := checkSystemHealth true w1 st in
  (throws_nullish (answer w1) = false →
   ∃ h1,
    r1 = Eff.mkResult (Eff.Returned h1) (mkState (Some h1) false)
                      [SelectCount "clients"] ∧
    timestamp h1 = now w1 ∧
    (now w2 - now w1 < HEALTH_CHECK_CACHE_DURATION →
       checkSystemHealth false w2 (Eff.final r1)
       = Eff.mkResult (Eff.Returned h1) (Eff.final r1) []) ∧
    (HEALTH_CHECK_CACHE_DURATION ≤ now w2 - now w1 →
       Eff.trace (checkSystemHealth false w2 (Eff.final r1))
       = [SelectCount "clients"]) ∧
    Eff.trace (checkSystemHealth true w2 (Eff.final r1)) = [SelectCount "clients"]) ∧
  (throws_nullish (answer w1) = true →
   ∃ err,
    r1 = Eff.mkResult (Eff.Thrown err) (mkState (lastHealthCheck st) false)
                      [SelectCount "clients"]).
Proof.
  intros Hprog r1. unfold r1.
  rewrite checkSystemHealth_refreshes by (done || apply recent_forced).
  split; [|apply refresh_throws].
  intros Hans.
  destruct (refresh_returns w1 st Hans) as (s & _ & Hs). rewrite Hs.
  eexists. split; [reflexivity|]. cbn [Eff.final timestamp].
  split_and!; [done | | |].
  - intros Hwin. unfold checkSystemHealth. eff_run. unfold recent.
    cbn [lastHealthCheck timestamp negb andb].
    destruct (Z.ltb_spec (now w2 - now w1) HEALTH_CHECK_CACHE_DURATION); [|lia].
    by eff_run.
  - intros Hold. rewrite checkSystemHealth_refreshes.
    + apply refresh_trace.
    + unfold recent. cbn [lastHealthCheck timestamp negb andb].
      destruct (Z.ltb_spec (now w2 - now w1) HEALTH_CHECK_CACHE_DURATION);
        [lia | done].
    + done.
  - rewrite checkSystemHealth_refreshes by (done || apply recent_forced).
    apply refresh_trace.
Qed.

(** X15. A call that finds another check in flight.  An unforced call with a
    snapshot younger than 30 seconds returns it at once: it neither waits nor
    queries.  Every other call (forced, or with no snapshot that young)
    waits 100 ms and then returns whatever snapshot is published at that
    moment, however old, without a query of its own; a forced call therefore
    never gets its fresh result here.  Only when no snapshot exists after the
    wait does the call start a second refresh: it queries, clears the
    in-flight flag, and publishes and returns its snapshot, or rejects and
    publishes nothing when the probe rejects. *)
Theorem health_check_in_flight force w st :
  healthCheckInProgress st = true →
  let r := checkSystemHealth force w st in
  (∀ h, recent force w st = Some h →
        force = false ∧ lastHealthCheck st = Some h ∧
        now w - timestamp h < HEALTH_CHECK_CACHE_DURATION ∧
        r = Eff.mkResult (Eff.Returned h) st []) ∧
  (force = true → recent force w st = None) ∧
  (recent force w st = None →
     (∀ h, lastHealthCheck (meanwhile w st) = Some h →
           r = Eff.mkResult (Eff.Returned h) (meanwhile w st) [Sleep 100]) ∧
     (lastHealthCheck (meanwhile w st) = None →
        Eff.trace r = [Sleep 100; SelectCount "clients"] ∧
        (throws_nullish (answer w) = false →
           ∃ h, Eff.out r = Eff.Returned h ∧
                Eff.final r = mkState (Some h) false) ∧
        (throws_nullish (answer w) = true →
           ∃ err, Eff.out r = Eff.Thrown err ∧
                  Eff.final r = mkState None false))).
Proof.
  intros Hprog r. unfold r. clear r. split_and!.
  - intros h Hrecent. unfold checkSystemHealth. eff_run. rewrite Hrecent. eff_run.
    unfold recent in Hrecent.
    destruct (lastHealthCheck st) as [h0|]; [|done].
    destruct force; [done|]. cbn [negb andb] in Hrecent.
    destruct (Z.ltb_spec (now w - timestamp h0) HEALTH_CHECK_CACHE_DURATION);
      [|done].
    by simplify_eq.
  - intros ->. apply recent_forced.
  - intros Hrecent. rewrite checkSystemHealth_waits by done. split.
    + by intros h ->.
    + intros Hnone. rewrite Hnone. cbn [Eff.out Eff.final Eff.trace].
      rewrite refresh_trace. split_and!; [done | |].
      * intros Hans.
        destruct (refresh_returns w (meanwhile w st) Hans) as (s & _ & ->).
        by eexists.
      * intros Hans.
        destruct (refresh_throws w (meanwhile w st) Hans) as [err ->].
        exists err. by rewrite Hnone.
Qed.

(** X16. Readiness after a refresh.  When [isSupabaseReady] has to refresh
    (no reusable snapshot, no check in flight) and the probe returns a
    record, it answers true exactly when the data service answered the probe
    without error, and [isServiceHealthy] answers false for every service
    name other than "supabase".  When the probe rejects (the client threw
    [null] or [undefined]), [isServiceHealthy] and [isSupabaseReady] reject
    too: neither catches. *)
Theorem readiness_after_refresh w st :
  recent false w st = None →
  healthCheckInProgress st = false →
  (throws_nullish (answer w) = false →
     (Eff.out (isSupabaseReady w st) = Eff.Returned true ↔ answer w = QueryData) ∧
     (∃ b, Eff.out (isSupabaseReady w st) = Eff.Returned b) ∧
     (∀ name, name ≠ "supabase" →
        Eff.out (isServiceHealthy name w st) = Eff.Returned false)) ∧
  (throws_nullish (answer w) = true →
     (∃ err, Eff.out (isSupabaseReady w st) = Eff.Thrown err) ∧
     (∀ name, ∃ err, Eff.out (isServiceHealthy name w st) = Eff.Thrown err)).
Proof.
  intros Hrecent Hprog. split.
  - intros Hans.
    assert (Hrun : ∀ name, ∃ s,
              Eff.out (isServiceHealthy name w st)
                = Eff.Returned
                    (service_is_healthy name
                       (mkSystemHealth (deriveOverall [s]) [s] (now w))) ∧
              service s = "supabase" ∧
              (status s = healthy ↔ answer w = QueryData)).
    { intros name. unfold isServiceHealthy.
      destruct (refresh_returns w st Hans) as (s & Hs & Hrun).
      destruct (checkSupabaseHealth_status w _ s Hs) as (Hname & Hhealthy & _).
      exists s. split; [|done].
      rewrite <- (checkSystemHealth_refreshes false) in Hrun by done.
      rewrite (run_bind_returned _ _ _ _ _ _ Hrun). by eff_run. }
    split_and!.
    + destruct (Hrun "supabase") as (s & Hout & Hname & Hhealthy).
      unfold isSupabaseReady. rewrite Hout, <- Hhealthy.
      unfold service_is_healthy. cbn. rewrite Hname. cbn.
      split.
      * intros [= Hb]. by apply bool_decide_eq_true in Hb.
      * intros Hh. by rewrite bool_decide_eq_true_2.
    + destruct (Hrun "supabase") as (s & Hout & _). unfold isSupabaseReady. eauto.
    + intros name Hne. destruct (Hrun name) as (s & Hout & Hname & _).
      rewrite Hout. unfold service_is_healthy. cbn. rewrite Hname.
      destruct (String.eqb_spec "supabase" name) as [Heq|]; [|done].
      by destruct Hne.
  - intros Hans.
    assert (Hrun : ∀ name, ∃ err,
              Eff.out (isServiceHealthy name w st) = Eff.Thrown err).
    { intros name. unfold isServiceHealthy.
      destruct (refresh_throws w st Hans) as [err Hrun].
      rewrite <- (checkSystemHealth_refreshes false) in Hrun by done.
      exists err. by rewrite (run_bind_thrown _ _ _ _ _ _ Hrun). }
    split; [apply Hrun | done].
Qed.
(** The health check, run to completion, is its tasks one after the other,
    with what the other tasks did during the wait in between. *)
Lemma checkSystemHealth_by_tasks force w st :
  checkSystemHealth force w st =
  (phase ← start force w;
   match phase with
   | Done h => mret h
   | Queries => settle w
   | Waits =>
       Eff.modify (meanwhile w) ;;
       phase' ← wake;
       match phase' with
       | Done h => mret h
       | _ => settle w
       end
   end) st.
Proof.
  unfold checkSystemHealth, start, wake, refresh, send_probe, settle,
    checkSupabaseHealth, try_catch_value, probe_settled, probe_failed, publish,
    set_inProgress, set_lastHealthCheck.
  destruct (answer w) as [|message|[| |message]];
    try destruct (str_includes _ _ && str_includes _ _);
    eff_unfold;
    (destruct (recent force w st) as [h|]; [done|]);
    (destruct (healthCheckInProgress st); [|done]);
    by destruct (lastHealthCheck (meanwhile w st)).
Qed.
End HealthMore.

(** X13 at a concrete input: the client throws [null], and the client
    throws an [Error]. *)
Lemma checkSupabaseHealth_classifies_witness :
  let w thrown := Health.mkWorld 1000 1000 1040 1041 (Health.QueryThrows thrown) id in
  (∃ err, Eff.out (Health.checkSupabaseHealth (w Health.ThrownNull) Health.initial)
          = Eff.Thrown err) ∧
  (∃ s, Eff.out (Health.checkSupabaseHealth
                   (w (Health.ThrownObject (Some "Failed to fetch"))) Health.initial)
        = Eff.Returned s ∧
        Health.status s = Health.unhealthy).
Proof.
  intros w. split.
  - destruct (checkSupabaseHealth_classifies (w Health.ThrownNull) Health.initial)
      as (_ & _ & Hthrows & _).
    apply Hthrows. reflexivity.
  - destruct (checkSupabaseHealth_classifies
                (w (Health.ThrownObject (Some "Failed to fetch"))) Health.initial)
      as (_ & _ & _ & Hreturns).
    destruct Hreturns as (s & Hout & _ & _ & _ & Hhealthy & Hdegraded & _);
      [reflexivity|].
    exists s. split; [exact Hout|].
    destruct (Health.status s); [| |reflexivity].
    + destruct Hhealthy as [Hh _]. discriminate (Hh eq_refl).
    + destruct Hdegraded as [Hd _]. destruct (Hd eq_refl) as (m & Hm & _).
      discriminate Hm.
Defined.

(** X14 at a concrete input: a forced check at 1000, an unforced one 5 s
    later, while the service has gone down in between. *)
Lemma health_snapshot_reuse_witness :
  let w1 := Health.mkWorld 1000 1000 1040 1041 Health.QueryData id in
  let w2 := Health.mkWorld 6000 6000 6040 6041
              (Health.QueryThrows (Health.ThrownObject (Some "down"))) id in
  let r1 := Health.checkSystemHealth true w1 Health.initial in
  Eff.trace (Health.checkSystemHealth false w2 (Eff.final r1)) = [] ∧
  Eff.out (Health.checkSystemHealth false w2 (Eff.final r1)) = Eff.out r1.
Proof.
  intros w1 w2 r1. unfold r1.
  destruct (health_snapshot_reuse w1 w2 Health.initial) as [Hpublishes _];
    [reflexivity|].
  destruct Hpublishes as (h1 & Hr1 & _ & Hreuse & _); [reflexivity|].
  rewrite Hreuse by (vm_compute; reflexivity).
  split; [reflexivity | by rewrite Hr1].
Defined.

(** X15 at a concrete input: a forced call arriving during a check, with an
    old snapshot published; and an unforced call arriving during a check, 5 s
    after the last snapshot. *)
Lemma health_check_in_flight_witness :
  let old := Health.mkSystemHealth Health.healthy [] 0 in
  let st := Health.mkState (Some old) true in
  let down := Health.QueryThrows (Health.ThrownObject (Some "down")) in
  let w := Health.mkWorld 90000 90000 90040 90041 down id in
  let w' := Health.mkWorld 5000 5000 5040 5041 down id in
  Health.checkSystemHealth true w st
  = Eff.mkResult (Eff.Returned old) st [Health.Sleep 100] ∧
  Health.checkSystemHealth false w' st = Eff.mkResult (Eff.Returned old) st [].
Proof.
  intros old st down w w'. split.
  - destruct (health_check_in_flight true w st) as (_ & _ & Hwaits);
      [reflexivity|].
    destruct Hwaits as [Hstale _]; [reflexivity|].
    apply Hstale. reflexivity.
  - destruct (health_check_in_flight false w' st) as (Hreuse & _);
      [reflexivity|].
    destruct (Hreuse old) as (_ & _ & _ & Hrun); [reflexivity|].
    exact Hrun.
Defined.

(** X16 at a concrete input. *)
Lemma readiness_after_refresh_witness :
  let w := Health.mkWorld 1000 1000 1040 1041 Health.QueryData id in
  let w' := Health.mkWorld 1000 1000 1040 1041
              (Health.QueryThrows Health.ThrownUndefined) id in
  Eff.out (Health.isSupabaseReady w Health.initial) = Eff.Returned true ∧
  ∃ err, Eff.out (Health.isSupabaseReady w' Health.initial) = Eff.Thrown err.
Proof.
  intros w w'. split.
  - destruct (readiness_after_refresh w Health.initial) as [Hready _];
      [reflexivity | reflexivity |].
    destruct Hready as (Hiff & _); [reflexivity|].
    apply Hiff. reflexivity.
  - destruct (readiness_after_refresh w' Health.initial) as [_ Hrejects];
      [reflexivity | reflexivity |].
    destruct Hrejects as [Hthrown _]; [reflexivity|].
    exact Hthrown.
Defined.

(** * Further properties of the logger *)

Section LoggerMore.
Import Logger LoggerApi.
Context {D : Type}.
Implicit Types (st : State D) (w : World) (lvl : LogLevel).

Lemma length_slice0 {A} (cap : Z) (l : list A) :
  0 ≤ cap → Z.of_nat (length (slice0 cap l)) ≤ cap.
Proof.
  intros Hcap. rewrite slice0_nonneg by done. rewrite length_take. lia.
Qed.

Lemma log_keeps_bound w lvl msg ctx d err st :
  0 ≤ maxStorageEntries (config st) →
  Z.of_nat (length (stored st)) ≤ maxStorageEntries (config st) →
  Z.of_nat (length (stored (Eff.final (log w lvl msg ctx d err st))))
  ≤ maxStorageEntries (config st).
Proof.
  intros Hcap Hlen. rewrite log_run.
  destruct (shouldLog (config st) lvl); cbn [Eff.final]; [|done].
  unfold storage_after. destruct (_ && _); [|done].
  unfold stored at 1. cbn [app_logs]. by apply length_slice0.
Qed.

(** X17. The stored log never exceeds the cap.  For a cap
    [maxStorageEntries >= 0] and a store within the cap, any sequence of log
    calls (any levels, in or out of a browser, whether or not a write fails)
    leaves at most [maxStorageEntries] entries persisted, and leaves the
    configuration as it was. *)
Theorem storage_never_exceeds_cap (calls : list (LogCall D)) st :
  0 ≤ maxStorageEntries (config st) →
  Z.of_nat (length (stored st)) ≤ maxStorageEntries (config st) →
  let r := run_logs calls st in
  Z.of_nat (length (stored (Eff.final r))) ≤ maxStorageEntries (config st) ∧
  config (Eff.final r) = config st ∧
  Eff.out r = Eff.Returned tt.
Proof.
  intros Hcap Hlen r. split_and!;
    [| apply run_logs_config | apply run_logs_returns].
  unfold r. clear r. revert st Hcap Hlen.
  induction calls as [|c calls IH]; intros st Hcap Hlen; [done|].
  rewrite run_logs_cons. cbn [Eff.final].
  assert (Hcfg : config (Eff.final (call c st)) = config st) by apply log_config.
  rewrite <- Hcfg. apply IH; rewrite Hcfg; [done|].
  by apply log_keeps_bound.
Qed.

(** X18. A failing write to [localStorage] is absorbed: when [setItem]
    throws, the log call still returns, the persisted entries and the rest of
    the state are unchanged, the console line (if the console is enabled) is
    still printed first, and, when the call was due to be stored, the failure
    is reported by one warning of the logger. *)
Theorem storage_failure_is_absorbed w lvl msg ctx d err st :
  setItemThrows w = true →
  let r := log w lvl msg ctx d err st in
  let entry := createLogEntry w lvl msg ctx d err in
  Eff.out r = Eff.Returned tt ∧
  Eff.final r = st ∧
  (shouldLog (config st) lvl = true →
     console_lines (config st) entry `prefix_of` Eff.trace r ∧
     (enableStorage (config st) = true → window w ≠ None →
        Warning "Failed to store log entry:" "QuotaExceededError" ∈ Eff.trace r ∧
        ∀ logs, SetItem logs ∉ Eff.trace r)).
Proof.
  intros Hthrow r entry. unfold r. rewrite log_run. fold entry.
  destruct (shouldLog (config st) lvl); cbn [Eff.out Eff.final Eff.trace];
    [|by split_and!].
  assert (Hafter : storage_after w entry st = st).
  { unfold storage_after. rewrite Hthrow. by rewrite andb_false_r. }
  split_and!; [done | done |]. intros _. split.
  - by eexists.
  - intros Hen Hw.
    assert (Hlines : storage_lines (config st) w entry (stored st)
              = [Warning "Failed to store log entry:" "QuotaExceededError"]).
    { unfold storage_lines, storage_enabled.
      by rewrite Hen, Hthrow, bool_decide_eq_true_2. }
    rewrite Hlines. split.
    + apply elem_of_app. right. left.
    + intros logs [Hin|[Hin|Hin]%elem_of_app]%elem_of_app.
      * unfold console_lines in Hin.
        destruct (enableConsole (config st)); [|by apply elem_of_nil in Hin].
        apply elem_of_cons in Hin as [[=]|Hin].
        destruct (entry_level entry), (stack entry) as [stk|];
          try (by apply elem_of_nil in Hin);
          (destruct (truthy stk); [|by apply elem_of_nil in Hin]);
          by apply list_elem_of_singleton in Hin.
      * by apply list_elem_of_singleton in Hin.
      * destruct (levelNum ERROR <=? levelNum lvl); [|by apply elem_of_nil in Hin].
        unfold remote_lines in Hin.
        destruct (remoteEndpoint (config st)); [|by apply elem_of_nil in Hin].
        destruct (_ && _); [|by apply elem_of_nil in Hin].
        apply elem_of_cons in Hin as [[=]|Hin].
        destruct (fetchRejects w); [|by apply elem_of_nil in Hin].
        by apply list_elem_of_singleton in Hin.
Qed.
End LoggerMore.

(** X17 at a concrete input: a cap of one entry, two calls. *)
Lemma storage_never_exceeds_cap_witness :
  let cfg := Logger.mkConfig Logger.DEBUG true true 1 false None in
  let st := Logger.mkState cfg "session_1" (None : option (list (Logger.LogEntry Z))) in
  let w := Logger.mkWorld 5 5 "abc" (Some (Logger.mkWindow "agent" "http://localhost/"))
             false false in
  let c := Logger.mkLogCall w Logger.INFO "m" None None None in
  Z.of_nat (length (Logger.stored (Eff.final (Logger.run_logs [c; c] st)))) ≤ 1.
Proof.
  intros cfg st w c.
  destruct (storage_never_exceeds_cap [c; c] st) as (Hbound & _ & _).
  - simpl. lia.
  - simpl. lia.
  - exact Hbound.
Defined.

(** X18 at a concrete input: the quota is exhausted. *)
Lemma storage_failure_is_absorbed_witness :
  let cfg := Logger.mkConfig Logger.DEBUG false true 10 false None in
  let st := Logger.mkState cfg "session_1" (None : option (list (Logger.LogEntry Z))) in
  let w := Logger.mkWorld 5 5 "abc" (Some (Logger.mkWindow "agent" "http://localhost/"))
             true false in
  Logger.log w Logger.WARN "m" None None None st
  = Eff.mkResult (Eff.Returned tt) st
      [Logger.Warning "Failed to store log entry:" "QuotaExceededError"].
Proof.
  intros cfg st w.
  destruct (storage_failure_is_absorbed w Logger.WARN "m" None None None st)
    as (_ & _ & _); [reflexivity|].
  reflexivity.
Defined.

Section LoggerPosts.
Import Logger LoggerApi.
Context {D : Type}.
Implicit Types (st : State D) (w : World) (lvl : LogLevel).

Lemma console_lines_no_post cfg (entry : LogEntry D) :
  List.filter is_post (console_lines cfg entry) = [].
Proof.
  unfold console_lines. destruct (enableConsole cfg); [|done]. simpl.
  destruct (entry_level entry), (stack entry) as [stk|]; try done;
    by destruct (truthy stk).
Qed.

Lemma storage_lines_no_post cfg w (entry : LogEntry D) old :
  List.filter is_post (storage_lines cfg w entry old) = [].
Proof.
  unfold storage_lines. destruct (storage_enabled cfg w); [|done].
  by destruct (setItemThrows w).
Qed.

(** the POSTs of a log call *)
Lemma log_posts w lvl msg ctx d err st :
  List.filter is_post (Eff.trace (log w lvl msg ctx d err st)) =
  if shouldLog (config st) lvl && (levelNum ERROR <=? levelNum lvl) then
    List.filter is_post
      (remote_lines (config st) (sessionId st) w (createLogEntry w lvl msg ctx d err))
  else [].
Proof.
  rewrite log_run. destruct (shouldLog (config st) lvl); [|done].
  cbn [Eff.trace andb]. rewrite !List.filter_app.
  rewrite console_lines_no_post, storage_lines_no_post.
  by destruct (levelNum ERROR <=? levelNum lvl).
Qed.


Lemma no_posts_elem (tr : list (Event D)) :
  List.filter is_post tr = [] → ∀ ev, ev ∈ tr → is_post ev = false.
Proof.
  induction tr as [|ev' tr IH]; intros Hf ev Hin; [by apply elem_of_nil in Hin|].
  simpl in Hf. destruct (is_post ev') eqn:Hp; [done|].
  apply elem_of_cons in Hin as [->|Hin]; [done | by apply IH].
Qed.

(** X20. [setLogLevel(level)] sets the threshold and then reports the change
    at INFO under the new threshold.  So the report is made only when the new
    threshold is DEBUG or INFO; raising the threshold to WARN, ERROR or
    CRITICAL is silent: no event, nothing stored.  The other settings are
    untouched, and afterwards a call is dropped exactly when its level is
    below the new threshold. *)
Theorem setLogLevel_report w lvl st :
  let r := setLogLevel w lvl st in
  let cfg' := config (Eff.final r) in
  Eff.out r = Eff.Returned tt ∧
  cfg' = mkConfig lvl (enableConsole (config st)) (enableStorage (config st))
                  (maxStorageEntries (config st))
                  (enableRemoteLogging (config st)) (remoteEndpoint (config st)) ∧
  (levelNum INFO < levelNum lvl →
     Eff.trace r = [] ∧ stored (Eff.final r) = stored st) ∧
  (levelNum lvl ≤ levelNum INFO → enableConsole (config st) = true →
     Eff.trace r ≠ []) ∧
  (∀ lvl', shouldLog cfg' lvl' = false ↔ levelNum lvl' < levelNum lvl).
Proof.
  intros r cfg'. unfold cfg', r, setLogLevel, set_config, info.
  rewrite run_bind_modify.
  set (st1 := {| config := _; sessionId := sessionId st; app_logs := app_logs st |}).
  assert (Hcfg : config (Eff.final (log w INFO ("Log level changed to " ++ levelName lvl)
                     (Some "config") None None st1)) = config st1)
    by apply log_config.
  split_and!.
  - apply log_returns.
  - by rewrite Hcfg.
  - intros Hquiet. rewrite log_run.
    assert (Hno : shouldLog (config st1) INFO = false).
    { unfold shouldLog. cbn. apply Z.leb_gt. done. }
    by rewrite Hno.
  - intros Hloud Hcon. rewrite log_run.
    assert (Hyes : shouldLog (config st1) INFO = true).
    { unfold shouldLog. cbn. by apply Z.leb_le. }
    rewrite Hyes. cbn [Eff.trace]. unfold console_lines. cbn [config st1 enableConsole].
    rewrite Hcon. done.
  - intros lvl'. rewrite Hcfg. unfold shouldLog. cbn.
    apply Z.leb_gt.
Qed.

End LoggerPosts.

Section ApiLogging.
Import Logger LoggerApi.
Implicit Types (st : State Js.Value) (w : World).

End ApiLogging.


(** X20 at a concrete input: raising the threshold to ERROR is silent. *)
Lemma setLogLevel_report_witness :
  let cfg := Logger.mkConfig Logger.DEBUG true true 10 false None in
  let st := Logger.mkState cfg "session_1" (None : option (list (Logger.LogEntry Z))) in
  let w := Logger.mkWorld 5 5 "abc" (Some (Logger.mkWindow "agent" "http://localhost/"))
             false false in
  Eff.trace (Logger.setLogLevel w Logger.ERROR st) = [].
Proof.
  intros cfg st w.
  destruct (setLogLevel_report w Logger.ERROR st) as (_ & _ & Hquiet & _).
  destruct Hquiet as [Htrace _]; [simpl; lia | exact Htrace].
Defined.

Section Retention.
Import Logger LoggerApi.
Context {D : Type}.
Implicit Types (st : State D) (w : World).

Lemma filter_length_eq {A} (P : A → Prop) `{∀ x, Decision (P x)} (l : list A) :
  length (filter P l) = length l → filter P l = l.
Proof.
  induction l as [|x l IH]; [done|]. rewrite filter_cons.
  destruct (decide (P x)); simpl; intros Hlen.
  - f_equal. apply IH. lia.
  - pose proof (length_filter P l). lia.
Qed.

(** within the years 0000 to 9999 the strings order as the instants; a
    string from beyond the year 9999 is below the cutoff *)
Lemma iso_geb_plain (cutoff t : Z) :
  JsDate.YEAR_0000 ≤ cutoff ≤ JsDate.YEAR_9999_END →
  JsDate.iso_geb t cutoff = true ↔ cutoff ≤ t ≤ JsDate.YEAR_9999_END.
Proof.
  intros [Hlo Hhi]. unfold JsDate.iso_geb, JsDate.iso_key.
  destruct (Z.ltb_spec JsDate.YEAR_9999_END cutoff); [lia|].
  destruct (Z.ltb_spec cutoff JsDate.YEAR_0000); [lia|].
  destruct (Z.ltb_spec JsDate.YEAR_9999_END t).
  { cbn. split; [done | lia]. }
  destruct (Z.ltb_spec t JsDate.YEAR_0000).
  { cbn. split; [done | lia]. }
  cbn. rewrite Z.leb_le. lia.
Qed.

Lemma plain_is_valid (t : Z) :
  JsDate.YEAR_0000 ≤ t ≤ JsDate.YEAR_9999_END → JsDate.is_valid t = true.
Proof.
  unfold JsDate.is_valid, JsDate.YEAR_0000, JsDate.YEAR_9999_END,
    JsDate.MAX_TIME_VALUE.
  intros [? ?]. apply andb_true_iff. rewrite !Z.leb_le. lia.
Qed.

Lemma getRecentLogs_run w minutes st :
  let cutoff := clock w - minutes * 60 * 1000 in
  getRecentLogs w minutes st
  = if JsDate.is_valid cutoff then
      Eff.mkResult
        (Eff.Returned
           (filter (λ e, JsDate.iso_geb (timestamp e) cutoff = true)
                   (if bool_decide (window w ≠ None) then stored st else [])))
        st []
    else Eff.mkResult (Eff.Thrown "RangeError: Invalid time value") st [].
Proof.
  intros cutoff. unfold getRecentLogs, toISOString. fold cutoff.
  destruct (JsDate.is_valid cutoff); eff_run; [|done].
  rewrite (run_bind_returned _ _ _ _ _ _ (getStoredLogs_run w st)). by eff_run.
Qed.

(** the entries a sweep at the time of [w] keeps *)
Lemma cleanupOldLogs_run w st :
  window w ≠ None →
  let oneDayAgo := clock w - ONE_DAY in
  let fresh :=
    filter (λ e, JsDate.iso_geb (timestamp e) oneDayAgo = true) (stored st) in
  cleanupOldLogs w st =
  if JsDate.is_valid oneDayAgo then
    if bool_decide (length fresh ≠ length (stored st)) then
      if setItemThrows w
      then Eff.mkResult (Eff.Returned tt) st
             [Warning "Failed to cleanup old logs:" "QuotaExceededError"]
      else Eff.mkResult (Eff.Returned tt)
             (mkState (config st) (sessionId st) (Some fresh)) [SetItem fresh]
    else Eff.mkResult (Eff.Returned tt) st []
  else Eff.mkResult (Eff.Returned tt) st
         [Warning "Failed to cleanup old logs:" "RangeError: Invalid time value"].
Proof.
  intros Hw oneDayAgo fresh. unfold cleanupOldLogs.
  destruct (window w) as [win|] eqn:Hwin; [|done].
  unfold Eff.try_catch.
  pose proof (getStoredLogs_run w st) as Hget. rewrite Hwin in Hget.
  rewrite bool_decide_eq_true_2 in Hget by done.
  rewrite (run_bind_returned _ _ _ _ _ _ Hget).
  unfold toISOString. fold oneDayAgo.
  destruct (JsDate.is_valid oneDayAgo); eff_run; [|done]. fold fresh.
  destruct (bool_decide (length fresh ≠ length (stored st))); [|by eff_run].
  unfold setItem. destruct (setItemThrows w); by eff_run.
Qed.

(** X22. Retention.  The sweep made when a logger is constructed never
    throws and leaves the configuration alone; outside a browser it does
    nothing.  While the instant 24 hours before the clock lies in the years
    0000 to 9999, the sweep keeps, in order, exactly the persisted entries
    stamped at or after that instant (and not after the year 9999, whose
    strings compare below every four-digit year); it writes to storage only
    when at least one entry is dropped, and absorbs a failing write (the
    entries then stay as they were).  After the sweep [getRecentLogs(minutes)]
    returns what it returned before, for a window of at most 24 hours whose
    cutoff is not after the year 9999.  When the instant 24 hours before the
    clock is outside the range of [Date], the [RangeError] of [toISOString]
    is absorbed as a warning and nothing is changed.  [new Logger(config)]
    starts from the defaults overridden by [config], with the persisted
    entries swept. *)
Theorem retention_sweep w st :
  let r := cleanupOldLogs w st in
  let oneDayAgo := clock w - ONE_DAY in
  let kept (e : LogEntry D) := oneDayAgo ≤ timestamp e ≤ JsDate.YEAR_9999_END in
  let fresh := filter kept (stored st) in
  Eff.out r = Eff.Returned tt ∧
  config (Eff.final r) = config st ∧
  (window w = None → r = Eff.mkResult (Eff.Returned tt) st []) ∧
  (window w ≠ None →
   JsDate.YEAR_0000 ≤ oneDayAgo ≤ JsDate.YEAR_9999_END →
     (setItemThrows w = false → stored (Eff.final r) = fresh) ∧
     (setItemThrows w = true → Eff.final r = st) ∧
     (fresh = stored st → r = Eff.mkResult (Eff.Returned tt) st []) ∧
     (∀ minutes,
        minutes * 60 * 1000 ≤ ONE_DAY →
        clock w - minutes * 60 * 1000 ≤ JsDate.YEAR_9999_END →
        Eff.out (getRecentLogs w minutes (Eff.final r))
        = Eff.out (getRecentLogs w minutes st) ∧
        Eff.out (getRecentLogs w minutes st)
        = Eff.Returned
            (filter (λ e, clock w - minutes * 60 * 1000 ≤ timestamp e
                          ≤ JsDate.YEAR_9999_END) (stored st)))) ∧
  (window w ≠ None → JsDate.is_valid oneDayAgo = false →
     ∃ err, r = Eff.mkResult (Eff.Returned tt) st
                  [Warning "Failed to cleanup old logs:" err]) ∧
  (∀ p (item : option (list (LogEntry D))),
     window w ≠ None → setItemThrows w = false →
     JsDate.YEAR_0000 ≤ oneDayAgo ≤ JsDate.YEAR_9999_END →
     config (Eff.final (new_Logger p w item)) = merge_config p ∧
     stored (Eff.final (new_Logger p w item)) = filter kept (default [] item)).
Proof.
  intros r oneDayAgo kept fresh.
  assert (Hnone : window w = None → r = Eff.mkResult (Eff.Returned tt) st []).
  { intros Hw. unfold r, cleanupOldLogs. by rewrite Hw. }
  assert (Hkept : JsDate.YEAR_0000 ≤ oneDayAgo ≤ JsDate.YEAR_9999_END →
            ∀ l : list (LogEntry D),
              filter (λ e, JsDate.iso_geb (timestamp e) oneDayAgo = true) l
              = filter kept l).
  { intros Hrange l. apply list_filter_iff. intros e.
    by apply iso_geb_plain. }
  assert (Hstored : ∀ st0, window w ≠ None → setItemThrows w = false →
            JsDate.YEAR_0000 ≤ oneDayAgo ≤ JsDate.YEAR_9999_END →
            stored (Eff.final (cleanupOldLogs w st0)) = filter kept (stored st0) ∧
            config (Eff.final (cleanupOldLogs w st0)) = config st0).
  { intros st0 Hw Hset Hrange. rewrite cleanupOldLogs_run by done.
    fold oneDayAgo. rewrite (plain_is_valid _ Hrange), Hset, (Hkept Hrange).
    case_bool_decide as Hlen; [done|]. cbn [Eff.final]. split; [|done].
    symmetry. apply filter_length_eq. lia. }
  destruct (decide (window w = None)) as [Hw|Hw].
  { rewrite (Hnone Hw). split_and!; done. }
  assert (Hrun := cleanupOldLogs_run w st Hw). fold r oneDayAgo in Hrun.
  cbn zeta in Hrun.
  split_and!.
  - rewrite Hrun. destruct (JsDate.is_valid oneDayAgo); [|done].
    case_bool_decide; [|done]. by destruct (setItemThrows w).
  - rewrite Hrun. destruct (JsDate.is_valid oneDayAgo); [|done].
    case_bool_decide; [|done]. by destruct (setItemThrows w).
  - done.
  - intros _ Hrange.
    rewrite (plain_is_valid _ Hrange), (Hkept Hrange) in Hrun. fold fresh in Hrun.
    split_and!.
    + intros Hset. by apply Hstored.
    + intros Hset. rewrite Hrun, Hset. by case_bool_decide.
    + intros Hsame. rewrite Hrun. rewrite bool_decide_eq_false_2; [done|].
      intros Hne. apply Hne. by rewrite Hsame.
    + intros minutes Hshort Hhi.
      assert (Hcut : JsDate.YEAR_0000 ≤ clock w - minutes * 60 * 1000
                     ≤ JsDate.YEAR_9999_END) by (unfold oneDayAgo in Hrange; lia).
      assert (Hrecent : ∀ st0,
                Eff.out (getRecentLogs w minutes st0)
                = Eff.Returned
                    (filter (λ e, clock w - minutes * 60 * 1000 ≤ timestamp e
                                  ≤ JsDate.YEAR_9999_END) (stored st0))).
      { intros st0. rewrite getRecentLogs_run. cbn zeta.
        rewrite (plain_is_valid _ Hcut). cbn [Eff.out].
        rewrite bool_decide_eq_true_2 by done. f_equal.
        apply list_filter_iff. intros e. by apply iso_geb_plain. }
      split; [|apply Hrecent]. rewrite !Hrecent. f_equal.
      rewrite Hrun. case_bool_decide; [|done].
      destruct (setItemThrows w); [done|]. cbn [Eff.final].
      unfold stored at 1. cbn [app_logs]. unfold fresh.
      rewrite list_filter_filter. apply list_filter_iff. intros e.
      unfold kept, oneDayAgo. lia.
  - intros _ Hinvalid. rewrite Hrun, Hinvalid. by eexists.
  - intros p item Hw' Hset Hrange. unfold new_Logger.
    destruct (Hstored {| config := merge_config p; sessionId := generateSessionId w;
                         app_logs := item |} Hw' Hset Hrange) as [-> ->].
    split; [done|]. unfold stored. cbn [app_logs]. by destruct item.
Qed.
End Retention.

(** X22 at a concrete input: one entry of two is older than a day (the clock
    reads 23 January 2024). *)
Lemma retention_sweep_witness :
  let e t := Logger.mkLogEntry (t, "x") t Logger.INFO "m" None (None : option Z)
               None None None in
  let w := Logger.mkWorld 1706000000000 1706000000000 "abc"
             (Some (Logger.mkWindow "agent" "http://localhost/")) false false in
  Logger.stored
    (Eff.final (LoggerApi.new_Logger
                  (LoggerApi.mkPartial None None None None None None) w
                  (Some [e 1705990000000; e 1705000000000])))
  = [e 1705990000000].
Proof.
  intros e w.
  destruct (retention_sweep w (Logger.mkState (LoggerApi.merge_config
              (LoggerApi.mkPartial None None None None None None)) "s"
              (None : option (list (Logger.LogEntry Z)))))
    as (_ & _ & _ & _ & _ & Hnew).
  destruct (Hnew (LoggerApi.mkPartial None None None None None None)
              (Some [e 1705990000000; e 1705000000000])) as [_ ->];
    [discriminate | reflexivity | vm_compute; split; discriminate | reflexivity].
Defined.

(** * Running effectful code with error objects *)

Section ExcFacts.
Context {X E S : Type}.
Implicit Types (s : S).

Lemma xresult_eta {A} (r : Exc.result X E S A) :
  Exc.mkResult (Exc.out r) (Exc.final r) (Exc.trace r) = r.
Proof. by destruct r. Qed.

Lemma xrun_ret {A} (a : A) s :
  (mret a : Exc.t X E S A) s = Exc.mkResult (Exc.Returned a) s [].
Proof. done. Qed.

Lemma xrun_bind {A B} (m : Exc.t X E S A) (f : A → Exc.t X E S B) s :
  (m ≫= f) s =
  match Exc.out (m s) with
  | Exc.Returned a =>
      Exc.mkResult (Exc.out (f a (Exc.final (m s))))
                   (Exc.final (f a (Exc.final (m s))))
                   (Exc.trace (m s) ++ Exc.trace (f a (Exc.final (m s))))
  | Exc.Thrown x => Exc.mkResult (Exc.Thrown x) (Exc.final (m s)) (Exc.trace (m s))
  end.
Proof. done. Qed.

Lemma xrun_bind_read {B} (f : S → Exc.t X E S B) s : (Exc.read ≫= f) s = f s s.
Proof. rewrite xrun_bind. cbn. apply xresult_eta. Qed.

Lemma xrun_bind_ret {A B} (a : A) (f : A → Exc.t X E S B) s : (mret a ≫= f) s = f a s.
Proof. rewrite xrun_bind. cbn. apply xresult_eta. Qed.

Lemma xrun_bind_modify {B} (g : S → S) (f : unit → Exc.t X E S B) s :
  (Exc.modify g ≫= f) s = f tt (g s).
Proof. rewrite xrun_bind. cbn. apply xresult_eta. Qed.

Lemma xrun_bind_emit {B} (ev : E) (f : unit → Exc.t X E S B) s :
  (Exc.emit ev ≫= f) s =
  Exc.mkResult (Exc.out (f tt s)) (Exc.final (f tt s)) (ev :: Exc.trace (f tt s)).
Proof. by rewrite xrun_bind. Qed.

Lemma xrun_bind_throw {A B} (x : X) (f : A → Exc.t X E S B) s :
  (Exc.throw x ≫= f) s = Exc.mkResult (Exc.Thrown x) s [].
Proof. by rewrite xrun_bind. Qed.

Lemma xrun_bind_returned {A B} (m : Exc.t X E S A) (f : A → Exc.t X E S B) s a s1 tr :
  m s = Exc.mkResult (Exc.Returned a) s1 tr →
  (m ≫= f) s =
  Exc.mkResult (Exc.out (f a s1)) (Exc.final (f a s1)) (tr ++ Exc.trace (f a s1)).
Proof. intros Hm. rewrite xrun_bind, Hm. done. Qed.

Lemma xrun_bind_thrown {A B} (m : Exc.t X E S A) (f : A → Exc.t X E S B) s x s1 tr :
  m s = Exc.mkResult (Exc.Thrown x) s1 tr →
  (m ≫= f) s = Exc.mkResult (Exc.Thrown x) s1 tr.
Proof. intros Hm. rewrite xrun_bind, Hm. done. Qed.

Lemma xrun_catch_returned {A} (m : Exc.t X E S A) h s a s1 tr :
  m s = Exc.mkResult (Exc.Returned a) s1 tr →
  Exc.try_catch m h s = Exc.mkResult (Exc.Returned a) s1 tr.
Proof. intros Hm. unfold Exc.try_catch. by rewrite Hm. Qed.

Lemma xrun_catch_thrown {A} (m : Exc.t X E S A) h s x s1 tr :
  m s = Exc.mkResult (Exc.Thrown x) s1 tr →
  Exc.try_catch m h s =
  Exc.mkResult (Exc.out (h x s1)) (Exc.final (h x s1)) (tr ++ Exc.trace (h x s1)).
Proof. intros Hm. unfold Exc.try_catch. by rewrite Hm. Qed.

(** a lifted computation that returns *)
Lemma xrun_lift_returned {E' S' A} (view : S → S') update (inj : E' → E)
    (as_error : string → X) (m : Eff.t E' S' A) s a (s1 : S') tr :
  m (view s) = Eff.mkResult (Eff.Returned a) s1 tr →
  Exc.lift view update inj as_error m s
  = Exc.mkResult (Exc.Returned a) (update s1 s) (inj <$> tr).
Proof. intros Hm. unfold Exc.lift. by rewrite Hm. Qed.
End ExcFacts.

Ltac exc_step :=
  first [ rewrite xrun_bind_read | rewrite xrun_bind_ret | rewrite xrun_bind_modify
        | rewrite xrun_bind_emit | rewrite xrun_bind_throw | rewrite xrun_ret ].
Ltac exc_run := repeat exc_step; cbn [Exc.out Exc.final Exc.trace].

(** * Properties of the mock-data helper *)

Section MockData.
Import App.
Context {Client : Type}.
Implicit Types (s : State Client).

Lemma shouldUseMockData_returns now net (st : Environment.State) :
  ∃ b, Eff.out (Environment.shouldUseMockData now net st) = Eff.Returned b.
Proof.
  unfold Environment.shouldUseMockData. eff_run.
  destruct (Environment.Config.enableMockData _); [by eexists|].
  destruct (Environment.Config.isDevelopment _); [|by eexists].
  rewrite run_bind, isSupabaseAvailable_out. by eexists.
Qed.

Lemma lifted_decision now net s b :
  Eff.out (Environment.shouldUseMockData now net (env s)) = Eff.Returned b →
  App.shouldUseMockData now net s
  = Exc.mkResult (Exc.Returned b) (decided now net s)
      (EnvEv <$> Eff.trace (Environment.shouldUseMockData now net (env s))).
Proof.
  intros Hb. unfold App.shouldUseMockData, in_env, decided, Exc.lift.
  by rewrite Hb.
Qed.

Section Cases.
Context {T : Type} (now : Z) (net : Environment.FetchResult) (mockData : T)
  (realDataFetcher : Exc.t Js.ErrorObj Event (State Client) T) (s : State Client).
Let decision := Environment.shouldUseMockData now net (env s).
Let fetched := realDataFetcher (decided now net s).

Lemma getMockDataIfNeeded_mock :
  Eff.out decision = Eff.Returned true →
  getMockDataIfNeeded now net mockData realDataFetcher s
  = Exc.mkResult (Exc.Returned mockData) (decided now net s)
      ((EnvEv <$> Eff.trace decision) ++ [Sleep 200]).
Proof.
  intros Hd. unfold getMockDataIfNeeded.
  rewrite (xrun_bind_returned _ _ _ _ _ _ (lifted_decision now net s true Hd)).
  unfold simulateApiDelay. by exc_run.
Qed.

Lemma getMockDataIfNeeded_real v :
  Eff.out decision = Eff.Returned false →
  Exc.out fetched = Exc.Returned v →
  getMockDataIfNeeded now net mockData realDataFetcher s
  = Exc.mkResult (Exc.Returned v) (Exc.final fetched)
      ((EnvEv <$> Eff.trace decision) ++ Exc.trace fetched).
Proof.
  intros Hd Hv. unfold getMockDataIfNeeded.
  rewrite (xrun_bind_returned _ _ _ _ _ _ (lifted_decision now net s false Hd)).
  rewrite (xrun_catch_returned _ _ _ v (Exc.final fetched) (Exc.trace fetched));
    [done|].
  unfold fetched in *. rewrite <- Hv. symmetry. apply xresult_eta.
Qed.

Lemma getMockDataIfNeeded_failed x :
  Eff.out decision = Eff.Returned false →
  Exc.out fetched = Exc.Thrown x →
  getMockDataIfNeeded now net mockData realDataFetcher s
  = Exc.mkResult (Exc.Returned mockData) (Exc.final fetched)
      ((EnvEv <$> Eff.trace decision) ++ Exc.trace fetched
       ++ [ConsoleWarn "Real data fetch failed, falling back to mock data:" (Some x);
           Sleep 100]).
Proof.
  intros Hd Hx. unfold getMockDataIfNeeded.
  rewrite (xrun_bind_returned _ _ _ _ _ _ (lifted_decision now net s false Hd)).
  rewrite (xrun_catch_thrown _ _ _ x (Exc.final fetched) (Exc.trace fetched)).
  - unfold simulateApiDelay. by exc_run.
  - unfold fetched in *. rewrite <- Hx. symmetry. apply xresult_eta.
Qed.
End Cases.

(** X24. [getMockDataIfNeeded] never throws, and it returns either the mock
    data or what the fetcher returned.  When the configuration decides for
    mock data, the fetcher is not run at all.  Otherwise the fetcher runs
    once; if it returns, its result is returned; if it throws, the error is
    swallowed: a console warning is printed and the mock data is returned in
    its place, in the production posture as well. *)
Theorem getMockDataIfNeeded_never_throws {T} now net (mockData : T)
    (realDataFetcher : Exc.t Js.ErrorObj Event (State Client) T) s :
  let decision := Environment.shouldUseMockData now net (env s) in
  let s1 := decided now net s in
  let fetched := realDataFetcher s1 in
  let r := getMockDataIfNeeded now net mockData realDataFetcher s in
  (Eff.out decision = Eff.Returned true →
     r = Exc.mkResult (Exc.Returned mockData) s1
           ((EnvEv <$> Eff.trace decision) ++ [Sleep 200])) ∧
  (Eff.out decision = Eff.Returned false →
     (∀ v, Exc.out fetched = Exc.Returned v →
        r = Exc.mkResult (Exc.Returned v) (Exc.final fetched)
              ((EnvEv <$> Eff.trace decision) ++ Exc.trace fetched)) ∧
     (∀ x, Exc.out fetched = Exc.Thrown x →
        r = Exc.mkResult (Exc.Returned mockData) (Exc.final fetched)
              ((EnvEv <$> Eff.trace decision) ++ Exc.trace fetched
               ++ [ConsoleWarn "Real data fetch failed, falling back to mock data:"
                               (Some x);
                   Sleep 100]))) ∧
  (∃ v, Exc.out r = Exc.Returned v ∧
        (v = mockData ∨ Exc.out fetched = Exc.Returned v)).
Proof.
  intros decision s1 fetched r. split_and!.
  - by apply getMockDataIfNeeded_mock.
  - intros Hd. split.
    + intros v Hv. by apply getMockDataIfNeeded_real.
    + intros x Hx. by apply getMockDataIfNeeded_failed.
  - destruct (shouldUseMockData_returns now net (env s)) as [[] Hd];
      fold decision in Hd.
    + exists mockData. unfold r. rewrite getMockDataIfNeeded_mock by done.
      by split; [|left].
    + assert (Hcase : (∃ v, Exc.out fetched = Exc.Returned v)
                      ∨ (∃ x, Exc.out fetched = Exc.Thrown x))
        by (destruct (Exc.out fetched); eauto).
      destruct Hcase as [[v Hf]|[x Hf]].
      * exists v. unfold r. rewrite (getMockDataIfNeeded_real _ _ _ _ _ v) by done.
        by split; [|right].
      * exists mockData. unfold r.
        rewrite (getMockDataIfNeeded_failed _ _ _ _ _ x) by done.
        by split; [|left].
Qed.
End MockData.

Section SyncFallback.
Import App.

Lemma truthy_or_else x : truthy (Js.or_else x "") = Js.opt_truthy x.
Proof. destruct x as [s|]; [|done]. unfold Js.or_else. by destruct (truthy s) eqn:Hs. Qed.

(** X23. The synchronous shortcut against the real decision.  On the module
    as loaded from the build environment, whenever [shouldUseMockDataSync()]
    says true, [shouldUseMockData()] says true as well, without sending
    anything.  Outside the development posture both say false.  The two
    differ only in development with a configured service: the shortcut says
    false without looking, while the real decision probes the service once
    and says true when it is not reachable. *)
Theorem sync_shortcut_agrees (e : ImportMetaEnv) now net :
  let st := Environment.initial (configFromEnv e) in
  let r := Environment.shouldUseMockData now net st in
  (shouldUseMockDataSync e = true →
     Eff.out r = Eff.Returned true ∧ Eff.trace r = []) ∧
  (DEV e = false →
     shouldUseMockDataSync e = false ∧
     r = Eff.mkResult (Eff.Returned false) st []) ∧
  (DEV e = true → shouldUseMockDataSync e = false →
     Eff.out r
       = Eff.Returned (negb (bool_decide (Environment.probed_status net
                                          = Environment.connected))) ∧
     Environment.fetches (Eff.trace r) = 1%nat).
Proof.
  intros st r.
  assert (Hcfgd : Environment.isSupabaseConfigured (configFromEnv e)
                  = Js.opt_truthy (VITE_SUPABASE_URL e)
                    && Js.opt_truthy (VITE_SUPABASE_ANON_KEY e)).
  { unfold Environment.isSupabaseConfigured, configFromEnv. cbn.
    by rewrite !truthy_or_else. }
  assert (Hrc : Environment.recently_checked now st = false).
  { unfold Environment.recently_checked. by rewrite andb_false_r. }
  split_and!.
  - intros Hsync. unfold shouldUseMockDataSync in Hsync.
    apply andb_prop in Hsync as [Hdev Hnocfg].
    apply negb_true_iff in Hnocfg. rewrite <- Hcfgd in Hnocfg.
    unfold r, Environment.shouldUseMockData. eff_run. cbn. rewrite Hdev.
    rewrite run_bind. rewrite isSupabaseAvailable_unconfigured by done. by eff_run.
  - intros Hdev. split.
    + unfold shouldUseMockDataSync. by rewrite Hdev.
    + unfold r, Environment.shouldUseMockData. eff_run. cbn. by rewrite Hdev.
  - intros Hdev Hsync. unfold shouldUseMockDataSync in Hsync.
    rewrite Hdev in Hsync. cbn in Hsync. apply negb_false_iff in Hsync.
    rewrite <- Hcfgd in Hsync.
    unfold r, Environment.shouldUseMockData. eff_run. cbn. rewrite Hdev.
    rewrite run_bind. rewrite isSupabaseAvailable_probe by done.
    eff_run. rewrite app_nil_r. split; [done|]. apply fetches_probe_trace.
Qed.
End SyncFallback.

(** X23 at a concrete input: development build without a key. *)
Lemma sync_shortcut_agrees_witness :
  let e := App.mkEnv (Some "https://x.supabase.co") None true false in
  Eff.out (Environment.shouldUseMockData 5 (Environment.Response true)
             (Environment.initial (App.configFromEnv e)))
  = Eff.Returned true.
Proof.
  intros e.
  destruct (sync_shortcut_agrees e 5 (Environment.Response true)) as (Hsync & _).
  destruct Hsync as [Hout _]; [reflexivity | exact Hout].
Defined.

(** * Properties of the error handler *)

Section ErrorHandler.
Import App.
Context {Client : Type}.
Implicit Types (s : State Client) (lw : Logger.World).

Lemma in_logger_log s lw lvl msg ctx d err :
  in_logger (Logger.log lw lvl msg ctx d err) s
  = Exc.mkResult (Exc.Returned tt)
      (with_logger (Eff.final (Logger.log lw lvl msg ctx d err (logger s))) s)
      (LogEv <$> Eff.trace (Logger.log lw lvl msg ctx d err (logger s))).
Proof. unfold in_logger, Exc.lift, with_logger. by rewrite log_returns. Qed.

Lemma is_remote_lifted (tr : list (Logger.Event Js.Value)) :
  List.filter is_remote (LogEv <$> tr)
  = LogEv <$> List.filter Logger.is_post tr.
Proof.
  induction tr as [|ev tr IH]; [done|]. rewrite fmap_cons. simpl.
  destruct (Logger.is_post ev); by rewrite IH.
Qed.

Lemma log_below_error_not_remote s lw lvl msg ctx d err :
  Logger.levelNum lvl < Logger.levelNum Logger.ERROR →
  List.filter is_remote
    (LogEv <$> Eff.trace (Logger.log lw lvl msg ctx d err (logger s))) = [].
Proof.
  intros Hlow. rewrite is_remote_lifted, log_posts.
  destruct (Z.leb_spec (Logger.levelNum Logger.ERROR) (Logger.levelNum lvl)); [lia|].
  by rewrite andb_false_r.
Qed.





(** X29. [logPerformanceIssue] reports only what is strictly slower than the
    threshold: at or below the threshold it does nothing at all; above it, it
    logs one WARN entry under the context "performance", which is never
    delivered to the remote endpoint. *)
Theorem logPerformanceIssue_threshold lw (operation : string)
    (duration threshold : Z) s :
  let r := logPerformanceIssue lw operation duration threshold s in
  (duration ≤ threshold → r = Exc.mkResult (Exc.Returned tt) s []) ∧
  (threshold < duration →
     Exc.out r = Exc.Returned tt ∧
     List.filter is_remote (Exc.trace r) = [] ∧
     (Logger.levelNum (Logger.level (Logger.config (logger s)))
        ≤ Logger.levelNum Logger.WARN →
      Logger.enableStorage (Logger.config (logger s)) = true →
      Logger.window lw ≠ None → Logger.setItemThrows lw = false →
      1 ≤ Logger.maxStorageEntries (Logger.config (logger s)) →
        ∃ entry, head (Logger.stored (logger (Exc.final r))) = Some entry ∧
                 Logger.entry_level entry = Logger.WARN ∧
                 Logger.context entry = Some "performance")).
Proof.
  intros r. unfold r, logPerformanceIssue. split.
  - intros Hfast. destruct (Z.ltb_spec threshold duration); [lia | done].
  - intros Hslow. destruct (Z.ltb_spec threshold duration); [|lia].
    unfold Logger.warn. rewrite in_logger_log. cbn [Exc.out Exc.final Exc.trace].
    split_and!; [done | by apply log_below_error_not_remote |].
    intros Hthr Hen Hw Hset Hcap. eexists. cbn [logger with_logger].
    rewrite log_stores; [|by apply Z.leb_le | done..].
    rewrite slice0_nonneg by lia.
    destruct (Z.to_nat (Logger.maxStorageEntries _)) eqn:Hn; [lia|].
    split; [reflexivity | done].
Qed.
End ErrorHandler.

(** X24 at a concrete input: production posture, the fetcher throws. *)
Lemma getMockDataIfNeeded_never_throws_witness :
  let cfg := Environment.Config.mk "https://x.supabase.co" "key" false true false
               10000 300000 in
  let s := App.mkState ([] : Cache.store (list Z)) (Environment.initial cfg)
             Health.initial
             (Logger.mkState (Logger.mkConfig Logger.INFO true true 1000 false None)
                             "session_1" None) in
  let boom := Js.new_Error "network down" None in
  Exc.out (App.getMockDataIfNeeded 5 (Environment.Response true) [1; 2]
             (Exc.throw boom) s)
  = Exc.Returned [1; 2].
Proof.
  intros cfg s boom.
  destruct (getMockDataIfNeeded_never_throws 5 (Environment.Response true) [1; 2]
              (Exc.throw boom) s) as (_ & Hreal & _).
  destruct Hreal as [_ Hfail]; [reflexivity|].
  rewrite (Hfail boom); reflexivity.
Defined.



(** X29 at a concrete input: exactly at the threshold nothing is logged. *)
Lemma logPerformanceIssue_threshold_witness :
  let s := App.mkState ([] : Cache.store (list Z))
             (Environment.initial (Environment.Config.mk "" "" false true false 0 0))
             Health.initial
             (Logger.mkState (Logger.mkConfig Logger.DEBUG true true 1000 false None)
                             "session_1" None) in
  let lw := Logger.mkWorld 5 5 "abc" None false false in
  App.logPerformanceIssue lw "dashboard-stats" 2000 2000 s
  = Exc.mkResult (Exc.Returned tt) s [].
Proof.
  intros s lw.
  destruct (logPerformanceIssue_threshold lw "dashboard-stats" 2000 2000 s)
    as [Hfast _].
  apply Hfast. lia.
Defined.

(** * Properties of the status panel and of the health reset *)

Section StatusPanel.
Import App.
Context {Client : Type}.
Implicit Types (s : State Client).

Lemma handleToggleMockData_run s :
  handleToggleMockData s
  = Exc.mkResult (Exc.Returned tt)
      (mkState (cache s)
         (Eff.final (Environment.enableMockData
                       (bool_decide (status_of s ≠ Environment.connected)) (env s)))
         (health s) (logger s))
      [SetTimeoutRefresh 100].
Proof. by destruct s as [c [cfg st last] h l]. Qed.

Lemma resetHealthCheck_run s :
  resetHealthCheck s
  = Exc.mkResult (Exc.Returned tt)
      (mkState (cache s) (Eff.final (Environment.resetConnectionStatus (env s)))
               Health.initial (logger s))
      [].
Proof. by destruct s as [c [cfg st last] h l]. Qed.

(** a health operation leaves the connection monitor alone *)
Lemma in_health_env {A} (m : Eff.t Health.Event Health.State A) s :
  env (Exc.final (in_health m s)) = env s.
Proof. done. Qed.

Lemma health_suspends_not_probing {X} w (out : Exc.outcome X Health.Phase) :
  Forall (λ c, is_probing c = false) (health_suspends w out).
Proof. destruct out as [[h| |]|x]; cbn; repeat constructor. Qed.

(** a decision while mock data is forced: no request, nothing changes *)
Lemma begin_decision_forced now s :
  forced s = true →
  in_env (Environment.begin_decision now) s
  = Exc.mkResult (Exc.Returned (Some true)) s [].
Proof.
  unfold forced. intros Hflag.
  unfold in_env, Exc.lift, Environment.begin_decision.
  eff_run. rewrite Hflag. cbn. by destruct s.
Qed.

(** a decision that has to ask: the request goes out, nothing changes yet *)
Lemma begin_decision_probes now s :
  forced s = false →
  Environment.Config.isDevelopment (Environment.defaultConfig (env s)) = true →
  Environment.isSupabaseConfigured (Environment.defaultConfig (env s)) = true →
  Environment.recently_checked now (env s) = false →
  Exc.out (in_env (Environment.begin_decision now) s) = Exc.Returned None ∧
  Exc.final (in_env (Environment.begin_decision now) s) = s.
Proof.
  unfold forced. intros Hflag Hdev Hcfg Hrecent.
  unfold in_env, Exc.lift, Environment.begin_decision, Environment.begin_check.
  eff_unfold. rewrite Hflag, Hdev, Hrecent, Hcfg. cbn. by destruct s.
Qed.

Lemma resume_check_env now net s :
  env (Exc.final (in_env (Environment.resume_check now net) s))
  = Environment.mkState (Environment.defaultConfig (env s))
                        (Environment.probed_status net) now.
Proof.
  unfold in_env, Exc.lift, Environment.resume_check, Environment.set_status,
    Environment.set_lastCheck.
  eff_unfold. by destruct net as [[|]|reason].
Qed.

Lemma handleRetryConnection_env w s :
  env (Exc.final (handleRetryConnection w s))
  = Eff.final (Environment.resetConnectionStatus (env s)).
Proof.
  unfold handleRetryConnection, in_env. rewrite xrun_bind.
  unfold Exc.lift at 1 2 3. cbn [Eff.out Environment.resetConnectionStatus Eff.modify
    Exc.out Exc.final Exc.trace Eff.final Eff.trace].
  by rewrite in_health_env.
Qed.

(** the invariant of a session in mock mode with no availability check
    under way *)
Lemma task_step_stays_forced (ss : Session Client) task :
  forced (app ss) = true →
  status_of (app ss) ≠ Environment.connected →
  Forall (λ c, is_probing c = false) (suspended ss) →
  forced (app (task_step ss task)) = true ∧
  status_of (app (task_step ss task)) ≠ Environment.connected ∧
  Forall (λ c, is_probing c = false) (suspended (task_step ss task)).
Proof.
  intros Hforced Hstatus Hnone.
  destruct task as [|w| |now|force w|i net]; cbn [task_step app suspended].
  - rewrite handleToggleMockData_run. unfold forced, status_of. cbn.
    split_and!; [by apply bool_decide_eq_true | done | done].
  - unfold forced, status_of. rewrite handleRetryConnection_env.
    split_and!; [done | done |].
    apply Forall_app. split; [done | apply health_suspends_not_probing].
  - rewrite resetHealthCheck_run. by split_and!.
  - rewrite begin_decision_forced by done. cbn [Exc.final Exc.out].
    split_and!; [done | done |]. by rewrite app_nil_r.
  - unfold forced, status_of. rewrite in_health_env.
    split_and!; [done | done |].
    apply Forall_app. split; [done | apply health_suspends_not_probing].
  - destruct (suspended ss !! i) as [[now|w|w]|] eqn:Hi; cbn [app suspended].
    + by apply (Forall_lookup_1 _ _ _ _ Hnone) in Hi.
    + unfold forced, status_of. rewrite in_health_env.
      split_and!; [done | done |].
      apply Forall_app. split;
        [by apply Forall_delete | apply health_suspends_not_probing].
    + unfold forced, status_of. rewrite in_health_env.
      split_and!; [done | done | by apply Forall_delete].
    + done.
Qed.

(** X25. The mock-data toggle of the status panel.  A toggle forces mock
    data on exactly when the connection status is not [connected] at that
    moment, and always leaves the status [unknown]; so a second toggle right
    after the first forces mock data again.  As long as no availability
    check is suspended at its [await fetch] when mock data is forced, mock
    mode is sticky: no sequence of toggles, connection retries, health
    resets, health checks, fallback decisions and resumptions turns it off,
    because a forced decision never asks the service and the status cannot
    become [connected].  It is not sticky otherwise: an availability check
    that was started before the toggle and is answered [ok] after it sets
    the status [connected], and the next toggle turns mock data off. *)
Theorem mock_mode_sticky_unless_probe_pending (tasks : list Task)
    (ss : Session Client) :
  let s := app ss in
  let toggled := Exc.final (handleToggleMockData s) in
  forced toggled = bool_decide (status_of s ≠ Environment.connected) ∧
  status_of toggled = Environment.unknown ∧
  forced (Exc.final (handleToggleMockData toggled)) = true ∧
  (forced s = true → status_of s ≠ Environment.connected →
   Forall (λ c, is_probing c = false) (suspended ss) →
     forced (app (run_tasks tasks ss)) = true ∧
     status_of (app (run_tasks tasks ss)) ≠ Environment.connected ∧
     Forall (λ c, is_probing c = false) (suspended (run_tasks tasks ss))) ∧
  (∀ now,
     forced s = false → status_of s ≠ Environment.connected →
     Environment.Config.isDevelopment (Environment.defaultConfig (env s)) = true →
     Environment.isSupabaseConfigured (Environment.defaultConfig (env s)) = true →
     Environment.recently_checked now (env s) = false →
     let answered := Resume (length (suspended ss)) (Environment.Response true) in
     forced (app (run_tasks [Decide now; Toggle] ss)) = true ∧
     forced (app (run_tasks [Decide now; Toggle; answered] ss)) = true ∧
     status_of (app (run_tasks [Decide now; Toggle; answered] ss))
     = Environment.connected ∧
     forced (app (run_tasks [Decide now; Toggle; answered; Toggle] ss)) = false).
Proof.
  intros s toggled. unfold toggled, s. rewrite !handleToggleMockData_run.
  cbn [Exc.final]. split_and!; [done | done | done | |].
  - clear s toggled. revert ss.
    induction tasks as [|task tasks IH]; intros ss Hforced Hstatus Hnone; [done|].
    cbn [run_tasks foldl].
    destruct (task_step_stays_forced ss task Hforced Hstatus Hnone)
      as (Hforced' & Hstatus' & Hnone').
    by apply IH.
  - intros now Hforced Hstatus Hdev Hcfg Hrecent.
    destruct (begin_decision_probes now (app ss) Hforced Hdev Hcfg Hrecent)
      as [Hout Hfinal].
    assert (Hdecided : task_step ss (Decide now)
              = mkSession (app ss) (suspended ss ++ [Probing now])).
    { cbn [task_step]. by rewrite Hout, Hfinal. }
    assert (Hlookup : (suspended ss ++ [Probing now]) !! length (suspended ss)
                      = Some (Probing now)) by apply list_lookup_middle, eq_refl.
    unfold run_tasks. cbn [foldl]. rewrite Hdecided.
    cbn [task_step app suspended]. rewrite Hlookup. cbn [app suspended].
    rewrite !handleToggleMockData_run. cbn [Exc.final].
    unfold forced, status_of. rewrite !resume_check_env. cbn.
    split_and!; [by apply bool_decide_eq_true | by apply bool_decide_eq_true
                 | done | done].
Qed.

(** X26. [resetHealthCheck()] forgets the snapshot, the in-flight flag and
    the connection status, and nothing else.  The next health check, forced
    or not and however soon, queries the data service again, and the next
    availability check re-evaluates the connection. *)
Theorem resetHealthCheck_forces_fresh s :
  let s' := Exc.final (resetHealthCheck s) in
  Exc.trace (resetHealthCheck s) = [] ∧
  health s' = Health.initial ∧
  status_of s' = Environment.unknown ∧
  Environment.defaultConfig (env s') = Environment.defaultConfig (env s) ∧
  cache s' = cache s ∧ logger s' = logger s ∧
  (∀ force w,
     Exc.trace (in_health (Health.checkSystemHealth force w) s')
     = [HealthEv (Health.SelectCount "clients")]) ∧
  (∀ now, Environment.recently_checked now (env s') = false).
Proof.
  intros s'. unfold s'. rewrite resetHealthCheck_run. cbn [Exc.final Exc.trace].
  split_and!; try done.
  - intros force w. unfold in_health, Exc.lift. cbn [Exc.trace health].
    rewrite checkSystemHealth_refreshes; [| by destruct force | done].
    by rewrite refresh_trace.
  - intros now. unfold Environment.recently_checked. by rewrite andb_false_r.
Qed.
End StatusPanel.

(** X25 at a concrete input: on a fresh module in development a decision
    sends its request, the user toggles mock data on, the answer arrives,
    and a second toggle turns mock data off; had no request been under way,
    the second toggle would have kept it on. *)
Lemma mock_mode_sticky_unless_probe_pending_witness :
  let env := Environment.initial
               (Environment.Config.mk "https://x.supabase.co" "key" true false false
                  10000 300000) in
  let s := App.mkState ([] : Cache.store (list Z)) env Health.initial
             (Logger.mkState (Logger.mkConfig Logger.INFO true true 1000 false None)
                             "session_1" None) in
  let ss := App.mkSession s [] in
  let toggled := App.mkSession (Exc.final (App.handleToggleMockData s)) [] in
  App.forced (App.app (App.run_tasks [App.Decide 5; App.Toggle] toggled)) = true ∧
  App.forced
    (App.app (App.run_tasks
                [App.Decide 5; App.Toggle;
                 App.Resume 0 (Environment.Response true); App.Toggle] ss))
  = false.
Proof.
  intros env s ss toggled. split.
  - destruct (mock_mode_sticky_unless_probe_pending [App.Decide 5; App.Toggle] toggled)
      as (_ & _ & _ & Hsticky & _).
    destruct Hsticky as [Hforced _];
      [reflexivity | discriminate | constructor | exact Hforced].
  - destruct (mock_mode_sticky_unless_probe_pending [] ss)
      as (_ & _ & _ & _ & Hbroken).
    destruct (Hbroken 5) as (_ & _ & _ & Hoff);
      [reflexivity | discriminate | reflexivity | reflexivity | reflexivity |].
    exact Hoff.
Defined.

(** * Properties of the client service *)

Section ClientService.
Import App.
Context {Client : Type}.
Variable mockClients : list Client.
Implicit Types (s : State Client) (w : GetAllWorld Client).

Lemma state_eta s : mkState (cache s) (env s) (health s) (logger s) = s.
Proof. by destruct s. Qed.

Lemma cache_get_run key now s :
  cache_get key now s
  = Exc.mkResult (Exc.Returned (Cache.get key now (cache s)).1)
      (mkState (Cache.get key now (cache s)).2 (env s) (health s) (logger s)) [].
Proof. unfold cache_get. by exc_run. Qed.

(** the fetcher leaves the state alone, and returns only what the data
    service delivered *)
Lemma fetchClients_run w s :
  ∃ o tr,
    fetchClients w s = Exc.mkResult o s tr ∧
    ∀ v, o = Exc.Returned v → ∃ d, answer w = QData d ∧ v = default [] d.
Proof.
  unfold fetchClients. rewrite xrun_bind_emit.
  destruct (answer w) as [d|error|error].
  - exc_run. do 2 eexists. split; [done|]. intros v [= <-]. by exists d.
  - unfold isTableMissingError.
    destruct (Js.opt_is (Js.code error) "PGRST116");
      [|destruct (_ && _);
        [|destruct (Js.opt_is (Js.code error) "42P01");
          [|destruct (Js.details error) as [|text|cause];
            [| destruct (str_includes text "does not exist") |]]]];
      exc_run; do 2 eexists; (split; [done|]); by intros v [=].
  - exc_run. do 2 eexists. split; [done|]. by intros v [=].
Qed.

(** a miss: the helper decides, perhaps fetches, and always comes back with
    a list, the cache untouched *)
Lemma getMockDataIfNeeded_clients w s :
  ∃ v tr,
    getMockDataIfNeeded (t_check w) (net w) mockClients (fetchClients w) s
    = Exc.mkResult (Exc.Returned v) (decided (t_check w) (net w) s) tr ∧
    (v = mockClients ∨ ∃ d, answer w = QData d ∧ v = default [] d).
Proof.
  destruct (fetchClients_run w (decided (t_check w) (net w) s))
    as (o & tr & Hf & Hdata).
  destruct (shouldUseMockData_returns (t_check w) (net w) (env s)) as [[] Hd].
  - do 2 eexists. rewrite getMockDataIfNeeded_mock by done. split; [done | by left].
  - destruct o as [v|x].
    + do 2 eexists.
      rewrite (getMockDataIfNeeded_real _ _ _ _ _ v) by (done || by rewrite Hf).
      rewrite Hf. split; [done|]. right. by apply Hdata.
    + do 2 eexists.
      rewrite (getMockDataIfNeeded_failed _ _ _ _ _ x) by (done || by rewrite Hf).
      rewrite Hf. split; [done | by left].
Qed.

Lemma getAll_hit w s e :
  JsMap.get Cache.clients (cache s) = Some e →
  t_get w ≤ Cache.timestamp e →
  getAll mockClients w s
  = Exc.mkResult (Exc.Returned (Some (Cache.data e))) s [].
Proof.
  intros Hg Hlive. unfold getAll.
  apply xrun_catch_returned.
  rewrite (xrun_bind_returned _ _ _ _ _ _ (cache_get_run _ _ _)).
  rewrite (get_live _ _ _ _ Hg Hlive). cbn [fst snd]. exc_run.
  by rewrite state_eta.
Qed.

(** X30. [clientService.getAll()] and the cache.  On a hit (an unexpired
    [clients] entry) it returns the cached list and does nothing else: no
    request, no event, no state change.  On a miss it never throws and never
    returns null: it returns either the list the data service delivered or
    the mock clients, and caches what it returns under [clients] for
    [DEFAULT_TTL] with no dependencies; so every later call within that time
    returns the same list without any request, also when that list is the
    mock data substituted after a failure. *)
Theorem getAll_uses_cache w s :
  let r := getAll mockClients w s in
  (∀ e, JsMap.get Cache.clients (cache s) = Some e →
        t_get w ≤ Cache.timestamp e →
        r = Exc.mkResult (Exc.Returned (Some (Cache.data e))) s []) ∧
  (CacheOps.observe Cache.clients (t_get w) (cache s) = None →
     ∃ v, Exc.out r = Exc.Returned (Some v) ∧
          (v = mockClients ∨ ∃ d, answer w = QData d ∧ v = default [] d) ∧
          JsMap.get Cache.clients (cache (Exc.final r))
            = Some (Cache.mkEntry v (t_set w + Cache.DEFAULT_TTL) []) ∧
          ∀ w', t_get w' ≤ t_set w + Cache.DEFAULT_TTL →
                getAll mockClients w' (Exc.final r)
                = Exc.mkResult (Exc.Returned (Some v)) (Exc.final r) []) ∧
  (∃ v, Exc.out r = Exc.Returned (Some v)).
Proof.
  intros r.
  assert (Hmiss : CacheOps.observe Cache.clients (t_get w) (cache s) = None →
            ∃ v, Exc.out r = Exc.Returned (Some v) ∧
                 (v = mockClients ∨ ∃ d, answer w = QData d ∧ v = default [] d) ∧
                 JsMap.get Cache.clients (cache (Exc.final r))
                   = Some (Cache.mkEntry v (t_set w + Cache.DEFAULT_TTL) [])).
  { unfold CacheOps.observe. intros Hnone.
    set (s0 := mkState (Cache.get Cache.clients (t_get w) (cache s)).2
                       (env s) (health s) (logger s)).
    destruct (getMockDataIfNeeded_clients w s0) as (v & tr & Hrun & Hv).
    exists v.
    assert (Hbody : r = Exc.mkResult (Exc.Returned (Some v))
              (mkState (Cache.set_default Cache.clients v (t_set w) (cache s0))
                       (env (decided (t_check w) (net w) s0))
                       (health s0) (logger s0))
              tr).
    { unfold r, getAll. apply xrun_catch_returned.
      rewrite (xrun_bind_returned _ _ _ _ _ _ (cache_get_run _ _ _)).
      rewrite Hnone. fold s0.
      rewrite (xrun_bind_returned _ _ _ _ _ _ Hrun).
      unfold cache_set. exc_run. by rewrite !app_nil_r. }
    rewrite Hbody. cbn [Exc.out Exc.final cache].
    split_and!; [done | done |]. apply jsmap_get_set_eq. }
  split_and!.
  - intros e Hg Hlive. by apply getAll_hit.
  - intros Hnone. destruct (Hmiss Hnone) as (v & Hout & Hv & Hcached).
    exists v. split_and!; [done | done | done |].
    intros w' Hsoon. by apply (getAll_hit w' _ _ Hcached).
  - destruct (CacheOps.observe Cache.clients (t_get w) (cache s)) as [d|] eqn:Hobs.
    + rewrite observe_lookup in Hobs.
      destruct (JsMap.get Cache.clients (cache s)) as [e|] eqn:Hg; [|done].
      case_decide as Hlive; [|done].
      exists (Cache.data e). unfold r. by rewrite (getAll_hit w s e).
    + destruct (Hmiss eq_refl) as (v & Hout & _). by exists v.
Qed.
End ClientService.

(** X30 at a concrete input: production posture, the query fails; the mock
    clients are returned, cached, and served again four minutes later. *)
Lemma getAll_uses_cache_witness :
  let cfg := Environment.Config.mk "https://x.supabase.co" "key" false true false
               10000 300000 in
  let s := App.mkState ([] : Cache.store (list Z)) (Environment.initial cfg)
             Health.initial
             (Logger.mkState (Logger.mkConfig Logger.INFO true true 1000 false None)
                             "session_1" None) in
  let lw := Logger.mkWorld 5 5 "abc" None false false in
  let down := App.QThrows (Js.new_Error "network down" None) in
  let w := App.mkGetAllWorld 1000 1000 (Environment.Rejected "down") down 1200 lw in
  let w' := App.mkGetAllWorld 241000 241000 (Environment.Rejected "down") down 241200 lw in
  let r := App.getAll [7; 8] w s in
  Exc.out r = Exc.Returned (Some [7; 8]) ∧
  App.getAll [7; 8] w' (Exc.final r)
  = Exc.mkResult (Exc.Returned (Some [7; 8])) (Exc.final r) [].
Proof.
  intros cfg s lw down w w' r.
  destruct (getAll_uses_cache [7; 8] w s) as (_ & Hmiss & _).
  destruct Hmiss as (v & Hout & _ & _ & Hagain); [reflexivity|].
  assert (Hv : v = [7; 8]).
  { assert (Hr : Exc.out r = Exc.Returned (Some [7; 8])) by reflexivity.
    unfold r in Hr. rewrite Hout in Hr. by injection Hr. }
  subst v. split; [exact Hout|]. apply Hagain. vm_compute. discriminate.
Defined.
